(** * UIWrapper (src/common/ui-wrapper.js): a shallow embedding and its properties

    The wrapper is a JavaScript class whose constructor returns a [Proxy] over
    the instance.  The embedding keeps what the file's behaviour depends on:

    - JavaScript values with truthiness and strict equality, and a store of
      objects addressed by location, so that object literals are allocated,
      [Utils.Object.mergeDeep] mutates its target in place, and aliasing between
      configuration objects is visible; a plain object inherits from
      [Object.prototype], which is as the language creates it (no enumerable
      property): a run that is about to change it, or to change the prototype
      of an object, leaves the embedding and says so;
    - the wrapper instance as mutable state ([_uiManager], [_disabled]);
    - property lookup through the Proxy [get] trap, and method calls with a
      receiver ([this] is the bare instance inside the constructor and the
      Proxy for every caller outside);
    - the collaborators the file imports (UIManager, the DOM, the logger, the
      style sheet loader, [Env], [./utils/thumbs]) as a host interface, with a
      trace of every call made to them;
    - exceptions ([TypeError] on a property of [undefined]/[null] or a call of
      a non-function, [RangeError] when the call stack is exhausted). *)

From Stdlib Require Import Ascii.
From stdpp Require Import base list strings numbers.

Open Scope string_scope.
Open Scope list_scope.

(** ** Values and the object store *)

Abbreviation loc := nat.

(** The methods of [UIWrapper.prototype]. *)
Inductive method :=
| m_destroy | m_reset | m_setConfig | m_addComponent | m_registerManager
| m_getManager | m_hasManager | m_resetErrorState | m_setSeekbarConfig
| m_setLoadingSpinnerState | m_handleExternalCSS | m_handleVr
| m_setStereoConfig.

Inductive value :=
| VUndef                       (* undefined *)
| VNull                        (* null *)
| VBool (b : bool)
| VNum (n : Z)                 (* numbers, restricted to integers *)
| VStr (s : string)
| VLoc (l : loc)               (* reference to a plain object or an array *)
| VMethod (m : method)         (* a function of UIWrapper.prototype *)
| VNoop                        (* the arrow function () => undefined *)
| VManager                     (* reference to the UIManager instance *)
| VHost (n : nat)              (* opaque host value: the player, a DOM
                                  element, a function handed out by the
                                  UI manager *)
| VObjectPrototype             (* Object.prototype *)
| VNative (name : string).     (* a built-in function: the constructor
                                  Object, a method of Object.prototype *)

#[global] Instance method_eq_dec : EqDecision method.
Proof. solve_decision. Defined.

#[global] Instance value_eq_dec : EqDecision value.
Proof. solve_decision. Defined.

Inductive kind := Plain | Array.

(** An object: own enumerable properties in insertion order. *)
Record cell := Cell { kind_of : kind; props : list (string * value) }.

Abbreviation heap := (list cell).

(** ToBoolean *)
Definition truthy (v : value) : bool :=
  match v with
  | VUndef | VNull => false
  | VBool b => b
  | VNum n => negb (n =? 0)%Z
  | VStr s => negb (s =? "")
  | VLoc _ | VMethod _ | VNoop | VManager | VHost _ => true
  | VObjectPrototype | VNative _ => true
  end.

Definition method_eqb (a b : method) : bool :=
  match a, b with
  | m_destroy, m_destroy | m_reset, m_reset | m_setConfig, m_setConfig
  | m_addComponent, m_addComponent | m_registerManager, m_registerManager
  | m_getManager, m_getManager | m_hasManager, m_hasManager
  | m_resetErrorState, m_resetErrorState
  | m_setSeekbarConfig, m_setSeekbarConfig
  | m_setLoadingSpinnerState, m_setLoadingSpinnerState
  | m_handleExternalCSS, m_handleExternalCSS | m_handleVr, m_handleVr
  | m_setStereoConfig, m_setStereoConfig => true
  | _, _ => false
  end.

(** The operator [===]. *)
Definition strict_eq (a b : value) : bool :=
  match a, b with
  | VUndef, VUndef | VNull, VNull | VNoop, VNoop | VManager, VManager => true
  | VObjectPrototype, VObjectPrototype => true
  | VNative x, VNative y => (x =? y)
  | VBool x, VBool y => Bool.eqb x y
  | VNum x, VNum y => (x =? y)%Z
  | VStr x, VStr y => (x =? y)
  | VLoc x, VLoc y => (x =? y)%nat
  | VMethod x, VMethod y => method_eqb x y
  | VHost x, VHost y => (x =? y)%nat
  | _, _ => false
  end.

(** The name of a method, as [f.name] gives it. *)
Definition method_name (m : method) : string :=
  match m with
  | m_destroy => "destroy"
  | m_reset => "reset"
  | m_setConfig => "setConfig"
  | m_addComponent => "addComponent"
  | m_registerManager => "registerManager"
  | m_getManager => "getManager"
  | m_hasManager => "hasManager"
  | m_resetErrorState => "_resetErrorState"
  | m_setSeekbarConfig => "setSeekbarConfig"
  | m_setLoadingSpinnerState => "setLoadingSpinnerState"
  | m_handleExternalCSS => "_handleExternalCSS"
  | m_handleVr => "_handleVr"
  | m_setStereoConfig => "_setStereoConfig"
  end.

(** Own property lookup: the first binding of the key. *)
Fixpoint own_prop (k : string) (ps : list (string * value)) : option value :=
  match ps with
  | [] => None
  | (k', v) :: ps' => if k' =? k then Some v else own_prop k ps'
  end.

(** [o[k] = v] on the property list: overwrite in place, or append. *)
Fixpoint assign_prop (k : string) (v : value) (ps : list (string * value))
  : list (string * value) :=
  match ps with
  | [] => [(k, v)]
  | (k', v') :: ps' =>
      if k' =? k then (k, v) :: ps' else (k', v') :: assign_prop k v ps'
  end.

(** The methods of [Object.prototype]. *)
Definition Object_prototype_methods : list string :=
  ["__defineGetter__"; "__defineSetter__"; "__lookupGetter__";
   "__lookupSetter__"; "hasOwnProperty"; "isPrototypeOf";
   "propertyIsEnumerable"; "toLocaleString"; "toString"; "valueOf"].

(** [o[k]] when the lookup reaches [Object.prototype]: the accessor
    [__proto__], whose getter returns [proto], the prototype of the object the
    lookup started from; [constructor]; the methods; nothing else. *)
Definition inherited (proto : value) (k : string) : value :=
  if k =? "__proto__" then proto
  else if k =? "constructor" then VNative "Object"
  else if bool_decide (k ∈ Object_prototype_methods) then VNative k
  else VUndef.

(** [o[k]] for [o] neither [undefined] nor [null].  A plain object has its own
    properties and inherits from [Object.prototype]; [mergeDeep] reads it
    under any key.  Every other value is read, in this file and in the two
    library helpers, only under the names [ui], [disable], [targetId],
    [customPreset], [plugins], [css], [vr], [toggleStereo], [startInStereo],
    [components], [seekbar] and [name]: an array has its own properties under
    them, a function has its [name], a primitive and a host value have
    nothing. *)
Definition read (h : heap) (o : value) (k : string) : value :=
  match o with
  | VLoc l =>
      match h !! l with
      | Some (Cell Plain ps) =>
          default (inherited VObjectPrototype k) (own_prop k ps)
      | Some (Cell Array ps) => default VUndef (own_prop k ps)
      | None => VUndef
      end
  | VObjectPrototype => inherited VNull k
  | VNative n => if k =? "name" then VStr n else VUndef
  | VMethod m => if k =? "name" then VStr (method_name m) else VUndef
  | VNoop => if k =? "name" then VStr "" else VUndef
  | _ => VUndef
  end.

(** The own data property [k] of [o] is created or overwritten. *)
Definition write (h : heap) (o : value) (k : string) (v : value) : heap :=
  match o with
  | VLoc l =>
      match h !! l with
      | Some c => <[l := Cell (kind_of c) (assign_prop k v (props c))]> h
      | None => h
      end
  | _ => h
  end.

Definition has_own (h : heap) (o : value) (k : string) : bool :=
  match o with
  | VLoc l =>
      match h !! l with
      | Some c => bool_decide (is_Some (own_prop k (props c)))
      | None => false
      end
  | _ => false
  end.

(** The keys a [for ... in] loop visits: the own enumerable keys, in the
    order of the property list; [Object.prototype] has no enumerable
    property. *)
Definition own_keys (h : heap) (o : value) : list string :=
  match o with
  | VLoc l =>
      match h !! l with
      | Some c => (props c).*1
      | None => []
      end
  | _ => []
  end.

(** Allocation of an object literal: the new object gets the next location. *)
Definition alloc (c : cell) (h : heap) : loc * heap := (length h, h ++ [c]).

(** ** Completions

    An operation on the store returns, throws, or leaves the embedding: its
    next step would write a property of [Object.prototype], change the
    prototype of an object, or treat a host value as an object to merge. *)

Inductive error := TypeError | RangeError.

Inductive exit :=
| WritesObjectPrototype (k : string) (v : value)
| SetsPrototype (o proto : value)
| HostObject (v : value).

Inductive completion :=
| Done (h : heap)
| Raised (e : error) (h : heap)
| Exits (x : exit) (h : heap).

(** ** Utils.Object of @playkit-js/playkit-js

    The library helpers the wrapper calls, as the library defines them:
<<
    isObject(item) { return item && typeof item === 'object' && !Array.isArray(item); }

    isClassInstance(item) {
      return item && item.constructor && item.constructor.name
             && item.constructor.name !== 'Object';
    }

    mergeDeep(target, ...sources) {
      if (!sources.length) return target;
      const source = sources.shift();
      if (this.isObject(target) && this.isObject(source)) {
        for (const key in source) {
          if (this.isObject(source[key]) && !this.isClassInstance(source[key])) {
            if (!target[key]) Object.assign(target, {[key]: {}});
            this.mergeDeep(target[key], source[key]);
          } else {
            Object.assign(target, {[key]: source[key]});
          }
        }
      }
      return this.mergeDeep(target, ...sources);
    }

    getPropertyPath(obj, propertyPath) {
      return propertyPath.split('.').reduce(function (o, x) {
        return typeof o === 'undefined' || o === null ? o : o[x];
      }, obj);
    }
>>
    [mergeDeep] works on the store; when the call stack (the fuel, one unit
    per call of [mergeDeep]) is exhausted it raises a [RangeError] and the
    writes made so far stay. *)

(** [undefined], a boolean, a number, a string: neither an object nor
    [null]. *)
Definition is_primitive (v : value) : bool :=
  match v with
  | VUndef | VBool _ | VNum _ | VStr _ => true
  | _ => false
  end.

(** A host value is a function or an instance of a host class; which of the
    two, the embedding does not know. *)
Definition is_host (v : value) : bool :=
  match v with
  | VHost _ | VManager => true
  | _ => false
  end.

(** What [isObject] answers on a value of the store. *)
Definition isObject (h : heap) (item : value) : bool :=
  match item with
  | VLoc l =>
      match h !! l with
      | Some (Cell Plain _) => true
      | _ => false
      end
  | VObjectPrototype => true
  | _ => false
  end.

(** [isClassInstance(item)] for an [item] that [isObject]; [None] when a host
    value, whose [name] the embedding does not know, decides. *)
Definition isClassInstance (h : heap) (item : value) : option bool :=
  let c := read h item "constructor" in
  if negb (truthy c) then Some false
  else if is_host c then None
  else
    let n := read h c "name" in
    Some (truthy n && negb (strict_eq n (VStr "Object"))).

(** [Object.assign(target, {[key]: v})] for a [target] that [isObject].
    The assignment is a [[Set]]: under the key [__proto__], unless the target
    has an own property of that name, it reaches the setter of
    [Object.prototype.__proto__], which ignores a primitive and sets the
    prototype to an object or [null]; [Object.prototype] itself accepts only
    [null], the prototype it has. *)
Definition Object_assign (h : heap) (target : value) (key : string)
  (v : value) : completion :=
  match target with
  | VObjectPrototype =>
      if key =? "__proto__" then
        if is_primitive v || strict_eq v VNull then Done h
        else Raised TypeError h
      else Exits (WritesObjectPrototype key v) h
  | _ =>
      if (key =? "__proto__") && negb (has_own h target key) then
        if is_primitive v then Done h
        else Exits (SetsPrototype target v) h
      else Done (write h target key v)
  end.

Fixpoint for_in (body : heap -> string -> completion) (keys : list string)
  (h : heap) : completion :=
  match keys with
  | [] => Done h
  | key :: keys' =>
      match body h key with
      | Done h' => for_in body keys' h'
      | c => c
      end
  end.

(** The body of the [for ... in] loop of [mergeDeep]; [rec] is the recursive
    call [this.mergeDeep(target[key], source[key])]. *)
Definition merge_key (rec : value -> value -> heap -> completion)
  (target source : value) (h : heap) (key : string) : completion :=
  let sv := read h source key in
  if isObject h sv then
    match isClassInstance h sv with
    | None => Exits (HostObject (read h sv "constructor")) h
    | Some true => Object_assign h target key sv
    | Some false =>
        if truthy (read h target key) then rec (read h target key) sv h
        else
          let '(l, h') := alloc (Cell Plain []) h in
          match Object_assign h' target key (VLoc l) with
          | Done h1 => rec (read h1 target key) (read h1 source key) h1
          | c => c
          end
    end
  else Object_assign h target key sv.

(** One source merged into [target]: the [if] and its [for ... in] loop.
    When [isObject] is asked about a host value and the answer matters, the
    run leaves the embedding. *)
Definition merge_source (rec : value -> value -> heap -> completion)
  (target source : value) (h : heap) : completion :=
  if isObject h target && isObject h source then
    for_in (merge_key rec target source) (own_keys h source) h
  else if is_host target && (isObject h source || is_host source) then
    Exits (HostObject target) h
  else if isObject h target && is_host source then
    Exits (HostObject source) h
  else Done h.

Fixpoint mergeDeep (fuel : nat) (target : value) (sources : list value)
  (h : heap) : completion :=
  match fuel with
  | O => Raised RangeError h
  | S n =>
      match sources with
      | [] => Done h
      | source :: sources' =>
          match merge_source (fun t s => mergeDeep n t [s]) target source h with
          | Done h' => mergeDeep n target sources' h'
          | c => c
          end
      end
  end.

(** [propertyPath.split('.')] *)
Fixpoint split_dot_aux (acc : string) (s : string) : list string :=
  match s with
  | EmptyString => [String.rev acc]
  | String c s' =>
      if Ascii.eqb c "."%char then String.rev acc :: split_dot_aux "" s'
      else split_dot_aux (String c acc) s'
  end.

Definition split_dot (s : string) : list string := split_dot_aux "" s.

Definition getPropertyPath (h : heap) (obj : value) (propertyPath : string)
  : value :=
  fold_left
    (fun o x => match o with VUndef | VNull => o | _ => read h o x end)
    (split_dot propertyPath) obj.

(** ** Well-formed stores

    A store is closed when every reference in it points into it; a value is
    valid when it is not a dangling reference.  The plain objects of a store
    are data objects when the keys of each are distinct, none has an own
    property [__proto__], and none has a host value as [constructor].
    [by_value h v]: [mergeDeep] copies [v], a plain object that is no class
    instance, instead of assigning it.  [depth_leb d h v] bounds the nesting
    of the objects copied below [v]: a cyclic configuration has no bound, and
    [mergeDeep] overflows the stack on it. *)

Definition validb (h : heap) (v : value) : bool :=
  match v with
  | VLoc l => bool_decide (l < length h)
  | _ => true
  end.

Definition closedb (h : heap) : bool :=
  forallb (fun c => forallb (fun kv => validb h kv.2) (props c)) h.

Definition data_object (c : cell) : bool :=
  match kind_of c with
  | Plain =>
      bool_decide (NoDup (props c).*1)
      && bool_decide ("__proto__" ∉ (props c).*1)
      && negb (is_host (default VUndef (own_prop "constructor" (props c))))
  | Array => true
  end.

Definition data_objects (h : heap) : bool := forallb data_object h.

Definition by_value (h : heap) (v : value) : bool :=
  isObject h v && bool_decide (isClassInstance h v = Some false).

Fixpoint depth_leb (d : nat) (h : heap) (v : value) : bool :=
  match v with
  | VLoc l =>
      match h !! l with
      | Some (Cell Plain ps) =>
          match d with
          | O => false
          | S d' =>
              forallb (fun kv => negb (by_value h kv.2) || depth_leb d' h kv.2) ps
          end
      | _ => true
      end
  | _ => true
  end.

(** ** The collaborators

    What the file imports and does not define: the UIManager class of
    @playkit-js/playkit-js-ui, the document, the player's [getView], [Env] of
    @playkit-js/playkit-js, and [getThumbSlicesUrl], [DEFAULT_THUMBS_WIDTH]
    and [DEFAULT_THUMBS_SLICES] of [./utils/thumbs].  They are parameters of
    the development.  The UI manager has a state of its own, which a call may
    change, and may read the store; [getThumbSlicesUrl] reads the store.  None
    of them throws, and none writes to the configuration objects.
    [getView v] is what [v.getView()] returns, for a value [v] that has the
    method. *)

Inductive um_method :=
| um_buildCustomUI | um_buildDefaultUI | um_destroy | um_setConfig
| um_addComponent | um_registerManager | um_getManager | um_hasManager.

Class Host := {
  UIManager : Type;
  new_UIManager : value -> value -> heap -> UIManager;
  um_call : um_method -> list value -> heap -> UIManager -> value * UIManager;
  Document : Type;
  (* [None] is the [null] of a missing element *)
  getElementById : Document -> value -> option value;
  appendChild : value -> value -> Document -> Document;
  (* [None]: the value has no method [getView] *)
  getView : value -> option value;
  Env_isMobile : bool;
  Env_isTablet : bool;
  getThumbSlicesUrl : heap -> value -> value -> string;
  DEFAULT_THUMBS_WIDTH : Z;
  DEFAULT_THUMBS_SLICES : Z
}.

Inductive level := Debug | Error.

(** The calls the wrapper makes to the outside, in order. *)
Inductive event :=
| ENewUIManager (player config : value)
| EUIManager (m : um_method) (args : list value)
| EAppendChild (container view : value)
| ELoadStyleSheetAsync (url : value)
| ELog (l : level) (msg : string).

(** The two callbacks given to [then] in [_handleExternalCSS]. *)
Inductive callback := css_loaded | css_failed.

(** A promise with its reaction [then(on_fulfilled, on_rejected)]. *)
Record reaction := Reaction { on_fulfilled : callback; on_rejected : callback }.

Inductive outcome := Fulfilled | Rejected.

(** The instance fields of the class. *)
Record UIWrapper := { _uiManager : value; _disabled : bool }.

Inductive receiver := Target | Proxy.

Section Wrapper.
Context {host : Host}.

Record World := {
  store : heap;
  uiw : UIWrapper;                 (* the instance behind the Proxy *)
  manager : option UIManager;      (* the UIManager instance, once built *)
  document : Document;
  pending : list reaction;         (* promises not settled yet *)
  trace : list event
}.

Definition with_store (h : heap) (w : World) : World :=
  {| store := h; uiw := uiw w; manager := manager w; document := document w;
     pending := pending w; trace := trace w |}.
Definition with_uiw (o : UIWrapper) (w : World) : World :=
  {| store := store w; uiw := o; manager := manager w; document := document w;
     pending := pending w; trace := trace w |}.
Definition with_manager (m : option UIManager) (w : World) : World :=
  {| store := store w; uiw := uiw w; manager := m; document := document w;
     pending := pending w; trace := trace w |}.
Definition with_document (d : Document) (w : World) : World :=
  {| store := store w; uiw := uiw w; manager := manager w; document := d;
     pending := pending w; trace := trace w |}.
Definition with_pending (p : list reaction) (w : World) : World :=
  {| store := store w; uiw := uiw w; manager := manager w; document := document w;
     pending := p; trace := trace w |}.
Definition with_trace (t : list event) (w : World) : World :=
  {| store := store w; uiw := uiw w; manager := manager w; document := document w;
     pending := pending w; trace := t |}.

(** ** Computations: state and exceptions *)

Inductive Res (A : Type) :=
| Ok (a : A) (w : World)
| Throw (e : error) (w : World)
| Leaves (x : exit) (w : World).   (* the run leaves the embedding *)
Arguments Ok {A} a w.
Arguments Throw {A} e w.
Arguments Leaves {A} x w.

Definition JS (A : Type) := World -> Res A.

Definition ret {A} (a : A) : JS A := fun w => Ok a w.
Definition throw {A} (e : error) : JS A := fun w => Throw e w.
Definition bind {A B} (c : JS A) (k : A -> JS B) : JS B :=
  fun w => match c w with
           | Ok a w' => k a w'
           | Throw e w' => Throw e w'
           | Leaves x w' => Leaves x w'
           end.

Notation "x <- c ;; k" := (bind c (fun x => k))
  (at level 100, c at next level, right associativity).
Notation "c ;;; k" := (bind c (fun _ => k))
  (at level 100, right associativity).

(** The world a computation ends in. *)
Definition world_of {A} (r : Res A) : World :=
  match r with Ok _ w => w | Throw _ w => w | Leaves _ w => w end.

Definition emit (e : event) : JS unit :=
  fun w => Ok tt (with_trace (trace w ++ [e]) w).

(** [o.k]: a [TypeError] on [undefined] and [null]. *)
Definition get_prop (o : value) (k : string) : JS value :=
  fun w => match o with
           | VUndef | VNull => Throw TypeError w
           | _ => Ok (read (store w) o k) w
           end.

(** An object literal. *)
Definition new_object (ps : list (string * value)) : JS value :=
  fun w => let '(l, h) := alloc (Cell Plain ps) (store w) in
           Ok (VLoc l) (with_store h w).

Definition arg (i : nat) (args : list value) : value := nth i args VUndef.

(** [new UIManager(player, config)] *)
Definition construct_UIManager (player config : value) : JS value :=
  fun w =>
    Ok VManager
       (with_trace (trace w ++ [ENewUIManager player config])
          (with_manager (Some (new_UIManager player config (store w))) w)).

(** [um.m(args)] for a value [um]: a call of the UI manager when [um] is the
    manager, a [TypeError] otherwise. *)
Definition um_invoke (um : value) (m : um_method) (args : list value)
  : JS value :=
  fun w =>
    match um, manager w with
    | VManager, Some st =>
        let '(r, st') := um_call m args (store w) st in
        Ok r (with_trace (trace w ++ [EUIManager m args])
                (with_manager (Some st') w))
    | _, _ => Throw TypeError w
    end.

(** [Utils.Object.mergeDeep(target, ...sources)] with [fuel] stack frames
    left; the result is [target]. *)
Definition Utils_Object_mergeDeep (fuel : nat) (target : value)
  (sources : list value) : JS value :=
  fun w => match mergeDeep fuel target sources (store w) with
           | Done h => Ok target (with_store h w)
           | Raised e h => Throw e (with_store h w)
           | Exits x h => Leaves x (with_store h w)
           end.

Definition Utils_Object_getPropertyPath (obj : value) (path : string)
  : JS value :=
  fun w => Ok (getPropertyPath (store w) obj path) w.

(** [Utils.Dom.loadStyleSheetAsync(url).then(f, g)]: the load is started and
    the reaction is registered; nothing runs before the promise settles. *)
Definition loadStyleSheetAsync_then (url : value) (f g : callback) : JS unit :=
  emit (ELoadStyleSheetAsync url);;;
  fun w => Ok tt (with_pending (pending w ++ [Reaction f g]) w).

(** [UIWrapper._logger] *)
Definition _logger (l : level) (msg : string) : JS unit := emit (ELog l msg).

(** ** Property lookup on the instance and through the Proxy *)

Definition method_of_name (prop : string) : option method :=
  if prop =? "destroy" then Some m_destroy
  else if prop =? "reset" then Some m_reset
  else if prop =? "setConfig" then Some m_setConfig
  else if prop =? "addComponent" then Some m_addComponent
  else if prop =? "registerManager" then Some m_registerManager
  else if prop =? "getManager" then Some m_getManager
  else if prop =? "hasManager" then Some m_hasManager
  else if prop =? "_resetErrorState" then Some m_resetErrorState
  else if prop =? "setSeekbarConfig" then Some m_setSeekbarConfig
  else if prop =? "setLoadingSpinnerState" then Some m_setLoadingSpinnerState
  else if prop =? "_handleExternalCSS" then Some m_handleExternalCSS
  else if prop =? "_handleVr" then Some m_handleVr
  else if prop =? "_setStereoConfig" then Some m_setStereoConfig
  else None.

(** [uiw[prop]]: the two fields, then the prototype's methods; what the
    instance inherits from [Object.prototype] is left out. *)
Definition member (o : UIWrapper) (prop : string) : value :=
  if prop =? "_uiManager" then _uiManager o
  else if prop =? "_disabled" then VBool (_disabled o)
  else match method_of_name prop with
       | Some m => VMethod m
       | None => VUndef
       end.

(** The [get] trap:
    [(uiw, prop) => { if (this._disabled) return () => undefined; return uiw[prop]; }] *)
Definition proxy_get (prop : string) : JS value :=
  fun w => if _disabled (uiw w) then Ok VNoop w
           else Ok (member (uiw w) prop) w.

(** [this[prop]] *)
Definition get (this : receiver) (prop : string) : JS value :=
  match this with
  | Target => fun w => Ok (member (uiw w) prop) w
  | Proxy => proxy_get prop
  end.

Definition set_disabled (b : bool) : JS unit :=
  fun w => Ok tt (with_uiw {| _uiManager := _uiManager (uiw w); _disabled := b |} w).

Definition set_uiManager (v : value) : JS unit :=
  fun w => Ok tt (with_uiw {| _uiManager := v; _disabled := _disabled (uiw w) |} w).

(** [player.getView()]: a [TypeError] on [undefined] and [null], and on a
    value without the method. *)
Definition player_getView (player : value) : JS value :=
  fun w => match player with
           | VUndef | VNull => Throw TypeError w
           | _ => match getView player with
                  | Some view => Ok view w
                  | None => Throw TypeError w
                  end
           end.

(** ** The module-level helpers *)

Definition appendPlayerViewToTargetContainer (targetId view : value)
  : JS value :=
  fun w =>
    match getElementById (document w) targetId with
    | Some targetContainer =>
        Ok VUndef
           (with_trace (trace w ++ [EAppendChild targetContainer view])
              (with_document (appendChild targetContainer view (document w)) w))
    | None => Ok VUndef w
    end.

Definition getPreviewThumbnailConfig (mediaConfig seekbarConfig : value)
  : JS value :=
  fun w =>
    new_object
      [("thumbsSprite", VStr (getThumbSlicesUrl (store w) mediaConfig seekbarConfig));
       ("thumbsWidth", VNum DEFAULT_THUMBS_WIDTH);
       ("thumbsSlices", VNum DEFAULT_THUMBS_SLICES)] w.

(** ** The methods of the class

    [call f this args] is the call of the function value [f], one that
    [this[prop]] gave, with receiver [this], one stack frame down; [fuel] is
    the depth left there.  A property that an expression reads more than
    once, with no write in between, is read once. *)

Section Methods.
Variable fuel : nat.
Variable call : value -> receiver -> list value -> JS value.

Definition destroy (this : receiver) : JS value :=
  um <- get this "_uiManager";;
  um_invoke um um_destroy [];;;
  ret VUndef.

Definition reset (this : receiver) : JS value :=
  f <- get this "_resetErrorState";;
  call f this [];;;
  ret VUndef.

Definition setConfig (this : receiver) (config componentAlias : value)
  : JS value :=
  um <- get this "_uiManager";;
  um_invoke um um_setConfig [config; componentAlias];;;
  ret VUndef.

Definition addComponent (this : receiver) (component : value) : JS value :=
  um <- get this "_uiManager";;
  um_invoke um um_addComponent [component].

Definition registerManager (this : receiver) (name mgr : value) : JS value :=
  um <- get this "_uiManager";;
  um_invoke um um_registerManager [name; mgr];;;
  ret VUndef.

Definition getManager (this : receiver) (name : value) : JS value :=
  um <- get this "_uiManager";;
  um_invoke um um_getManager [name].

Definition hasManager (this : receiver) (name : value) : JS value :=
  um <- get this "_uiManager";;
  um_invoke um um_hasManager [name].

Definition _resetErrorState (this : receiver) : JS value :=
  f <- get this "setConfig";;
  config <- new_object [("hasError", VBool false)];;
  call f this [config; VStr "engine"];;;
  ret VUndef.

Definition setSeekbarConfig (this : receiver) (mediaConfig uiConfig : value)
  : JS value :=
  seekbarConfig <- Utils_Object_getPropertyPath uiConfig "components.seekbar";;
  previewThumbnailConfig <- getPreviewThumbnailConfig mediaConfig seekbarConfig;;
  f <- get this "setConfig";;
  target <- new_object [];;
  merged <- Utils_Object_mergeDeep fuel target
              [previewThumbnailConfig; seekbarConfig];;
  call f this [merged; VStr "seekbar"];;;
  ret VUndef.

Definition setLoadingSpinnerState (this : receiver) (show : value) : JS value :=
  f <- get this "setConfig";;
  config <- new_object [("show", show)];;
  call f this [config; VStr "loading"];;;
  ret VUndef.

Definition _handleExternalCSS (this : receiver) (config : value) : JS value :=
  css <- get_prop config "css";;
  if truthy css then
    loadStyleSheetAsync_then css css_loaded css_failed;;;
    ret VUndef
  else ret VUndef.

Definition _setStereoConfig (this : receiver) (vrConfig : value) : JS value :=
  toggleStereo <- get_prop vrConfig "toggleStereo";;
  if truthy toggleStereo
     || ((Env_isMobile || Env_isTablet)
         && negb (strict_eq toggleStereo (VBool false)))
  then
    f <- get this "setConfig";;
    target <- new_object [];;
    startInStereo <- get_prop vrConfig "startInStereo";;
    source <- new_object [("vrStereoMode", VBool (truthy startInStereo))];;
    merged <- Utils_Object_mergeDeep fuel target [source];;
    call f this [merged; VStr "vrStereo"];;;
    ret VUndef
  else ret VUndef.

(** The default parameter [config = {}] applies to [undefined] only. *)
Definition _handleVr (this : receiver) (config : value) : JS value :=
  config <- match config with
            | VUndef => new_object []
            | _ => ret config
            end;;
  vr <- get_prop config "vr";;
  if truthy vr then
    disable <- get_prop vr "disable";;
    if negb (truthy disable) then
      f <- get this "_setStereoConfig";;
      call f this [vr];;;
      ret VUndef
    else ret VUndef
  else ret VUndef.

Definition method_body (m : method) (this : receiver) (args : list value)
  : JS value :=
  match m with
  | m_destroy => destroy this
  | m_reset => reset this
  | m_setConfig => setConfig this (arg 0 args) (arg 1 args)
  | m_addComponent => addComponent this (arg 0 args)
  | m_registerManager => registerManager this (arg 0 args) (arg 1 args)
  | m_getManager => getManager this (arg 0 args)
  | m_hasManager => hasManager this (arg 0 args)
  | m_resetErrorState => _resetErrorState this
  | m_setSeekbarConfig => setSeekbarConfig this (arg 0 args) (arg 1 args)
  | m_setLoadingSpinnerState => setLoadingSpinnerState this (arg 0 args)
  | m_handleExternalCSS => _handleExternalCSS this (arg 0 args)
  | m_handleVr => _handleVr this (arg 0 args)
  | m_setStereoConfig => _setStereoConfig this (arg 0 args)
  end.

End Methods.

(** A call [f.apply(this, args)] with [fuel] stack frames left. *)
Fixpoint call (fuel : nat) (f : value) (this : receiver) (args : list value)
  : JS value :=
  match fuel with
  | O => throw RangeError
  | S n =>
      match f with
      | VNoop => ret VUndef
      | VMethod m => method_body n (call n) m this args
      | _ => throw TypeError
      end
  end.

(** [this.prop(...args)] *)
Definition invoke (fuel : nat) (this : receiver) (prop : string)
  (args : list value) : JS value :=
  f <- get this prop;;
  call fuel f this args.

(** ** The constructor

    [new UIWrapper(player, options)]: the instance starts with
    [_uiManager] unset and [_disabled = false]; the result is the Proxy. *)
Definition constructor (fuel : nat) (player options : value) : JS receiver :=
  (fun w => Ok tt (with_uiw {| _uiManager := VUndef; _disabled := false |} w));;;
  config <- get_prop options "ui";;
  disable <- get_prop config "disable";;
  (if truthy disable then
     set_disabled true;;;
     targetId <- get_prop config "targetId";;
     view <- player_getView player;;
     appendPlayerViewToTargetContainer targetId view
   else
     um <- construct_UIManager player config;;
     set_uiManager um;;;
     customPreset <- get_prop config "customPreset";;
     (if truthy customPreset then
        um <- get Target "_uiManager";;
        um_invoke um um_buildCustomUI [customPreset]
      else
        um <- get Target "_uiManager";;
        um_invoke um um_buildDefaultUI []);;;
     handleVr <- get Target "_handleVr";;
     plugins <- get_prop options "plugins";;
     call fuel handleVr Target [plugins];;;
     handleExternalCSS <- get Target "_handleExternalCSS";;
     call fuel handleExternalCSS Target [config]);;;
  ret Proxy.

(** ** Settling the style sheet promise

    The host settles the [i]-th pending promise; its reaction runs, and the
    promise that [then] returned is fulfilled when the callback returns and
    rejected when it throws. *)
Definition run_callback (c : callback) : JS value :=
  match c with
  | css_loaded =>
      _logger Debug "external css was loaded successfully";;; ret VUndef
  | css_failed =>
      _logger Error "external css failed to load";;; ret VUndef
  end.

Definition settle (i : nat) (o : outcome) (w : World)
  : option (outcome * World) :=
  match pending w !! i with
  | None => None
  | Some r =>
      let c := match o with
               | Fulfilled => on_fulfilled r
               | Rejected => on_rejected r
               end in
      match run_callback c (with_pending (delete i (pending w)) w) with
      | Ok _ w' => Some (Fulfilled, w')
      | Throw _ w' => Some (Rejected, w')
      | Leaves _ _ => None
      end
  end.

(** ** Histories of a wrapper

    What can happen to a wrapper once it is built: a property of the Proxy
    (or, from inside, of the instance) is called, or the host settles a
    pending promise. *)
Inductive op :=
| Invoke (fuel : nat) (this : receiver) (prop : string) (args : list value)
| Settle (i : nat) (o : outcome).

Definition step (w : World) (o : op) : World :=
  match o with
  | Invoke fuel this prop args => world_of (invoke fuel this prop args w)
  | Settle i o =>
      match settle i o w with
      | Some (_, w') => w'
      | None => w
      end
  end.

Definition run (ops : list op) (w : World) : World := fold_left step ops w.

End Wrapper.

Arguments Ok {host A} a w.
Arguments Throw {host A} e w.
Arguments Leaves {host A} x w.

Notation "x <- c ;; k" := (bind c (fun x => k))
  (at level 100, c at next level, right associativity).
Notation "c ;;; k" := (bind c (fun _ => k))
  (at level 100, right associativity).

(** ** A concrete host

    A UI manager that records the calls it receives and answers with their
    number, a document that records the views appended to its one element
    (id [player-div]), a mobile device. *)
Definition demo_host : Host := {|
  UIManager := list (um_method * list value);
  new_UIManager := fun _ _ _ => [];
  um_call := fun m args _ st => (VNum (Z.of_nat (length st)), st ++ [(m, args)]);
  Document := list (value * value);
  getElementById := fun _ id =>
    if strict_eq id (VStr "player-div") then Some (VHost 7) else None;
  appendChild := fun container view d => d ++ [(container, view)];
  getView := fun v => if strict_eq v (VHost 0) then Some (VHost 1) else None;
  Env_isMobile := true;
  Env_isTablet := false;
  getThumbSlicesUrl := fun _ _ _ => "poster/width/164/vid_slices/100";
  DEFAULT_THUMBS_WIDTH := 164;
  DEFAULT_THUMBS_SLICES := 100
|}.

Definition nullish (v : value) : bool :=
  match v with
  | VUndef | VNull => true
  | _ => false
  end.

(** [config] is [options.ui], and [config.disable] can be read. *)
Definition ui_config (h : heap) (options config : value) : Prop :=
  nullish options = false /\ config = read h options "ui"
  /\ nullish config = false.

(** The world after the UI manager, in state [st], has served [m(args)], and
    what it answered. *)
Definition served {host : Host} (m : um_method) (args : list value)
  (st : UIManager) (w : World) : World :=
  with_trace (trace w ++ [EUIManager m args])
    (with_manager (Some (um_call m args (store w) st).2) w).

Definition answer {host : Host} (m : um_method) (args : list value)
  (st : UIManager) (w : World) : value :=
  (um_call m args (store w) st).1.

(** The wrapper is enabled: the state an enabled constructor leaves. *)
Definition enabled {host : Host} (w : World) : Prop :=
  _disabled (uiw w) = false /\ _uiManager (uiw w) = VManager
  /\ is_Some (manager w).


(** The events a method may add to the trace: calls of the UI manager other
    than the two builders, and the start of a style sheet load. *)
Definition method_event (e : event) : bool :=
  match e with
  | EUIManager um_buildCustomUI _ | EUIManager um_buildDefaultUI _ => false
  | EUIManager _ _ | ELoadStyleSheetAsync _ => true
  | _ => false
  end.

(** What no call of a method or of the no-op function changes. *)
Definition frame {host : Host} (w w' : World) : Prop :=
  uiw w' = uiw w /\ document w' = document w
  /\ (is_Some (manager w) -> is_Some (manager w'))
  /\ exists evs, trace w' = trace w ++ evs /\ forallb method_event evs = true.

Definition frames {host : Host} {A} (c : JS A) : Prop :=
  forall w, frame w (world_of (c w)).

(** The worlds the constructor has reached after its first steps: the
    instance marked disabled, and the UI manager constructed and asked to
    build the UI. *)
Definition marked_disabled {host : Host} (w : World) : World :=
  with_uiw {| _uiManager := VUndef; _disabled := true |} w.

Definition build_call (customPreset : value) : um_method * list value :=
  if truthy customPreset then (um_buildCustomUI, [customPreset])
  else (um_buildDefaultUI, []).

Definition built {host : Host} (player config : value) (w : World) : World :=
  let st := new_UIManager player config (store w) in
  let b := build_call (read (store w) config "customPreset") in
  served b.1 b.2 st
    (with_trace (trace w ++ [ENewUIManager player config])
       (with_manager (Some st)
          (with_uiw {| _uiManager := VManager; _disabled := false |} w))).

(** [wrapper_at d w]: [w] is a state of a wrapper that was constructed with
    [options.ui.disable] truthy ([d = true]) or falsy ([d = false]), after any
    history. *)
Definition wrapper_at {host : Host} (d : bool) (w : World) : Prop :=
  exists fuel player options w0 w1 ops,
    constructor fuel player options w0 = Ok Proxy w1
    /\ truthy (read (store w0) (read (store w0) options "ui") "disable") = d
    /\ w = run ops w1.

(** Inputs for the concrete host: two option objects (enabled at location 0,
    disabled at location 6) and a media configuration. *)
Definition demo_store : heap :=
  [ Cell Plain [("ui", VLoc 1); ("plugins", VLoc 2)];
    Cell Plain [("targetId", VStr "player-div"); ("css", VStr "skin.css");
                ("components", VLoc 4)];
    Cell Plain [("vr", VLoc 3)];
    Cell Plain [("toggleStereo", VBool true); ("startInStereo", VNum 1)];
    Cell Plain [("seekbar", VLoc 5)];
    Cell Plain [("thumbsWidth", VNum 200)];
    Cell Plain [("ui", VLoc 7)];
    Cell Plain [("disable", VBool true); ("targetId", VStr "player-div")];
    Cell Plain [("poster", VStr "poster")] ].

Definition demo_world : @World demo_host :=
  @Build_World demo_host demo_store
    {| _uiManager := VUndef; _disabled := false |} None [] [] [].

Definition demo_player : value := VHost 0.

(** The enabled and the disabled wrapper of the concrete host. *)
Definition demo_enabled : @World demo_host :=
  world_of (constructor 5 demo_player (VLoc 0) demo_world).

Definition demo_disabled : @World demo_host :=
  world_of (constructor 5 demo_player (VLoc 6) demo_world).

(** ** Invariants of [mergeDeep]

    [closed h]: no dangling reference.  [merge_inv h0 h]: the store [h] grew
    out of [h0], and what [h0] held is untouched. *)
Definition closed (h : heap) : Prop :=
  forall l c kv, h !! l = Some c -> kv ∈ props c -> validb h kv.2 = true.

Record merge_inv (h0 h : heap) : Prop := {
  inv_length : length h0 <= length h;
  inv_old : forall l, l < length h0 -> h !! l = h0 !! l;
  inv_closed : closed h
}.

(** A merge into [tv] that started in [h] and ended in [h']: of the objects
    [h] held only [tv] may differ, and nothing at all when [tv] is no
    object. *)
Definition merged_into (h0 h h' : heap) (tv : value) : Prop :=
  merge_inv h0 h' /\ length h <= length h'
  /\ (forall l, l < length h -> tv <> VLoc l -> h' !! l = h !! l)
  /\ isObject h' tv = isObject h tv
  /\ (isObject h tv = false -> h' = h).

(** [copied h0 h' lo tv sv]: in [h'], [tv] is a copy of the object [sv] of
    [h0], made of objects at [lo] and above.  It is a plain object with the
    keys of [sv]; under a key it holds the value [sv] holds, or a copy of it
    when that is an object to copy; only where [Object.prototype] hands down
    something truthy under that key (a method, [constructor]) the merge went
    into that, and the copy has no property of its own. *)
Inductive copied (h0 h' : heap) : loc -> value -> value -> Prop :=
| copied_intro lo t sv :
    lo <= t -> isObject h' (VLoc t) = true ->
    (forall k, k ∉ own_keys h0 sv ->
       read h' (VLoc t) k = inherited VObjectPrototype k) ->
    (forall k, k ∈ own_keys h0 sv -> by_value h0 (read h0 sv k) = false ->
       read h' (VLoc t) k = read h0 sv k) ->
    (forall k, k ∈ own_keys h0 sv -> by_value h0 (read h0 sv k) = true ->
       truthy (inherited VObjectPrototype k) = true ->
       read h' (VLoc t) k = inherited VObjectPrototype k) ->
    (forall k, k ∈ own_keys h0 sv -> by_value h0 (read h0 sv k) = true ->
       truthy (inherited VObjectPrototype k) = false ->
       copied h0 h' (S t) (read h' (VLoc t) k) (read h0 sv k)) ->
    copied h0 h' lo (VLoc t) sv.

(** The targets of the recursive calls of a merge into a new object: a value
    that is no object, or an empty object created for the call. *)
Definition new_target (h0 h : heap) (tv : value) : Prop :=
  (isObject h tv = false /\ is_host tv = false)
  \/ exists t, tv = VLoc t /\ length h0 <= t /\ h !! t = Some (Cell Plain []).

(** What the recursive call of a merge with [N] stack frames left does. *)
Definition rec_ok (h0 : heap) (N : nat)
  (rec : value -> value -> heap -> completion) : Prop :=
  forall tv sv h,
    merge_inv h0 h -> validb h0 sv = true -> by_value h0 sv = true ->
    new_target h0 h tv ->
    match rec tv sv h with
    | Done h' => merged_into h0 h h' tv
    | Raised e h' => e = RangeError /\ merged_into h0 h h' tv
    | Exits _ _ => False
    end
    /\ (forall d, depth_leb d h0 sv = true -> d + 2 <= N ->
          exists h', rec tv sv h = Done h')
    /\ forall t h', tv = VLoc t -> h !! t = Some (Cell Plain []) ->
         rec tv sv h = Done h' -> copied h0 h' t tv sv.

(** The target has nothing under the keys of the source that a merge would
    go into: what it holds there is no object. *)
Definition target_free (h0 h : heap) (t : loc) (s : value)
  (keys : list string) : Prop :=
  forall k, k ∈ keys -> by_value h0 (read h0 s k) = true ->
    let tv := read h (VLoc t) k in
    truthy tv = true -> isObject h tv = false /\ is_host tv = false.

(** The loop of a merge into the new object [t], over [keys], from [h] to
    [h']: of the objects [h] held only [t] may differ, and [t] only under
    [keys]. *)
Definition merged_frame (h0 h h' : heap) (t : loc) (keys : list string)
  : Prop :=
  merge_inv h0 h' /\ length h <= length h'
  /\ isObject h' (VLoc t) = true
  /\ (forall l, l < length h -> l <> t -> h' !! l = h !! l)
  /\ (forall k, k ∉ keys -> read h' (VLoc t) k = read h (VLoc t) k).

(** What [t] holds under [keys] after the loop: the value of the source [s],
    unless that is an object to copy; then what [t] had when that is truthy,
    and a new copy otherwise. *)
Definition merged_values (h0 h h' : heap) (t : loc) (s : value)
  (keys : list string) : Prop :=
  forall k, k ∈ keys ->
    let sv := read h0 s k in
    let tv := read h (VLoc t) k in
    if by_value h0 sv then
      if truthy tv then read h' (VLoc t) k = tv
      else exists l', read h' (VLoc t) k = VLoc l' /\ length h <= l'
                      /\ copied h0 h' l' (VLoc l') sv
    else read h' (VLoc t) k = sv.

(** The object [{vrStereoMode: !!vrConfig.startInStereo}]. *)
Definition stereo_cell (h : heap) (vrConfig : value) : cell :=
  Cell Plain [("vrStereoMode", VBool (truthy (read h vrConfig "startInStereo")))].

(** The worlds [_handleVr(plugins)] and [_handleExternalCSS(config)] lead to
    when they return, as functions of the world they start in. *)
Definition after_handleVr {host : Host} (plugins : value) (w : World) : World :=
  let h := store w in
  let vr := read h plugins "vr" in
  let toggleStereo := read h vr "toggleStereo" in
  if truthy vr && negb (truthy (read h vr "disable"))
     && (truthy toggleStereo
         || ((Env_isMobile || Env_isTablet)
             && negb (strict_eq toggleStereo (VBool false))))
  then match manager w with
       | Some st =>
           served um_setConfig [VLoc (length h); VStr "vrStereo"] st
             (with_store (h ++ [stereo_cell h vr; stereo_cell h vr]) w)
       | None => w
       end
  else match plugins with
       | VUndef => with_store (h ++ [Cell Plain []]) w
       | _ => w
       end.

Definition after_handleExternalCSS {host : Host} (config : value) (w : World)
  : World :=
  let css := read (store w) config "css" in
  if truthy css
  then with_pending (pending w ++ [Reaction css_loaded css_failed])
         (with_trace (trace w ++ [ELoadStyleSheetAsync css]) w)
  else w.

(** Projections of a trace: the configurations passed to
    [setConfig(_, 'vrStereo')], the style sheets whose load was started, the
    messages logged. *)
Definition vrStereo_config (e : event) : option value :=
  match e with
  | EUIManager um_setConfig [config; VStr alias] =>
      if alias =? "vrStereo" then Some config else None
  | _ => None
  end.

Definition loaded_css (e : event) : option value :=
  match e with
  | ELoadStyleSheetAsync url => Some url
  | _ => None
  end.

Definition logged (e : event) : option (level * string) :=
  match e with
  | ELog l msg => Some (l, msg)
  | _ => None
  end.

(** The defaults of [getPreviewThumbnailConfig]. *)
Definition preview_props {host : Host} (h : heap)
  (mediaConfig seekbarConfig : value) : list (string * value) :=
  [("thumbsSprite", VStr (getThumbSlicesUrl h mediaConfig seekbarConfig));
   ("thumbsWidth", VNum DEFAULT_THUMBS_WIDTH);
   ("thumbsSlices", VNum DEFAULT_THUMBS_SLICES)].


(** [previewThumbnailConfig[k]]: a default, or what a plain object
    inherits. *)
Definition preview_value {host : Host} (h : heap)
  (mediaConfig seekbarConfig : value) (k : string) : value :=
  default (inherited VObjectPrototype k)
    (own_prop k (preview_props h mediaConfig seekbarConfig)).

(** The view of a player, when it has one. *)
Definition player_view {host : Host} (player : value) : option value :=
  if nullish player then None else getView player.
(** ** Notions for the further properties

    [extends h h']: the store [h'] has every object of [h], unchanged, and
    possibly new ones.  [grows c]: the computation [c] leaves every existing
    object as it was, and stays within the embedding.  [history_event]: the events a history may add, those of
    a method and the log lines of the style sheet callbacks.
    [same_when_enabled c1 c2]: the two computations agree on every world in
    which [_disabled] is [false]. *)
Definition extends (h h' : heap) : Prop :=
  length h <= length h' /\ forall l, l < length h -> h' !! l = h !! l.

Definition stays {host : Host} {A} (r : Res A) : Prop :=
  match r with
  | Leaves _ _ => False
  | _ => True
  end.

Definition grows {host : Host} {A} (c : JS A) : Prop :=
  forall w, extends (store w) (store (world_of (c w))) /\ stays (c w).

Definition history_event (e : event) : bool :=
  method_event e || match e with ELog _ _ => true | _ => false end.

Definition same_when_enabled {host : Host} {A} (c1 c2 : JS A) : Prop :=
  forall w, _disabled (uiw w) = false -> c1 w = c2 w.

(** The instance as a constructor call leaves it. *)
Definition fresh_instance : UIWrapper :=
  {| _uiManager := VUndef; _disabled := false |}.

(** A second input for the concrete host: the seekbar configuration (location
    3) holds a nested object under [marks]. *)
Definition demo_store_nested : heap :=
  [ Cell Plain [("ui", VLoc 1)];
    Cell Plain [("components", VLoc 2)];
    Cell Plain [("seekbar", VLoc 3)];
    Cell Plain [("thumbsSlices", VNum 50); ("marks", VLoc 4)];
    Cell Plain [("intro", VNum 12)] ].

Definition demo_enabled_nested : @World demo_host :=
  world_of
    (constructor 5 demo_player (VLoc 0)
       (@Build_World demo_host demo_store_nested fresh_instance None [] [] [])).

(** A third input: options whose [plugins] is [null]. *)
Definition demo_store_null_plugins : heap :=
  [ Cell Plain [("ui", VLoc 1); ("plugins", VNull)];
    Cell Plain [("css", VStr "skin.css")] ].

Definition demo_world_null_plugins : @World demo_host :=
  @Build_World demo_host demo_store_null_plugins fresh_instance None [] [] [].


(** A fourth input: a seekbar configuration (location 3) that holds a plain
    object under [thumbsWidth] and has an own property [__proto__], as
    [JSON.parse] creates it. *)
Definition demo_store_object_width : heap :=
  [ Cell Plain [("ui", VLoc 1)];
    Cell Plain [("components", VLoc 2)];
    Cell Plain [("seekbar", VLoc 3)];
    Cell Plain [("thumbsWidth", VLoc 4); ("__proto__", VNum 5)];
    Cell Plain [] ].

Definition demo_enabled_object_width : @World demo_host :=
  world_of
    (constructor 5 demo_player (VLoc 0)
       (@Build_World demo_host demo_store_object_width fresh_instance None [] [] [])).

(** A fifth input: disabled options whose [targetId] names no element. *)
Definition demo_store_no_target : heap :=
  [ Cell Plain [("ui", VLoc 1)];
    Cell Plain [("disable", VBool true); ("targetId", VStr "missing")] ].

Definition demo_world_no_target : @World demo_host :=
  @Build_World demo_host demo_store_no_target fresh_instance None [] [] [].

(** A sixth input: a seekbar configuration (location 3) that holds itself. *)
Definition demo_store_cyclic : heap :=
  [ Cell Plain [("ui", VLoc 1)];
    Cell Plain [("components", VLoc 2)];
    Cell Plain [("seekbar", VLoc 3)];
    Cell Plain [("self", VLoc 3)] ].

Definition demo_enabled_cyclic : @World demo_host :=
  world_of
    (constructor 5 demo_player (VLoc 0)
       (@Build_World demo_host demo_store_cyclic fresh_instance None [] [] [])).
Section Properties.
Context {host : Host}.
Implicit Types (w : World) (h : heap) (v : value).

(** ** The frame of a call *)

Lemma frame_refl w : frame w w.
Proof.
  repeat split; [done|]. exists []. by rewrite app_nil_r.
Qed.

Lemma frame_with_store h w : frame w (with_store h w).
Proof.
  repeat split; [done|]. exists []. simpl. by rewrite app_nil_r.
Qed.

Lemma frame_trans w1 w2 w3 : frame w1 w2 -> frame w2 w3 -> frame w1 w3.
Proof.
  intros (Hu & Hd & Hm & evs & Ht & He) (Hu' & Hd' & Hm' & evs' & Ht' & He').
  split; [congruence|]. split; [congruence|]. split; [auto|].
  exists (evs ++ evs'). split.
  - by rewrite Ht', Ht, app_assoc.
  - rewrite forallb_app, He, He'. done.
Qed.

Lemma frames_ret {A} (a : A) : frames (ret a).
Proof. intros w. apply frame_refl. Qed.

Lemma frames_throw {A} e : frames (throw (A:=A) e).
Proof. intros w. apply frame_refl. Qed.

Lemma frames_bind {A B} (c : JS A) (k : A -> JS B) :
  frames c -> (forall a, frames (k a)) -> frames (bind c k).
Proof.
  intros Hc Hk w. unfold bind. specialize (Hc w).
  destruct (c w) as [a w'|e w'|x w']; simpl in *; [|done|done].
  eapply frame_trans; [exact Hc|apply Hk].
Qed.

Lemma frames_get this prop : frames (get this prop).
Proof.
  intros w. destruct this; simpl; [apply frame_refl|].
  unfold proxy_get. destruct (_disabled (uiw w)); apply frame_refl.
Qed.

Lemma frames_get_prop o k : frames (get_prop o k).
Proof. intros w. destruct o; apply frame_refl. Qed.

Lemma frames_new_object ps : frames (new_object ps).
Proof. intros w. apply frame_with_store. Qed.

Lemma frames_um_invoke um m args :
  method_event (EUIManager m args) = true -> frames (um_invoke um m args).
Proof.
  intros Hm w. unfold um_invoke.
  destruct um; try apply frame_refl.
  destruct (manager w) as [st|]; [|apply frame_refl].
  destruct (um_call m args (store w) st) as [r st'] eqn:E. simpl.
  repeat split; [done|]. exists [EUIManager m args]. split; [done|].
  cbn [forallb]. by rewrite Hm.
Qed.

Lemma frames_mergeDeep fuel target sources :
  frames (Utils_Object_mergeDeep fuel target sources).
Proof.
  intros w. unfold Utils_Object_mergeDeep.
  destruct (mergeDeep fuel target sources (store w)); apply frame_with_store.
Qed.

Lemma frames_getPropertyPath o path : frames (Utils_Object_getPropertyPath o path).
Proof. intros w. apply frame_refl. Qed.

Lemma frames_getPreviewThumbnailConfig m s : frames (getPreviewThumbnailConfig m s).
Proof. intros w. apply frame_with_store. Qed.

Lemma frames_loadStyleSheetAsync_then url f g :
  frames (loadStyleSheetAsync_then url f g).
Proof.
  intros w. repeat split; [done|]. exists [ELoadStyleSheetAsync url]. done.
Qed.

Create HintDb frames.
#[local] Hint Resolve frames_ret frames_throw frames_get frames_get_prop
  frames_new_object frames_mergeDeep frames_getPropertyPath
  frames_getPreviewThumbnailConfig frames_loadStyleSheetAsync_then : frames.

Ltac frames_step :=
  first
    [ solve [auto with frames]
    | apply frames_um_invoke; reflexivity
    | apply frames_bind; [|intros ?]
    | match goal with
      | |- frames (if ?b then _ else _) => destruct b
      | |- frames (match ?x with _ => _ end) => destruct x
      end ].

Lemma frames_method_body fuel (call' : value -> receiver -> list value -> JS value) :
  (forall f this args, frames (call' f this args)) ->
  forall m this args, frames (method_body fuel call' m this args).
Proof.
  intros Hcall m this args.
  destruct m; cbv [method_body destroy reset setConfig addComponent
    registerManager getManager hasManager _resetErrorState setSeekbarConfig
    setLoadingSpinnerState _handleExternalCSS _setStereoConfig _handleVr];
    repeat frames_step.
Qed.

Lemma frames_call fuel f this args : frames (call fuel f this args).
Proof.
  revert f this args. induction fuel as [|n IH]; intros f this args.
  - apply frames_throw.
  - destruct f; simpl; auto with frames.
    by apply frames_method_body.
Qed.

Lemma frames_invoke fuel this prop args : frames (invoke fuel this prop args).
Proof.
  apply frames_bind; [apply frames_get|]. intros f. apply frames_call.
Qed.


(** ** Evaluation of the small steps *)

Lemma bind_assoc {A B C} (c : JS A) (k : A -> JS B) (k' : B -> JS C) w :
  bind (bind c k) k' w = bind c (fun a => bind (k a) k') w.
Proof. unfold bind. by destruct (c w). Qed.

Lemma get_prop_ok o k w :
  nullish o = false -> get_prop o k w = Ok (read (store w) o k) w.
Proof. by destruct o. Qed.

Lemma truthy_not_nullish v : truthy v = true -> nullish v = false.
Proof. by destruct v. Qed.

Lemma read_not_nullish h o k : nullish (read h o k) = false -> nullish o = false.
Proof. by destruct o. Qed.

Lemma get_Proxy_disabled prop w :
  _disabled (uiw w) = true -> get Proxy prop w = Ok VNoop w.
Proof. intros H. simpl. unfold proxy_get. by rewrite H. Qed.

Lemma get_Proxy_enabled prop w :
  _disabled (uiw w) = false -> get Proxy prop w = Ok (member (uiw w) prop) w.
Proof. intros H. simpl. unfold proxy_get. by rewrite H. Qed.

Lemma get_uiManager this w :
  enabled w -> get this "_uiManager" w = Ok VManager w.
Proof.
  intros (Hd & Hm & _). destruct this; [|rewrite get_Proxy_enabled by done];
    simpl; unfold member; simpl; by rewrite Hm.
Qed.

Lemma get_method this prop m w :
  enabled w -> member (uiw w) prop = VMethod m ->
  get this prop w = Ok (VMethod m) w.
Proof.
  intros (Hd & _) Hp. destruct this; [|rewrite get_Proxy_enabled by done];
    simpl; by rewrite Hp.
Qed.

Lemma um_invoke_manager m args st w :
  manager w = Some st ->
  um_invoke VManager m args w = Ok (answer m args st w) (served m args st w).
Proof.
  intros H. unfold um_invoke, answer, served. rewrite H.
  by destruct (um_call m args (store w) st).
Qed.

Lemma invoke_disabled n prop args w :
  _disabled (uiw w) = true -> invoke (S n) Proxy prop args w = Ok VUndef w.
Proof.
  intros H. unfold invoke, bind. by rewrite get_Proxy_disabled.
Qed.

Lemma setConfig_enabled this config alias st w :
  enabled w -> manager w = Some st ->
  setConfig this config alias w
  = Ok VUndef (served um_setConfig [config; alias] st w).
Proof.
  intros He Hs. unfold setConfig, bind.
  rewrite get_uiManager by done. by rewrite (um_invoke_manager _ _ st).
Qed.

Lemma enabled_served m args st w : enabled w -> enabled (served m args st w).
Proof. intros (? & ? & ?). by repeat split. Qed.

Lemma enabled_with_store h w : enabled w -> enabled (with_store h w).
Proof. intros (? & ? & ?). by repeat split. Qed.

Lemma frame_enabled w w' : frame w w' -> enabled w -> enabled w'.
Proof.
  intros (Hu & _ & Hm & _) (Hd & Hum & Hs). rewrite <- Hu in Hd, Hum.
  repeat split; auto.
Qed.

(** ** Histories keep the instance as the constructor left it *)

Lemma settle_fields i o w r w' :
  settle i o w = Some (r, w') ->
  uiw w' = uiw w /\ manager w' = manager w /\ store w' = store w
  /\ document w' = document w.
Proof.
  unfold settle. destruct (pending w !! i) as [rc|]; [|done].
  destruct o, rc as [[] []]; simpl; intros [= <- <-]; done.
Qed.

Lemma uiw_step w o : uiw (step w o) = uiw w.
Proof.
  destruct o as [fuel this prop args|i o]; simpl.
  - apply frames_invoke.
  - destruct (settle i o w) as [[r w']|] eqn:E; [|done].
    by apply settle_fields in E as (? & _).
Qed.

Lemma enabled_step w o : enabled w -> enabled (step w o).
Proof.
  destruct o as [fuel this prop args|i o]; simpl.
  - apply frame_enabled, frames_invoke.
  - destruct (settle i o w) as [[r w']|] eqn:E; [|done].
    apply settle_fields in E as (Hu & Hm & _). unfold enabled.
    by rewrite Hu, Hm.
Qed.

Lemma uiw_run ops w : uiw (run ops w) = uiw w.
Proof.
  revert w. induction ops as [|o ops IH]; intros w; [done|].
  unfold run in *. simpl. by rewrite IH, uiw_step.
Qed.

Lemma enabled_run ops w : enabled w -> enabled (run ops w).
Proof.
  revert w. induction ops as [|o ops IH]; intros w Hw; [done|].
  unfold run in *. simpl. by apply IH, enabled_step.
Qed.

(** ** The constructor, branch by branch *)

Lemma player_getView_eq player w :
  player_getView player w
  = match player_view player with
    | Some view => Ok view w
    | None => Throw TypeError w
    end.
Proof. unfold player_getView, player_view. by destruct player. Qed.

Lemma constructor_disabled fuel player options w :
  let config := read (store w) options "ui" in
  truthy (read (store w) config "disable") = true ->
  constructor fuel player options w
  = match player_view player with
    | Some view =>
        match appendPlayerViewToTargetContainer
                (read (store w) config "targetId") view (marked_disabled w) with
        | Ok _ w' => Ok Proxy w'
        | Throw e w' => Throw e w'
        | Leaves x w' => Leaves x w'
        end
    | None => Throw TypeError (marked_disabled w)
    end.
Proof.
  intros config Hd.
  assert (Hc : nullish config = false)
    by (eapply read_not_nullish, truthy_not_nullish, Hd).
  assert (Ho : nullish options = false) by (eapply read_not_nullish, Hc).
  unfold constructor, bind. simpl.
  rewrite get_prop_ok by done. simpl. fold config.
  rewrite get_prop_ok by done. simpl. rewrite Hd. simpl.
  rewrite get_prop_ok by done. simpl.
  rewrite player_getView_eq. unfold marked_disabled.
  destruct (player_view player) as [view|]; [|done].
  by destruct (appendPlayerViewToTargetContainer _ _ _).
Qed.

Lemma constructor_enabled fuel player options config w :
  ui_config (store w) options config ->
  truthy (read (store w) config "disable") = false ->
  constructor fuel player options w
  = (call fuel (VMethod m_handleVr) Target [read (store w) options "plugins"];;;
     call fuel (VMethod m_handleExternalCSS) Target [config];;;
     ret Proxy) (built player config w).
Proof.
  intros (Ho & -> & Hc) Hd.
  unfold constructor, bind at 1 2 3. simpl.
  rewrite get_prop_ok by done. simpl.
  rewrite get_prop_ok by done. simpl. rewrite Hd.
  unfold bind at 1 2 3 4. simpl.
  rewrite get_prop_ok by done. simpl.
  unfold built, build_call.
  destruct (truthy (read (store w) (read (store w) options "ui") "customPreset"));
    unfold bind at 1 2 3; simpl; unfold served; simpl;
    destruct (um_call _ _ _ _) as [r st']; simpl;
    unfold bind at 1 2; simpl; rewrite get_prop_ok by done;
    rewrite <- bind_assoc; reflexivity.
Qed.

Lemma enabled_built player config w : enabled (built player config w).
Proof. by repeat split. Qed.

Lemma constructor_ok_ui_config fuel player options w r w1 :
  constructor fuel player options w = Ok r w1 ->
  ui_config (store w) options (read (store w) options "ui").
Proof.
  intros H. unfold ui_config.
  destruct (nullish options) eqn:Ho.
  { destruct options; try done; by cbv in H. }
  split; [done|]. split; [done|].
  destruct (nullish (read (store w) options "ui")) eqn:Hc; [|done].
  unfold constructor, bind in H. simpl in H.
  rewrite get_prop_ok in H by done. simpl in H.
  destruct (read (store w) options "ui"); done.
Qed.

Lemma wrapper_at_enabled w : wrapper_at false w -> enabled w.
Proof.
  intros (fuel & player & options & w0 & w1 & ops & Hc & Hd & ->).
  apply enabled_run.
  pose proof (constructor_ok_ui_config _ _ _ _ _ _ Hc) as Hu.
  rewrite (constructor_enabled _ _ _ _ _ Hu Hd) in Hc.
  eapply frame_enabled; [|apply (enabled_built player (read (store w0) options "ui") w0)].
  change w1 with (world_of (Ok Proxy w1)). rewrite <- Hc.
  apply frames_bind; [apply frames_call|]. intros _.
  apply frames_bind; [apply frames_call|]. intros _. apply frames_ret.
Qed.

Lemma wrapper_at_disabled w : wrapper_at true w -> _disabled (uiw w) = true.
Proof.
  intros (fuel & player & options & w0 & w1 & ops & Hc & Hd & ->).
  rewrite uiw_run. rewrite constructor_disabled in Hc by done.
  destruct (player_view player) as [view|]; [|done].
  unfold appendPlayerViewToTargetContainer in Hc.
  destruct (getElementById _ _); by injection Hc as <-.
Qed.

(** ** C1 *)

(** C1 (as amended).  On a wrapper constructed with [options.ui.disable]
    truthy, at any later time, reading any property through the Proxy yields
    the function [() => undefined] (not [undefined]) and changes nothing;
    calling any property, with any arguments, returns [undefined] and leaves
    the whole world as it was: no call reaches the UI manager, the instance
    and the manager are unchanged. *)
Theorem disabled_wrapper_is_inert w :
  wrapper_at true w ->
  forall prop,
    get Proxy prop w = Ok VNoop w
    /\ forall n args, invoke (S n) Proxy prop args w = Ok VUndef w.
Proof.
  intros Hw prop. apply wrapper_at_disabled in Hw. split.
  - by apply get_Proxy_disabled.
  - intros n args. by apply invoke_disabled.
Qed.

(** ** C4 *)

(** C4.  On a wrapper constructed with [ui.disable] falsy, at any later time,
    [setConfig], [addComponent], [registerManager], [getManager] and
    [hasManager] called on the Proxy make exactly one call, of the UI
    manager's method of the same name with the same arguments, and
    [addComponent], [getManager] and [hasManager] return what the manager
    answered. *)
Theorem configuration_calls_are_forwarded w :
  wrapper_at false w ->
  exists st, manager w = Some st /\
  forall n args,
    let a0 := arg 0 args in
    let a1 := arg 1 args in
    invoke (S n) Proxy "setConfig" args w
    = Ok VUndef (served um_setConfig [a0; a1] st w)
    /\ invoke (S n) Proxy "addComponent" args w
       = Ok (answer um_addComponent [a0] st w) (served um_addComponent [a0] st w)
    /\ invoke (S n) Proxy "registerManager" args w
       = Ok VUndef (served um_registerManager [a0; a1] st w)
    /\ invoke (S n) Proxy "getManager" args w
       = Ok (answer um_getManager [a0] st w) (served um_getManager [a0] st w)
    /\ invoke (S n) Proxy "hasManager" args w
       = Ok (answer um_hasManager [a0] st w) (served um_hasManager [a0] st w).
Proof.
  intros Hw. apply wrapper_at_enabled in Hw.
  destruct Hw as (Hd & Hm & [st Hs]). exists st. split; [done|].
  assert (He : enabled w) by (repeat split; eauto).
  intros n args a0 a1.
  repeat split; unfold invoke, bind; rewrite get_Proxy_enabled by done; simpl;
    cbv [setConfig addComponent registerManager getManager hasManager bind];
    rewrite get_uiManager by done;
    by rewrite (um_invoke_manager _ _ st).
Qed.

(** ** C7 *)

(** C7.  The constructor leaves [_disabled] equal to the boolean value of
    [options.ui.disable] (to [disable] itself when that is a boolean) and
    [_uiManager] unset or set to the manager accordingly; after that, no
    history of calls (public or private methods, on the Proxy or on the bare
    instance, returning or throwing) and settled promises changes either
    field. *)
Theorem fields_are_fixed_at_construction fuel player options w0 w1 :
  constructor fuel player options w0 = Ok Proxy w1 ->
  let disable := read (store w0) (read (store w0) options "ui") "disable" in
  _disabled (uiw w1) = truthy disable
  /\ (forall b, disable = VBool b -> _disabled (uiw w1) = b)
  /\ _uiManager (uiw w1) = (if truthy disable then VUndef else VManager)
  /\ forall ops, uiw (run ops w1) = uiw w1.
Proof.
  intros Hc disable.
  assert (H1 : _disabled (uiw w1) = truthy disable
               /\ _uiManager (uiw w1) = if truthy disable then VUndef else VManager).
  { destruct (truthy disable) eqn:Hd.
    - rewrite constructor_disabled in Hc by done.
      destruct (player_view player) as [view|]; [|done].
      unfold appendPlayerViewToTargetContainer in Hc.
      destruct (getElementById _ _); by injection Hc as <-.
    - assert (Hw : wrapper_at false w1).
      { exists fuel, player, options, w0, w1, []. done. }
      apply wrapper_at_enabled in Hw as (? & ? & _). done. }
  destruct H1 as [H1 H2]. split; [done|]. split.
  - intros b Hb. rewrite H1, Hb. done.
  - split; [done|]. intros ops. apply uiw_run.
Qed.

(** ** C9 *)

(** C9 (as amended).  A constructor call with [ui.disable] truthy and a
    player that has a view (it is neither [undefined] nor [null], and
    [getView()] returns) does not throw.  When the document has an element
    with id [config.targetId] the player view is appended to it, once; when it
    has none the document is left as it was and nothing is appended.  With a
    player that has no view the constructor throws a [TypeError] at
    [player.getView()], after it has marked the instance disabled and before
    it looks at the document. *)
Theorem disabled_constructor_appends_view fuel player options w :
  let config := read (store w) options "ui" in
  truthy (read (store w) config "disable") = true ->
  constructor fuel player options w
  = match player_view player with
    | Some view =>
        Ok Proxy
          match getElementById (document w) (read (store w) config "targetId") with
          | Some container =>
              with_trace (trace w ++ [EAppendChild container view])
                (with_document (appendChild container view (document w))
                   (marked_disabled w))
          | None => marked_disabled w
          end
    | None => Throw TypeError (marked_disabled w)
    end.
Proof.
  intros config Hd. rewrite constructor_disabled by done. fold config.
  destruct (player_view player) as [view|]; [|done].
  unfold appendPlayerViewToTargetContainer. simpl.
  by destruct (getElementById _ _).
Qed.

(** ** C10 *)

Lemma new_object_eq ps w :
  new_object ps w
  = Ok (VLoc (length (store w))) (with_store (store w ++ [Cell Plain ps]) w).
Proof. done. Qed.

Lemma setConfig_literal n ps alias st w :
  enabled w -> manager w = Some st ->
  (config <- new_object ps;; invoke (S n) Proxy "setConfig" [config; alias]) w
  = Ok VUndef
      (served um_setConfig [VLoc (length (store w)); alias] st
         (with_store (store w ++ [Cell Plain ps]) w)).
Proof.
  intros He Hs. unfold bind at 1. rewrite new_object_eq.
  unfold invoke, bind.
  rewrite get_Proxy_enabled by apply He. simpl.
  apply setConfig_enabled; [by apply enabled_with_store|done].
Qed.

(** C10.  On an enabled wrapper, [reset()] does what
    [setConfig({hasError: false}, 'engine')] does and
    [setLoadingSpinnerState(show)] does what [setConfig({show: show}, 'loading')]
    does: the object literal is allocated, the UI manager's [setConfig] is
    called once with it and the alias, and nothing else happens. *)
Theorem reset_and_spinner_are_setConfig w :
  wrapper_at false w ->
  exists st, manager w = Some st /\
  forall n args,
    invoke (3 + n) Proxy "reset" args w
    = (config <- new_object [("hasError", VBool false)];;
       invoke (1 + n) Proxy "setConfig" [config; VStr "engine"]) w
    /\ invoke (3 + n) Proxy "reset" args w
       = Ok VUndef
           (served um_setConfig [VLoc (length (store w)); VStr "engine"] st
              (with_store (store w ++ [Cell Plain [("hasError", VBool false)]]) w))
    /\ invoke (2 + n) Proxy "setLoadingSpinnerState" args w
       = (config <- new_object [("show", arg 0 args)];;
          invoke (1 + n) Proxy "setConfig" [config; VStr "loading"]) w
    /\ invoke (2 + n) Proxy "setLoadingSpinnerState" args w
       = Ok VUndef
           (served um_setConfig [VLoc (length (store w)); VStr "loading"] st
              (with_store (store w ++ [Cell Plain [("show", arg 0 args)]]) w)).
Proof.
  intros Hw. apply wrapper_at_enabled in Hw.
  pose proof Hw as (Hd & Hm & [st Hs]). exists st. split; [done|].
  intros n args.
  assert (R : invoke (3 + n) Proxy "reset" args w
              = Ok VUndef
                  (served um_setConfig [VLoc (length (store w)); VStr "engine"] st
                     (with_store (store w ++ [Cell Plain [("hasError", VBool false)]]) w))).
  { unfold invoke, bind. rewrite get_Proxy_enabled by done. simpl.
    unfold reset, bind. rewrite get_Proxy_enabled by done. simpl.
    unfold _resetErrorState, bind. rewrite get_Proxy_enabled by done. simpl.
    rewrite setConfig_enabled with (st := st);
      [done|by apply enabled_with_store|done]. }
  assert (L : invoke (2 + n) Proxy "setLoadingSpinnerState" args w
              = Ok VUndef
                  (served um_setConfig [VLoc (length (store w)); VStr "loading"] st
                     (with_store (store w ++ [Cell Plain [("show", arg 0 args)]]) w))).
  { unfold invoke, bind. rewrite get_Proxy_enabled by done. simpl.
    unfold setLoadingSpinnerState, bind. rewrite get_Proxy_enabled by done. simpl.
    rewrite setConfig_enabled with (st := st);
      [done|by apply enabled_with_store|done]. }
  split; [|split; [done|split; [|done]]].
  - rewrite R. symmetry. by apply setConfig_literal.
  - rewrite L. symmetry. by apply setConfig_literal.
Qed.

(** ** C5 *)

(** C5.  A constructor call with [ui.disable] falsy constructs the UI manager
    and, as the first thing after that, calls [buildCustomUI(config.customPreset)]
    when [config.customPreset] is truthy and [buildDefaultUI()] otherwise.
    Whatever follows in the constructor (whether it returns or throws) calls
    neither builder again and appends nothing to the document, which stays as
    it was. *)
Theorem ui_construction_is_delegated fuel player options config w :
  ui_config (store w) options config ->
  truthy (read (store w) config "disable") = false ->
  let w1 := world_of (constructor fuel player options w) in
  let customPreset := read (store w) config "customPreset" in
  exists evs,
    trace w1
    = trace w
      ++ [ENewUIManager player config;
          if truthy customPreset then EUIManager um_buildCustomUI [customPreset]
          else EUIManager um_buildDefaultUI []]
      ++ evs
    /\ forallb method_event evs = true
    /\ document w1 = document w.
Proof.
  intros Hu Hd w1 customPreset. subst w1.
  rewrite (constructor_enabled _ _ _ _ _ Hu Hd).
  assert (F : frames
                (call fuel (VMethod m_handleVr) Target [read (store w) options "plugins"];;;
                 call fuel (VMethod m_handleExternalCSS) Target [config];;;
                 ret Proxy)).
  { apply frames_bind; [apply frames_call|]. intros _.
    apply frames_bind; [apply frames_call|]. intros _. apply frames_ret. }
  destruct (F (built player config w)) as (_ & Hdoc & _ & evs & Ht & He).
  exists evs. split; [|split; [done|]].
  - rewrite Ht. unfold built, build_call. fold customPreset.
    destruct (truthy customPreset); simpl; by rewrite <- !app_assoc.
  - rewrite Hdoc. unfold built, build_call.
    by destruct (truthy _).
Qed.

(** ** C6 *)

(** C6 (as amended).  The two module-level helpers merge no configuration.
    [appendPlayerViewToTargetContainer] has a DOM effect: it appends the view
    to the target element when the document has it and does nothing
    otherwise; the store, the instance and the UI manager are left alone.
    [getPreviewThumbnailConfig] allocates a new object holding exactly the
    three computed defaults, whatever the seekbar configuration holds, and
    has no other effect. *)
Theorem helpers_do_not_merge targetId view mediaConfig seekbarConfig w :
  (let w' := world_of (appendPlayerViewToTargetContainer targetId view w) in
   store w' = store w /\ uiw w' = uiw w /\ manager w' = manager w
   /\ match getElementById (document w) targetId with
      | Some container =>
          document w' = appendChild container view (document w)
          /\ trace w' = trace w ++ [EAppendChild container view]
      | None => w' = w
      end)
  /\ getPreviewThumbnailConfig mediaConfig seekbarConfig w
     = Ok (VLoc (length (store w)))
         (with_store
            (store w
             ++ [Cell Plain
                   [("thumbsSprite",
                     VStr (getThumbSlicesUrl (store w) mediaConfig seekbarConfig));
                    ("thumbsWidth", VNum DEFAULT_THUMBS_WIDTH);
                    ("thumbsSlices", VNum DEFAULT_THUMBS_SLICES)]]) w).
Proof.
  split; [|done].
  unfold appendPlayerViewToTargetContainer.
  by destruct (getElementById (document w) targetId).
Qed.

(** ** Property lists *)

Lemma own_prop_assign_same k v ps : own_prop k (assign_prop k v ps) = Some v.
Proof.
  induction ps as [|[k' v'] ps IH]; simpl.
  - by rewrite String.eqb_refl.
  - destruct (k' =? k) eqn:E; simpl.
    + by rewrite String.eqb_refl.
    + by rewrite E.
Qed.

Lemma own_prop_assign_other k k' v ps :
  k' <> k -> own_prop k' (assign_prop k v ps) = own_prop k' ps.
Proof.
  intros Hne. induction ps as [|[k1 v1] ps IH]; simpl.
  - apply String.eqb_neq in Hne. by rewrite String.eqb_sym, Hne.
  - destruct (k1 =? k) eqn:E; simpl.
    + apply String.eqb_eq in E as ->.
      assert ((k =? k') = false) as -> by (apply String.eqb_neq; congruence).
      done.
    + by rewrite IH.
Qed.

Lemma elem_of_assign_prop kv k v ps :
  kv ∈ assign_prop k v ps -> kv = (k, v) \/ kv ∈ ps.
Proof.
  induction ps as [|[k1 v1] ps IH]; simpl.
  - rewrite elem_of_cons. intros [->|H]; [by left|by right].
  - destruct (k1 =? k).
    + rewrite !elem_of_cons. intros [->|H]; [by left|by right; right].
    + rewrite !elem_of_cons. intros [->|H]; [by right; left|].
      destruct (IH H); [by left|by right; right].
Qed.

Lemma own_prop_elem_of k v ps : own_prop k ps = Some v -> (k, v) ∈ ps.
Proof.
  induction ps as [|[k1 v1] ps IH]; simpl; [done|].
  destruct (k1 =? k) eqn:E.
  - apply String.eqb_eq in E as ->. intros [= ->]. apply elem_of_cons. by left.
  - intros H. apply elem_of_cons. right. by apply IH.
Qed.

Lemma own_prop_not_key k ps : k ∉ ps.*1 -> own_prop k ps = None.
Proof.
  induction ps as [|[k1 v1] ps IH]; simpl; [done|].
  rewrite not_elem_of_cons. intros [Hne Hn].
  assert ((k1 =? k) = false) as -> by (apply String.eqb_neq; congruence).
  by apply IH.
Qed.

(** ** The store under [write] and [alloc] *)

Lemma isObject_lookup h l :
  isObject h (VLoc l) = true <-> exists ps, h !! l = Some (Cell Plain ps).
Proof.
  simpl. destruct (h !! l) as [[[] ps]|]; split; try done; eauto.
  - by intros [? ?].
  - by intros [? ?].
Qed.

Lemma isObject_not_host h v : isObject h v = true -> is_host v = false.
Proof. by destruct v. Qed.

Lemma length_write h o k v : length (write h o k v) = length h.
Proof.
  destruct o; try done. simpl. destruct (h !! l); [|done].
  apply length_insert.
Qed.

Lemma lookup_write_ne h o k v l :
  o <> VLoc l -> write h o k v !! l = h !! l.
Proof.
  intros Hne. destruct o as [| | | | |t| | | | | |]; try done. simpl.
  destruct (h !! t); [|done].
  apply list_lookup_insert_ne. congruence.
Qed.

Lemma lookup_write_same h t k v c :
  h !! t = Some c ->
  write h (VLoc t) k v !! t = Some (Cell (kind_of c) (assign_prop k v (props c))).
Proof.
  intros H. simpl. rewrite H. apply list_lookup_insert_eq.
  by eapply lookup_lt_Some.
Qed.

Lemma isObject_write h o k v x : isObject (write h o k v) x = isObject h x.
Proof.
  destruct x as [| | | | |l| | | | | |]; try done.
  destruct (decide (o = VLoc l)) as [->|Hne].
  - unfold isObject, write. destruct (h !! l) as [c|] eqn:E; [|by rewrite E].
    rewrite list_lookup_insert_eq by (by eapply lookup_lt_Some).
    by destruct c as [[] ?].
  - unfold isObject. by rewrite lookup_write_ne.
Qed.

Lemma read_write_same h t k v :
  t < length h -> read (write h (VLoc t) k v) (VLoc t) k = v.
Proof.
  intros Hlt. destruct (lookup_lt_is_Some_2 h t Hlt) as [c Hc].
  unfold read. rewrite (lookup_write_same _ _ _ _ c) by done.
  destruct c as [[] ps]; simpl; by rewrite own_prop_assign_same.
Qed.

Lemma read_write_other_key h t k k' v :
  k' <> k -> read (write h (VLoc t) k v) (VLoc t) k' = read h (VLoc t) k'.
Proof.
  intros Hne. unfold read.
  destruct (h !! t) as [c|] eqn:Hc.
  - rewrite (lookup_write_same _ _ _ _ c) by done.
    destruct c as [[] ps]; simpl; by rewrite own_prop_assign_other.
  - unfold write. by rewrite !Hc.
Qed.

Lemma read_agree h h' o k :
  (forall l, o = VLoc l -> h' !! l = h !! l) -> read h' o k = read h o k.
Proof.
  intros H. destruct o; try done. simpl. by rewrite H.
Qed.

Lemma isObject_agree h h' o :
  (forall l, o = VLoc l -> h' !! l = h !! l) -> isObject h' o = isObject h o.
Proof.
  intros H. destruct o; try done. simpl. by rewrite H.
Qed.

Lemma own_keys_agree h h' o :
  (forall l, o = VLoc l -> h' !! l = h !! l) -> own_keys h' o = own_keys h o.
Proof.
  intros H. destruct o; try done. simpl. by rewrite H.
Qed.

Lemma validb_mono h h' v :
  length h <= length h' -> validb h v = true -> validb h' v = true.
Proof.
  intros Hle. destruct v; try done. simpl.
  rewrite !bool_decide_eq_true. lia.
Qed.

Lemma validb_VLoc h l : validb h (VLoc l) = true <-> l < length h.
Proof. simpl. apply bool_decide_eq_true. Qed.

Lemma closedb_closed h : closedb h = true -> closed h.
Proof.
  unfold closedb. rewrite forallb_forall. intros H l c kv Hl Hkv.
  apply list_elem_of_lookup_2, list_elem_of_In in Hl.
  specialize (H c Hl). rewrite forallb_forall in H.
  apply H. by apply list_elem_of_In.
Qed.

Lemma inherited_valid h proto k :
  validb h proto = true -> validb h (inherited proto k) = true.
Proof.
  intros Hp. unfold inherited.
  destruct (k =? "__proto__"); [done|].
  destruct (k =? "constructor"); [done|]. by case_bool_decide.
Qed.

Lemma read_valid h o k : closed h -> validb h (read h o k) = true.
Proof.
  intros Hc. destruct o as [| | | | |l| | | | | |]; try done; simpl.
  - destruct (h !! l) as [[[] ps]|] eqn:E; [| |done];
      (destruct (own_prop k ps) as [v|] eqn:E'; simpl;
       [apply own_prop_elem_of in E'; apply (Hc l _ (k, v) E E')|]);
      [by apply inherited_valid|done].
  - destruct (k =? "name"); done.
  - destruct (k =? "name"); done.
  - by apply inherited_valid.
  - destruct (k =? "name"); done.
Qed.

Lemma validb_write h o k v x : validb (write h o k v) x = validb h x.
Proof. destruct x; try done. simpl. by rewrite length_write. Qed.

(** What [Object.prototype] hands down is no object to merge into, except
    under [__proto__]. *)
Lemma inherited_no_object h k :
  k <> "__proto__" ->
  isObject h (inherited VObjectPrototype k) = false
  /\ is_host (inherited VObjectPrototype k) = false.
Proof.
  intros Hk. unfold inherited.
  apply String.eqb_neq in Hk. rewrite Hk.
  destruct (k =? "constructor"); [done|]. by case_bool_decide.
Qed.

(** ** Stores that only grow *)

Lemma extends_refl h : extends h h.
Proof. by split. Qed.

Lemma extends_trans h1 h2 h3 : extends h1 h2 -> extends h2 h3 -> extends h1 h3.
Proof.
  intros [Hl Ha] [Hl' Ha']. split; [lia|].
  intros l Hlt. rewrite Ha' by lia. by apply Ha.
Qed.

Lemma extends_app h cells : extends h (h ++ cells).
Proof.
  split; [rewrite length_app; lia|]. intros l Hl. by apply lookup_app_l.
Qed.

(** ** Data objects *)

Lemma data_objects_lookup h l c :
  data_objects h = true -> h !! l = Some c -> data_object c = true.
Proof.
  unfold data_objects. rewrite forallb_forall. intros H Hl.
  apply H. by apply list_elem_of_In, list_elem_of_lookup_2 with l.
Qed.

Lemma data_object_plain ps :
  data_object (Cell Plain ps) = true ->
  NoDup ps.*1 /\ ("__proto__" ∉ ps.*1)
  /\ is_host (default VUndef (own_prop "constructor" ps)) = false.
Proof.
  unfold data_object. cbn [kind_of props].
  rewrite !andb_true_iff, !bool_decide_eq_true, negb_true_iff.
  by intros [[? ?] ?].
Qed.

Lemma data_objects_app h c :
  data_objects h = true -> data_object c = true ->
  data_objects (h ++ [c]) = true.
Proof.
  intros Hh Hc. unfold data_objects in *. rewrite forallb_app, Hh. simpl.
  by rewrite Hc.
Qed.

Lemma isClassInstance_agree h h' v :
  closed h -> validb h v = true ->
  (forall l, l < length h -> h' !! l = h !! l) ->
  isClassInstance h' v = isClassInstance h v.
Proof.
  intros Hc Hv Hold. unfold isClassInstance.
  assert (Hr : forall o k, validb h o = true -> read h' o k = read h o k).
  { intros o k Ho. apply read_agree. intros l ->. apply Hold.
    by apply validb_VLoc. }
  rewrite (Hr v) by done.
  rewrite (Hr (read h v "constructor")) by (by apply read_valid).
  done.
Qed.

(** On a store of data objects [isClassInstance] decides every object. *)
Lemma isClassInstance_data h v :
  data_objects h = true -> isObject h v = true ->
  exists b, isClassInstance h v = Some b.
Proof.
  intros Hd Ho. unfold isClassInstance.
  destruct (truthy (read h v "constructor")) eqn:Ht; [|by eexists].
  assert (is_host (read h v "constructor") = false) as ->; [|by eexists].
  destruct v as [| | | | |l| | | | | |]; try done.
  apply isObject_lookup in Ho as [ps Hps].
  pose proof (data_objects_lookup _ _ _ Hd Hps) as Hc.
  apply data_object_plain in Hc as (_ & _ & Hh).
  unfold read. rewrite Hps.
  by destruct (own_prop "constructor" ps).
Qed.

Lemma by_value_isObject h v : by_value h v = true -> isObject h v = true.
Proof. unfold by_value. by intros [? _]%andb_true_iff. Qed.

Lemma not_by_value h v b :
  isClassInstance h v = Some b -> by_value h v = isObject h v && negb b.
Proof.
  intros H. unfold by_value. rewrite H.
  destruct b; cbn [negb]; case_bool_decide; try done;
    by rewrite ?andb_false_r, ?andb_true_r.
Qed.

(** ** Nesting depth *)

Lemma depth_leb_read d h v k :
  isObject h v = true -> depth_leb (S d) h v = true ->
  by_value h (read h v k) = true -> depth_leb d h (read h v k) = true.
Proof.
  intros Ho Hd Hb.
  destruct v as [| | | | |l| | | | | |]; try done.
  - apply isObject_lookup in Ho as [ps Hps].
    simpl in Hd. unfold read in *. rewrite Hps in *.
    rewrite forallb_forall in Hd.
    destruct (own_prop k ps) as [x|] eqn:Ex; simpl in *.
    + apply own_prop_elem_of, list_elem_of_In in Ex.
      specialize (Hd _ Ex). simpl in Hd. by rewrite Hb in Hd.
    + unfold inherited in *.
      destruct (k =? "__proto__"); [by destruct d|].
      destruct (k =? "constructor"); [by apply by_value_isObject in Hb|].
      case_bool_decide; by apply by_value_isObject in Hb.
  - simpl in Hb. unfold inherited in Hb.
    destruct (k =? "__proto__"); [by apply by_value_isObject in Hb|].
    destruct (k =? "constructor"); [by apply by_value_isObject in Hb|].
    case_bool_decide; by apply by_value_isObject in Hb.
Qed.

Lemma depth_leb_mono d : forall d' h v,
  d <= d' -> depth_leb d h v = true -> depth_leb d' h v = true.
Proof.
  induction d as [|d IH]; intros d' h v Hle.
  - destruct v as [| | | | |l| | | | | |]; try by destruct d'.
    destruct d'; simpl; destruct (h !! l) as [[[] ?]|]; done.
  - destruct d' as [|d']; [lia|].
    destruct v as [| | | | |l| | | | | |]; try done. simpl.
    destruct (h !! l) as [[[] ps]|]; try done.
    rewrite !forallb_forall. intros H x Hx.
    specialize (H x Hx). apply orb_true_iff in H as [H|H].
    + by rewrite H.
    + rewrite (IH d' h x.2) by (try done; lia). by rewrite orb_true_r.
Qed.

(** ** The frame of [mergeDeep] *)

Lemma Object_assign_own h t key v :
  key <> "__proto__" ->
  Object_assign h (VLoc t) key v = Done (write h (VLoc t) key v).
Proof.
  intros Hk. unfold Object_assign. apply String.eqb_neq in Hk. by rewrite Hk.
Qed.

Section MergeFrame.
Variable h0 : heap.
Hypothesis h0_closed : closed h0.
Hypothesis h0_data : data_objects h0 = true.

Lemma read_old h o k :
  merge_inv h0 h -> validb h0 o = true -> read h o k = read h0 o k.
Proof.
  intros Hi Hv. apply read_agree. intros l ->.
  apply (inv_old _ _ Hi). by apply validb_VLoc.
Qed.

Lemma isObject_old h o :
  merge_inv h0 h -> validb h0 o = true -> isObject h o = isObject h0 o.
Proof.
  intros Hi Hv. apply isObject_agree. intros l ->.
  apply (inv_old _ _ Hi). by apply validb_VLoc.
Qed.

Lemma own_keys_old h o :
  merge_inv h0 h -> validb h0 o = true -> own_keys h o = own_keys h0 o.
Proof.
  intros Hi Hv. apply own_keys_agree. intros l ->.
  apply (inv_old _ _ Hi). by apply validb_VLoc.
Qed.

Lemma isClassInstance_old h v :
  merge_inv h0 h -> validb h0 v = true ->
  isClassInstance h v = isClassInstance h0 v.
Proof.
  intros Hi Hv. apply isClassInstance_agree; try done. apply Hi.
Qed.

Lemma merge_inv_refl : merge_inv h0 h0.
Proof. by split. Qed.

Lemma merge_inv_write h t k v :
  merge_inv h0 h -> length h0 <= t -> validb h v = true ->
  merge_inv h0 (write h (VLoc t) k v).
Proof.
  intros Hi Ht Hv.
  destruct (h !! t) as [c0|] eqn:E0; [|by unfold write; rewrite E0].
  split.
  - rewrite length_write. apply Hi.
  - intros l Hl. rewrite lookup_write_ne by (intros [= ?]; lia). by apply Hi.
  - intros l c kv Hl Hkv. rewrite validb_write.
    destruct (decide (l = t)) as [->|Hne].
    + rewrite (lookup_write_same _ _ _ _ c0) in Hl by done.
      injection Hl as <-. simpl in Hkv.
      apply elem_of_assign_prop in Hkv as [->|Hkv]; [done|].
      by apply (inv_closed _ _ Hi t c0).
    + rewrite lookup_write_ne in Hl by congruence.
      by apply (inv_closed _ _ Hi l c).
Qed.

Lemma merge_inv_alloc h : merge_inv h0 h -> merge_inv h0 (h ++ [Cell Plain []]).
Proof.
  intros Hi. split.
  - rewrite length_app. pose proof (inv_length _ _ Hi). lia.
  - intros l Hl. pose proof (inv_length _ _ Hi).
    rewrite lookup_app_l by lia. by apply Hi.
  - intros l c kv Hl Hkv.
    apply lookup_snoc_Some in Hl as [[Hlt Hl]|[-> <-]].
    + eapply validb_mono; [|by apply (inv_closed _ _ Hi l c)].
      rewrite length_app. lia.
    + by apply elem_of_nil in Hkv.
Qed.

Lemma merged_into_refl h tv : merge_inv h0 h -> merged_into h0 h h tv.
Proof. intros Hi. unfold merged_into. by split_and!. Qed.

(** The keys of an object of [h0] are distinct, and none is [__proto__]. *)
Lemma own_keys_data s :
  isObject h0 s = true ->
  NoDup (own_keys h0 s) /\ "__proto__" ∉ own_keys h0 s.
Proof.
  intros Ho. destruct s as [| | | | |l| | | | | |]; try done.
  - apply isObject_lookup in Ho as [ps Hps].
    pose proof (data_objects_lookup _ _ _ h0_data Hps) as Hc.
    apply data_object_plain in Hc as (Hn & Hp & _).
    simpl. by rewrite Hps.
  - simpl. split; [constructor|]. apply not_elem_of_nil.
Qed.

Lemma copied_isObject h' lo tv sv :
  copied h0 h' lo tv sv -> isObject h' tv = true.
Proof. by intros []. Qed.

(** A copy stays one while the objects it is made of stay as they are. *)
Lemma copied_frame hA hB lo tv sv :
  copied h0 hA lo tv sv ->
  (forall l, lo <= l -> l < length hA -> hB !! l = hA !! l) ->
  copied h0 hB lo tv sv.
Proof.
  intros Hc. induction Hc as [lo t sv Hlo Ho Hout Hval Hinh Hsub IH].
  intros Hsame.
  assert (Hlt : t < length hA).
  { apply isObject_lookup in Ho as [ps Hps]. by eapply lookup_lt_Some. }
  assert (Hr : forall k, read hB (VLoc t) k = read hA (VLoc t) k).
  { intros k. apply read_agree. intros l [= <-]. by apply Hsame. }
  constructor; try done.
  - rewrite <- Ho. apply isObject_agree. intros l [= <-]. by apply Hsame.
  - intros k Hk. by rewrite Hr, Hout.
  - intros k Hk Hb. by rewrite Hr, Hval.
  - intros k Hk Hb Ht. by rewrite Hr, Hinh.
  - intros k Hk Hb Ht. rewrite Hr. apply IH; try done.
    intros l Hl. apply Hsame. lia.
Qed.

Section Step.
Variable N : nat.
Variable rec : value -> value -> heap -> completion.
Hypothesis rec_spec : rec_ok h0 N rec.

Lemma merge_key_frame t s key h :
  merge_inv h0 h -> length h0 <= t -> isObject h (VLoc t) = true ->
  validb h0 s = true -> key <> "__proto__" ->
  target_free h0 h t s [key] ->
  match merge_key rec (VLoc t) s h key with
  | Done h' => merged_frame h0 h h' t [key] /\ merged_values h0 h h' t s [key]
  | Raised e h' => e = RangeError /\ merged_frame h0 h h' t [key]
  | Exits _ _ => False
  end
  /\ forall d,
       (by_value h0 (read h0 s key) = true ->
        depth_leb d h0 (read h0 s key) = true) ->
       d + 2 <= N ->
       exists h', merge_key rec (VLoc t) s h key = Done h'.
Proof.
  intros Hi Ht Hobj Hsrc Hkey Hfree. unfold merge_key.
  pose proof (read_valid h0 s key h0_closed) as Hsv.
  assert (Hlt : t < length h).
  { apply isObject_lookup in Hobj as [ps Hps]. by eapply lookup_lt_Some. }
  rewrite (read_old h s key) by done.
  set (sv := read h0 s key) in *.
  rewrite (isObject_old h sv), (isClassInstance_old h sv) by done.
  (* the assignment of [sv] itself *)
  assert (Hassign :
    by_value h0 sv = false ->
    merged_frame h0 h (write h (VLoc t) key sv) t [key]
    /\ merged_values h0 h (write h (VLoc t) key sv) t s [key]).
  { intros Hnb.
    assert (Hv : validb h sv = true)
      by (eapply validb_mono; [apply Hi|done]).
    split.
    - split_and!.
      + by apply merge_inv_write.
      + by rewrite length_write.
      + by rewrite isObject_write.
      + intros l Hl Hne. apply lookup_write_ne. congruence.
      + intros k Hk. apply read_write_other_key.
        intros ->. apply Hk, list_elem_of_singleton. done.
    - intros k Hk. apply list_elem_of_singleton in Hk as ->. cbv zeta.
      fold sv. rewrite Hnb. by apply read_write_same. }
  destruct (isObject h0 sv) eqn:Hso.
  - destruct (isClassInstance_data h0 sv h0_data Hso) as [b Hb].
    rewrite Hb. pose proof (not_by_value h0 sv b Hb) as Hbv.
    rewrite Hso in Hbv. cbn [andb] in Hbv.
    destruct b; cbn [negb] in Hbv.
    + rewrite Object_assign_own by done. split; [by apply Hassign|].
      intros d _ _. by eexists.
    + specialize (Hfree key (proj2 (list_elem_of_singleton _ _) eq_refl)).
      fold sv in Hfree. specialize (Hfree Hbv). cbv zeta in Hfree.
      destruct (truthy (read h (VLoc t) key)) eqn:Htr.
      * destruct (Hfree eq_refl) as [Hno Hnh].
        destruct (rec_spec (read h (VLoc t) key) sv h Hi Hsv Hbv)
          as (Hr & Hterm & _); [by left|].
        split.
        -- destruct (rec (read h (VLoc t) key) sv h) as [h'|e h'|x h'];
             [|destruct Hr as [-> Hr]|done];
             destruct Hr as (Hi' & Hl' & _ & _ & Hsame);
             rewrite (Hsame Hno) in *;
             (split; [|try (intros k Hk; apply list_elem_of_singleton in Hk as ->;
                            cbv zeta; fold sv; by rewrite Hbv, Htr)]);
             try done; by split_and!.
        -- intros d Hd HN. apply (Hterm d); [by apply Hd|done].
      * set (ha := h ++ [Cell Plain []]).
        set (h1 := write ha (VLoc t) key (VLoc (length h))).
        cbn [alloc]. fold ha.
        rewrite Object_assign_own by done. fold h1.
        assert (Hla : length ha = S (length h))
          by (unfold ha; rewrite length_app; simpl; lia).
        assert (Hia : merge_inv h0 ha) by by apply merge_inv_alloc.
        assert (Hi1 : merge_inv h0 h1).
        { apply merge_inv_write; try done. apply validb_VLoc. lia. }
        assert (Hl1 : length h1 = S (length h))
          by (unfold h1; by rewrite length_write).
        assert (Hr1 : read h1 (VLoc t) key = VLoc (length h))
          by (apply read_write_same; lia).
        assert (Hn1 : h1 !! length h = Some (Cell Plain [])).
        { unfold h1. rewrite lookup_write_ne by (intros [= ?]; lia).
          unfold ha. by apply list_lookup_middle. }
        assert (Hat : forall l, l < length h -> l <> t -> h1 !! l = h !! l).
        { intros l Hl Hne. unfold h1.
          rewrite lookup_write_ne by congruence.
          unfold ha. by rewrite lookup_app_l. }
        rewrite Hr1, (read_old h1 s key) by done. fold sv.
        destruct (rec_spec (VLoc (length h)) sv h1 Hi1 Hsv Hbv)
          as (Hr & Hterm & Hcopy).
        { right. exists (length h). split; [done|]. split; [|done].
          pose proof (inv_length _ _ Hi). lia. }
        specialize (Hcopy (length h)).
        split; [|intros d Hd HN; apply (Hterm d); [by apply Hd|done]].
        assert (Hpost : forall h',
                  merged_into h0 h1 h' (VLoc (length h)) ->
                  merged_frame h0 h h' t [key]
                  /\ (copied h0 h' (length h) (VLoc (length h)) sv ->
                      merged_values h0 h h' t s [key])).
        { intros h' (Hi' & Hl' & Hsame & Hkind & _).
          assert (Htc : h' !! t = h1 !! t).
          { apply Hsame; [lia|]. intros [= ?]. lia. }
          split.
          - split_and!; try done.
            + lia.
            + rewrite (isObject_agree h1 h') by (by intros l [= <-]).
              unfold h1. rewrite isObject_write. rewrite <- Hobj.
              apply isObject_agree. intros l [= <-]. unfold ha.
              by rewrite lookup_app_l.
            + intros l Hl Hne. rewrite Hsame by (try lia; intros [= ?]; lia).
              by apply Hat.
            + intros k Hk.
              rewrite (read_agree h1 h') by (by intros l [= <-]).
              unfold h1. rewrite read_write_other_key
                by (intros ->; apply Hk, list_elem_of_singleton; done).
              apply read_agree. intros l [= <-]. unfold ha.
              by rewrite lookup_app_l.
          - intros Hcp k Hk. apply list_elem_of_singleton in Hk as ->. cbv zeta.
            fold sv. rewrite Hbv, Htr. exists (length h).
            split; [|split; done].
            rewrite (read_agree h1 h') by (by intros l [= <-]). done. }
        destruct (rec (VLoc (length h)) sv h1) as [h'|e h'|x h'];
          [|destruct Hr as [-> Hr]|done].
        -- destruct (Hpost h' Hr) as [Hf Hv]. split; [done|].
           apply Hv. by apply Hcopy.
        -- split; [done|]. by apply Hpost.
  - rewrite Object_assign_own by done.
    assert (Hnb : by_value h0 sv = false) by (unfold by_value; by rewrite Hso).
    split; [by apply Hassign|]. intros d _ _. by eexists.
Qed.

Lemma merged_frame_nil h t : 
  merge_inv h0 h -> isObject h (VLoc t) = true -> merged_frame h0 h h t [].
Proof. intros Hi Ho. unfold merged_frame. by split_and!. Qed.

Lemma merged_frame_cons h h1 h' t key keys :
  t < length h ->
  merged_frame h0 h h1 t [key] -> merged_frame h0 h1 h' t keys ->
  merged_frame h0 h h' t (key :: keys).
Proof.
  intros Hlt (Hi1 & Hl1 & Ho1 & Hf1 & Hk1) (Hi' & Hl' & Ho' & Hf' & Hk').
  unfold merged_frame. split_and!; try done.
  - lia.
  - intros l Hl Hne. rewrite Hf' by (try done; lia). by apply Hf1.
  - intros k Hk. apply not_elem_of_cons in Hk as [Hne Hk].
    rewrite Hk' by done. apply Hk1. by intros ->%list_elem_of_singleton.
Qed.

(** What the target holds is a value of the store it is in. *)
Lemma target_value_frame h h1 t k :
  merge_inv h0 h -> t < length h ->
  (forall l, l < length h -> l <> t -> h1 !! l = h !! l) ->
  isObject h (VLoc t) = true ->
  isObject h (read h (VLoc t) k) = false ->
  isObject h1 (read h (VLoc t) k) = false.
Proof.
  intros Hi Hlt Hf Hobj Hno.
  pose proof (read_valid h (VLoc t) k (inv_closed _ _ Hi)) as Hv.
  rewrite <- Hno. apply isObject_agree. intros l Heq.
  rewrite Heq in Hv, Hno. apply validb_VLoc in Hv.
  apply Hf; [done|]. intros ->. congruence.
Qed.

Lemma for_in_frame t s keys : forall h,
  merge_inv h0 h -> length h0 <= t -> isObject h (VLoc t) = true ->
  validb h0 s = true -> NoDup keys -> "__proto__" ∉ keys ->
  target_free h0 h t s keys ->
  match for_in (merge_key rec (VLoc t) s) keys h with
  | Done h' => merged_frame h0 h h' t keys /\ merged_values h0 h h' t s keys
  | Raised e h' => e = RangeError /\ merged_frame h0 h h' t keys
  | Exits _ _ => False
  end
  /\ forall d,
       (forall k, k ∈ keys -> by_value h0 (read h0 s k) = true ->
          depth_leb d h0 (read h0 s k) = true) ->
       d + 2 <= N ->
       exists h', for_in (merge_key rec (VLoc t) s) keys h = Done h'.
Proof.
  induction keys as [|key keys IH]; intros h Hi Ht Hobj Hsrc Hnd Hnp Hfree;
    cbn [for_in].
  { split; [|by eexists]. split; [by apply merged_frame_nil|].
    intros k Hk. by apply elem_of_nil in Hk. }
  apply list.NoDup_cons in Hnd as [Hnk Hnd].
  apply not_elem_of_cons in Hnp as [Hkp Hnp].
  assert (Hlt : t < length h).
  { apply isObject_lookup in Hobj as [ps Hps]. by eapply lookup_lt_Some. }
  assert (Hfk : target_free h0 h t s [key]).
  { intros k Hk. apply Hfree. apply list_elem_of_singleton in Hk as ->.
    apply elem_of_cons. by left. }
  destruct (merge_key_frame t s key h Hi Ht Hobj Hsrc (not_eq_sym Hkp) Hfk)
    as [Hstep Hterm1].
  assert (Hnext : forall h1,
            merged_frame h0 h h1 t [key] ->
            merge_inv h0 h1 /\ isObject h1 (VLoc t) = true
            /\ target_free h0 h1 t s keys).
  { intros h1 (Hi1 & Hl1 & Ho1 & Hf1 & Hk1). split; [done|]. split; [done|].
    intros k Hk Hb. cbv zeta.
    assert (Hne : k ∉ [key]).
    { intros ->%list_elem_of_singleton. done. }
    rewrite (Hk1 k Hne). intros Htr.
    destruct (Hfree k) as [Hno Hnh]; try done.
    { apply elem_of_cons. by right. }
    split; [|done]. by apply (target_value_frame h). }
  split.
  - destruct (merge_key rec (VLoc t) s h key) as [h1|e h1|x h1]; [| |done].
    + destruct Hstep as [Hf1 Hv1].
      destruct (Hnext h1 Hf1) as (Hi1 & Ho1 & Hfree1).
      destruct (IH h1 Hi1 Ht Ho1 Hsrc Hnd Hnp Hfree1) as [Hrest _].
      destruct (for_in (merge_key rec (VLoc t) s) keys h1) as [h'|e h'|x h'];
        [|destruct Hrest as [-> Hrest]|done].
      * destruct Hrest as [Hf' Hv']. split; [by eapply merged_frame_cons|].
        intros k Hk. cbv zeta.
        destruct Hf1 as (_ & Hl1 & _ & _ & Hk1).
        destruct Hf' as (Hi' & _ & _ & Hsame' & Hk').
        apply elem_of_cons in Hk as [->|Hk].
        -- specialize (Hv1 key (proj2 (list_elem_of_singleton _ _) eq_refl)).
           cbv zeta in Hv1. rewrite (Hk' key Hnk).
           destruct (by_value h0 (read h0 s key)); [|done].
           destruct (truthy (read h (VLoc t) key)); [done|].
           destruct Hv1 as (l' & Hr & Hge & Hcp). exists l'.
           split; [done|]. split; [done|].
           apply (copied_frame h1); [done|].
           intros l Hl Hl1'. apply Hsame'; [done|lia].
        -- specialize (Hv' k Hk). cbv zeta in Hv'.
           assert (Hne : k ∉ [key]).
           { intros ->%list_elem_of_singleton. done. }
           rewrite (Hk1 k Hne) in Hv'.
           destruct (by_value h0 (read h0 s k)); [|done].
           destruct (truthy (read h (VLoc t) k)); [done|].
           destruct Hv' as (l' & Hr & Hge & Hcp). exists l'.
           split; [done|]. split; [lia|done].
      * split; [done|]. by eapply merged_frame_cons.
    + destruct Hstep as [-> Hf1]. split; [done|].
      destruct Hf1 as (Hi1 & Hl1 & Ho1 & Hsame1 & Hk1).
      unfold merged_frame. split_and!; try done.
      intros k Hk. apply not_elem_of_cons in Hk as [Hne Hk].
      apply Hk1. by intros ->%list_elem_of_singleton.
  - intros d Hd HN.
    destruct (Hterm1 d) as [h1 E1]; try done.
    { apply Hd. apply elem_of_cons. by left. }
    rewrite E1 in Hstep |- *. destruct Hstep as [Hf1 _].
    destruct (Hnext h1 Hf1) as (Hi1 & Ho1 & Hfree1).
    destruct (IH h1 Hi1 Ht Ho1 Hsrc Hnd Hnp Hfree1) as [_ Hterm].
    apply (Hterm d); [|done].
    intros k Hk. apply Hd. apply elem_of_cons. by right.
Qed.

(** One source merged into a new object. *)
Lemma merge_source_frame t s h :
  merge_inv h0 h -> length h0 <= t -> isObject h (VLoc t) = true ->
  validb h0 s = true -> is_host s = false ->
  (isObject h0 s = true -> target_free h0 h t s (own_keys h0 s)) ->
  match merge_source rec (VLoc t) s h with
  | Done h' =>
      merged_frame h0 h h' t (own_keys h0 s)
      /\ (if isObject h0 s then merged_values h0 h h' t s (own_keys h0 s)
          else h' = h)
  | Raised e h' => e = RangeError /\ merged_frame h0 h h' t (own_keys h0 s)
  | Exits _ _ => False
  end
  /\ forall d, depth_leb d h0 s = true -> d + 1 <= N ->
       exists h', merge_source rec (VLoc t) s h = Done h'.
Proof.
  intros Hi Ht Hobj Hsrc Hnh Hfree. unfold merge_source.
  rewrite Hobj, (isObject_old h s), (own_keys_old h s) by done.
  cbn [andb is_host]. rewrite Hnh.
  destruct (isObject h0 s) eqn:Hso; cbn [andb orb].
  - destruct (own_keys_data s Hso) as [Hnd Hnp].
    destruct (for_in_frame t s (own_keys h0 s) h Hi Ht Hobj Hsrc Hnd Hnp
                (Hfree eq_refl)) as [Hr Hterm].
    split; [done|]. intros d Hd HN.
    destruct d as [|d].
    + (* an object of depth zero has no key *)
      destruct s as [| | | | |l| | | | | |]; try done.
      * apply isObject_lookup in Hso as [ps Hps]. simpl in Hd.
        by rewrite Hps in Hd.
      * by eexists.
    + apply (Hterm d); [|lia].
      intros k _ Hb. by apply depth_leb_read.
  - split; [|by eexists]. split; [|done].
    unfold merged_frame. by split_and!.
Qed.

End Step.

(** ** [mergeDeep] into a new object *)

Lemma mergeDeep_nil n tv h :
  mergeDeep n tv [] h = match n with O => Raised RangeError h | S _ => Done h end.
Proof. by destruct n. Qed.

(** The copy a merge into a new empty object leaves. *)
Lemma merged_values_copied h h' t s :
  h !! t = Some (Cell Plain []) -> isObject h0 s = true ->
  merged_frame h0 h h' t (own_keys h0 s) ->
  merged_values h0 h h' t s (own_keys h0 s) ->
  copied h0 h' t (VLoc t) s.
Proof.
  intros Hc Hso (Hi' & Hl' & Ho' & Hsame & Hout) Hval.
  assert (Hr : forall k, read h (VLoc t) k = inherited VObjectPrototype k).
  { intros k. unfold read. by rewrite Hc. }
  assert (Hlt : t < length h) by (by eapply lookup_lt_Some).
  constructor; try done.
  - intros k Hk. by rewrite Hout, Hr.
  - intros k Hk Hb. specialize (Hval k Hk). cbv zeta in Hval.
    by rewrite Hb in Hval.
  - intros k Hk Hb Ht. specialize (Hval k Hk). cbv zeta in Hval.
    by rewrite Hb, Hr, Ht in Hval.
  - intros k Hk Hb Ht. specialize (Hval k Hk). cbv zeta in Hval.
    rewrite Hb, Hr, Ht in Hval. destruct Hval as (l' & -> & Hge & Hcp).
    inversion Hcp; subst. constructor; try done. lia.
Qed.

Lemma mergeDeep_rec_ok n : rec_ok h0 n (fun t s => mergeDeep n t [s]).
Proof.
  induction n as [|n IH]; intros tv sv h Hi Hv Hb Hnt.
  { simpl. split; [|split; [intros; lia|done]].
    split; [done|]. by apply merged_into_refl. }
  cbn [mergeDeep].
  pose proof (by_value_isObject _ _ Hb) as Hso.
  destruct Hnt as [[Hno Hnh]|(t & -> & Ht & Hc)].
  - assert (merge_source (fun t s => mergeDeep n t [s]) tv sv h = Done h) as ->.
    { unfold merge_source. rewrite Hno, Hnh. done. }
    rewrite mergeDeep_nil. split; [|split].
    + destruct n; [split; [done|]|]; by apply merged_into_refl.
    + intros d _ HN. destruct n; [lia|]. by eexists.
    + intros t h' -> Hc. simpl in Hno. by rewrite Hc in Hno.
  - assert (Hobj : isObject h (VLoc t) = true) by (apply isObject_lookup; eauto).
    assert (Hfree : target_free h0 h t sv (own_keys h0 sv)).
    { intros k Hk _. cbv zeta. unfold read. rewrite Hc. cbn [own_prop default].
      intros _. apply inherited_no_object. intros ->.
      by apply (own_keys_data sv Hso). }
    destruct (merge_source_frame n _ IH t sv h Hi Ht Hobj Hv
                (isObject_not_host _ _ Hso) (fun _ => Hfree)) as [Hr Hterm].
    assert (Hinto : forall h', merged_frame h0 h h' t (own_keys h0 sv) ->
                               merged_into h0 h h' (VLoc t)).
    { intros h' (Hi' & Hl' & Ho' & Hsame & _). unfold merged_into.
      split_and!; try done.
      - intros l Hl Hne. apply Hsame; [done|]. congruence.
      - congruence.
      - intros Hno. congruence. }
    split; [|split].
    + destruct (merge_source _ (VLoc t) sv h) as [h'|e h'|x h']; [| |done].
      * destruct Hr as [Hf _]. rewrite mergeDeep_nil.
        destruct n; [split; [done|]|]; by apply Hinto.
      * destruct Hr as [-> Hf]. split; [done|]. by apply Hinto.
    + intros d Hd HN. destruct (Hterm d Hd) as [h' E]; [lia|].
      rewrite E, mergeDeep_nil. destruct n; [lia|]. by eexists.
    + intros t' h' [= <-] _.
      destruct (merge_source _ (VLoc t) sv h) as [h1|e h1|x h1]; [|done|done].
      rewrite mergeDeep_nil. destruct n; [done|]. intros [= <-].
      destruct Hr as [Hf Hval]. rewrite Hso in Hval.
      by apply (merged_values_copied h).
Qed.

(** A single source merged into a new object [t] with [S n] stack frames. *)
Lemma mergeDeep_single n t s h :
  merge_inv h0 h -> length h0 <= t -> isObject h (VLoc t) = true ->
  validb h0 s = true -> is_host s = false ->
  (isObject h0 s = true -> target_free h0 h t s (own_keys h0 s)) ->
  match mergeDeep (S n) (VLoc t) [s] h with
  | Done h' =>
      merged_frame h0 h h' t (own_keys h0 s)
      /\ (if isObject h0 s then merged_values h0 h h' t s (own_keys h0 s)
          else h' = h)
  | Raised e h' => e = RangeError /\ merged_frame h0 h h' t (own_keys h0 s)
  | Exits _ _ => False
  end
  /\ forall d, depth_leb d h0 s = true -> d + 2 <= S n ->
       exists h', mergeDeep (S n) (VLoc t) [s] h = Done h'.
Proof.
  intros Hi Ht Hobj Hv Hnh Hfree. cbn [mergeDeep].
  destruct (merge_source_frame n _ (mergeDeep_rec_ok n) t s h Hi Ht Hobj Hv
              Hnh Hfree) as [Hr Hterm].
  split.
  - destruct (merge_source _ (VLoc t) s h) as [h'|e h'|x h']; [| |done].
    + rewrite mergeDeep_nil. destruct n; [|done].
      split; [done|]. apply Hr.
    + done.
  - intros d Hd HN. destruct (Hterm d Hd) as [h' E]; [lia|].
    rewrite E, mergeDeep_nil. destruct n; [lia|]. by eexists.
Qed.

End MergeFrame.
(** ** Reading a grown store *)

Lemma read_app h hs o k :
  validb h o = true -> read (h ++ hs) o k = read h o k.
Proof.
  intros Hv. apply read_agree. intros l ->. apply validb_VLoc in Hv.
  by apply lookup_app_l.
Qed.

Lemma isObject_app h hs o :
  validb h o = true -> isObject (h ++ hs) o = isObject h o.
Proof.
  intros Hv. apply isObject_agree. intros l ->. apply validb_VLoc in Hv.
  by apply lookup_app_l.
Qed.

Lemma own_keys_app h hs o :
  validb h o = true -> own_keys (h ++ hs) o = own_keys h o.
Proof.
  intros Hv. destruct o; try done. apply validb_VLoc in Hv.
  simpl. by rewrite lookup_app_l.
Qed.

Lemma closed_app h c :
  closed h -> (forall kv, kv ∈ props c -> validb (h ++ [c]) kv.2 = true) ->
  closed (h ++ [c]).
Proof.
  intros Hc Hn l c' kv Hl Hkv.
  apply lookup_snoc_Some in Hl as [[Hlt Hl]|[-> <-]]; [|by apply Hn].
  eapply validb_mono; [|by apply (Hc l c')]. rewrite length_app. lia.
Qed.

Lemma isClassInstance_app h hs v :
  closed h -> validb h v = true ->
  isClassInstance (h ++ hs) v = isClassInstance h v.
Proof.
  intros Hc Hv. apply isClassInstance_agree; try done.
  intros l Hl. by apply lookup_app_l.
Qed.

Lemma by_value_app h hs v :
  closed h -> validb h v = true -> by_value (h ++ hs) v = by_value h v.
Proof.
  intros Hc Hv. unfold by_value.
  by rewrite isObject_app, isClassInstance_app.
Qed.

Lemma depth_leb_app d : forall h hs v,
  closed h -> validb h v = true ->
  depth_leb d (h ++ hs) v = depth_leb d h v.
Proof.
  induction d as [|d IH]; intros h hs v Hc Hv.
  - destruct v as [| | | | |l| | | | | |]; try done. apply validb_VLoc in Hv.
    simpl. by rewrite lookup_app_l.
  - destruct v as [| | | | |l| | | | | |]; try done.
    pose proof Hv as Hlt. apply validb_VLoc in Hlt.
    simpl. rewrite lookup_app_l by done.
    destruct (h !! l) as [[[] ps]|] eqn:E; try done.
    assert (Hps : forall kv, kv ∈ ps -> validb h kv.2 = true)
      by (intros kv Hkv; apply (Hc l _ kv E Hkv)).
    clear E. induction ps as [|kv ps IHps]; [done|]. simpl.
    rewrite by_value_app, IH by (try done; apply Hps, elem_of_cons; by left).
    rewrite IHps; [done|]. intros kv' Hkv'. apply Hps, elem_of_cons. by right.
Qed.

Lemma getPropertyPath_valid h obj path :
  closed h -> validb h obj = true -> validb h (getPropertyPath h obj path) = true.
Proof.
  intros Hc. unfold getPropertyPath. generalize (split_dot path).
  intros segs. revert obj. induction segs as [|x segs IH]; intros obj Hv; [done|].
  simpl. apply IH. destruct obj; try done; by apply read_valid.
Qed.

(** ** [_handleVr] and [_handleExternalCSS] in the constructor *)

Lemma merge_source_stereo rec h b :
  merge_source rec (VLoc (length h)) (VLoc (S (length h)))
    (h ++ [Cell Plain []; Cell Plain [("vrStereoMode", VBool b)]])
  = Done (h ++ [Cell Plain [("vrStereoMode", VBool b)];
                Cell Plain [("vrStereoMode", VBool b)]]).
Proof.
  set (h2 := h ++ [Cell Plain []; Cell Plain [("vrStereoMode", VBool b)]]).
  assert (Ht : h2 !! length h = Some (Cell Plain []))
    by (by apply list_lookup_middle).
  assert (Hs : h2 !! S (length h) = Some (Cell Plain [("vrStereoMode", VBool b)])).
  { unfold h2. rewrite lookup_app_r by lia.
    by replace (S (length h) - length h) with 1 by lia. }
  unfold merge_source.
  unfold isObject at 1 2. rewrite Ht, Hs.
  unfold own_keys. rewrite Hs. cbn [andb fmap list_fmap props fst for_in].
  unfold merge_key. unfold read at 1. rewrite Hs.
  cbn [props own_prop String.eqb Ascii.eqb Bool.eqb default isObject].
  unfold read. rewrite Hs.
  cbn [props own_prop String.eqb Ascii.eqb Bool.eqb default].
  rewrite Object_assign_own by done.
  unfold write. rewrite Ht. cbn [kind_of props assign_prop].
  f_equal. unfold h2. rewrite insert_app_r_alt by lia.
  by replace (length h - length h) with 0 by lia.
Qed.

Lemma mergeDeep_stereo h b n :
  mergeDeep (S (S n)) (VLoc (length h)) [VLoc (S (length h))]
    (h ++ [Cell Plain []; Cell Plain [("vrStereoMode", VBool b)]])
  = Done (h ++ [Cell Plain [("vrStereoMode", VBool b)];
                Cell Plain [("vrStereoMode", VBool b)]]).
Proof. cbn [mergeDeep]. by rewrite merge_source_stereo. Qed.

Lemma call_method n m this args :
  call (S n) (VMethod m) this args = method_body n (call n) m this args.
Proof. done. Qed.

Lemma call_handleVr n plugins st w :
  enabled w -> manager w = Some st -> plugins <> VNull ->
  closed (store w) -> validb (store w) plugins = true ->
  let h := store w in
  let vr := read h plugins "vr" in
  let toggleStereo := read h vr "toggleStereo" in
  call (4 + n) (VMethod m_handleVr) Target [plugins] w
  = Ok VUndef
      (if truthy vr && negb (truthy (read h vr "disable"))
          && (truthy toggleStereo
              || ((Env_isMobile || Env_isTablet)
                  && negb (strict_eq toggleStereo (VBool false))))
       then served um_setConfig [VLoc (length h); VStr "vrStereo"] st
              (with_store (h ++ [stereo_cell h vr; stereo_cell h vr]) w)
       else match plugins with
            | VUndef => with_store (h ++ [Cell Plain []]) w
            | _ => w
            end).
Proof.
  intros He Hs Hnull Hcl Hv h vr toggleStereo.
  change (4 + n) with (S (S (S (S n)))).
  rewrite call_method. cbn [method_body arg nth]. unfold _handleVr.
  destruct (decide (plugins = VUndef)) as [->|Hundef].
  { unfold bind. rewrite new_object_eq. rewrite get_prop_ok by done.
    cbn [store with_store].
    assert (read (store w ++ [Cell Plain []]) (VLoc (length (store w))) "vr" = VUndef) as ->.
    { unfold read. by rewrite list_lookup_middle. }
    done. }
  assert (Hp : nullish plugins = false) by (by destruct plugins).
  assert (Hvr : validb h vr = true) by (by apply read_valid).
  assert ((match plugins with VUndef => new_object [] | _ => ret plugins end)
          = ret plugins) as -> by (by destruct plugins).
  unfold bind at 1. unfold ret at 1.
  unfold bind at 1. rewrite get_prop_ok by done. fold h. fold vr.
  destruct (truthy vr) eqn:Htv; [|by destruct plugins].
  assert (Hnv : nullish vr = false) by (by apply truthy_not_nullish).
  unfold bind at 1. rewrite get_prop_ok by done. fold h.
  destruct (truthy (read h vr "disable")) eqn:Hdis; [by destruct plugins|].
  cbn [negb andb].
  unfold bind at 1.
  rewrite (get_method Target "_setStereoConfig" m_setStereoConfig) by done.
  unfold bind at 1. rewrite call_method.
  cbn [method_body arg nth]. unfold _setStereoConfig.
  unfold bind at 1. rewrite get_prop_ok by done. fold h. fold toggleStereo.
  destruct (truthy toggleStereo
            || ((Env_isMobile || Env_isTablet)
                && negb (strict_eq toggleStereo (VBool false)))) eqn:Hcond;
    [|by destruct plugins].
  unfold bind at 1. rewrite (get_method Target "setConfig" m_setConfig) by done.
  unfold bind at 1. rewrite new_object_eq. fold h.
  unfold bind at 1. rewrite get_prop_ok by done. cbn [store with_store].
  rewrite read_app by done.
  unfold bind at 1. rewrite new_object_eq. cbn [store with_store].
  unfold bind at 1. unfold Utils_Object_mergeDeep. cbn [store with_store].
  rewrite length_app. cbn [length]. rewrite Nat.add_1_r.
  rewrite <- app_assoc. cbn [app].
  rewrite mergeDeep_stereo.
  unfold bind at 1. rewrite call_method. cbn [method_body arg nth].
  rewrite (setConfig_enabled _ _ _ st); [done| |done].
  repeat apply enabled_with_store. done.
Qed.

Lemma call_handleExternalCSS n config w :
  nullish config = false ->
  let css := read (store w) config "css" in
  call (S n) (VMethod m_handleExternalCSS) Target [config] w
  = Ok VUndef
      (if truthy css
       then with_pending (pending w ++ [Reaction css_loaded css_failed])
              (with_trace (trace w ++ [ELoadStyleSheetAsync css]) w)
       else w).
Proof.
  intros Hc css. rewrite call_method. cbn [method_body arg nth].
  unfold _handleExternalCSS.
  unfold bind at 1. rewrite get_prop_ok by done. fold css.
  by destruct (truthy css).
Qed.

Lemma constructor_enabled_eval n player options config w :
  ui_config (store w) options config ->
  truthy (read (store w) config "disable") = false ->
  read (store w) options "plugins" <> VNull ->
  closed (store w) -> validb (store w) options = true ->
  constructor (4 + n) player options w
  = Ok Proxy
      (after_handleExternalCSS config
         (after_handleVr (read (store w) options "plugins")
            (built player config w))).
Proof.
  intros Hu Hd Hnull Hcl Hv.
  rewrite (constructor_enabled _ _ _ _ _ Hu Hd).
  destruct Hu as (Ho & Hcfg & Hc).
  set (wb := built player config w).
  assert (Hsb : store wb = store w) by (unfold wb, built; by destruct (build_call _)).
  assert (Heb : enabled wb) by apply enabled_built.
  destruct Heb as (Hdb & Hmb & [st Hst]).
  assert (Hvp : validb (store w) (read (store w) options "plugins") = true)
    by (by apply read_valid).
  assert (Hvc : validb (store w) config = true)
    by (subst config; by apply read_valid).
  unfold bind at 1.
  rewrite (call_handleVr n _ st) by (rewrite ?Hsb; done).
  assert (Hvr : (let h := store wb in
                 let vr := read h (read (store w) options "plugins") "vr" in
                 let toggleStereo := read h vr "toggleStereo" in
                 if truthy vr && negb (truthy (read h vr "disable"))
                    && (truthy toggleStereo
                        || ((Env_isMobile || Env_isTablet)
                            && negb (strict_eq toggleStereo (VBool false))))
                 then served um_setConfig [VLoc (length h); VStr "vrStereo"] st
                        (with_store (h ++ [stereo_cell h vr; stereo_cell h vr]) wb)
                 else match read (store w) options "plugins" with
                      | VUndef => with_store (h ++ [Cell Plain []]) wb
                      | _ => wb
                      end)
                = after_handleVr (read (store w) options "plugins") wb).
  { unfold after_handleVr. by rewrite Hst. }
  cbv zeta in Hvr. cbv zeta. rewrite Hvr.
  unfold bind at 1.
  change (4 + n) with (S (3 + n)).
  rewrite call_handleExternalCSS by done.
  done.
Qed.

Lemma store_built player config w : store (built player config w) = store w.
Proof. unfold built. by destruct (build_call _). Qed.

Lemma pending_built player config w : pending (built player config w) = pending w.
Proof. unfold built. by destruct (build_call _). Qed.

Lemma trace_built player config w :
  exists m args,
    trace (built player config w)
    = trace w ++ [ENewUIManager player config; EUIManager m args]
    /\ (m = um_buildCustomUI \/ m = um_buildDefaultUI).
Proof.
  unfold built, build_call.
  destruct (truthy _); eexists _, _; simpl; rewrite <- app_assoc; eauto.
Qed.

Lemma store_after_handleVr plugins w :
  exists cells, store (after_handleVr plugins w) = store w ++ cells.
Proof.
  unfold after_handleVr.
  destruct (_ && _).
  - destruct (manager w); [by eexists|exists []; by rewrite app_nil_r].
  - destruct plugins; try (exists []; by rewrite app_nil_r). by eexists.
Qed.

Lemma pending_after_handleVr plugins w :
  pending (after_handleVr plugins w) = pending w.
Proof.
  unfold after_handleVr.
  destruct (_ && _); [by destruct (manager w)|by destruct plugins].
Qed.

(** ** C3 *)

(** C3.  A constructor call with [ui.disable] falsy and a plugins
    configuration (an object, or none at all) returns, and it calls
    [setConfig(c, 'vrStereo')] exactly when [plugins.vr] is truthy,
    [plugins.vr.disable] is falsy, and [plugins.vr.toggleStereo] is truthy or
    the device is a mobile or a tablet and [toggleStereo] is not [false]
    itself.  It does so once, and [c] is a new object whose only property is
    [vrStereoMode], the boolean value of [plugins.vr.startInStereo].  In every
    other case no such call is made. *)
Theorem vr_stereo_configuration n player options config w :
  ui_config (store w) options config ->
  truthy (read (store w) config "disable") = false ->
  let h := store w in
  let plugins := read h options "plugins" in
  plugins <> VNull ->
  closedb h = true -> validb h options = true ->
  let vr := read h plugins "vr" in
  let toggleStereo := read h vr "toggleStereo" in
  exists w1,
    constructor (4 + n) player options w = Ok Proxy w1
    /\ if truthy vr && negb (truthy (read h vr "disable"))
          && (truthy toggleStereo
              || ((Env_isMobile || Env_isTablet)
                  && negb (strict_eq toggleStereo (VBool false))))
       then exists c,
              omap vrStereo_config (trace w1)
              = omap vrStereo_config (trace w) ++ [VLoc c]
              /\ length h <= c
              /\ store w1 !! c
                 = Some (Cell Plain
                           [("vrStereoMode",
                             VBool (truthy (read h vr "startInStereo")))])
       else omap vrStereo_config (trace w1) = omap vrStereo_config (trace w).
Proof.
  intros Hu Hd h plugins Hnull Hcl Hv vr toggleStereo.
  apply closedb_closed in Hcl.
  eexists. split; [by apply constructor_enabled_eval|].
  set (wb := built player config w).
  destruct (trace_built player config w) as (m & args & Htb & Hm). fold wb in Htb.
  assert (Hsb : store wb = h) by apply store_built.
  destruct (enabled_built player config w) as (_ & _ & [st Hst]).
  fold wb in Hst. clearbody wb.
  assert (Hnb : omap vrStereo_config (trace wb) = omap vrStereo_config (trace w)).
  { rewrite Htb, omap_app. simpl.
    destruct Hm as [-> | ->]; simpl; by rewrite app_nil_r. }
  assert (Hcss : forall w2, omap vrStereo_config (trace (after_handleExternalCSS config w2))
                            = omap vrStereo_config (trace w2)).
  { intros w2. unfold after_handleExternalCSS. cbv zeta.
    destruct (truthy (read (store w2) config "css")); [|done].
    simpl. rewrite omap_app. simpl. by rewrite app_nil_r. }
  assert (Hcs : forall w2 hs l c, store w2 = h ++ hs -> (h ++ hs) !! l = Some c ->
                  store (after_handleExternalCSS config w2) !! l = Some c).
  { intros w2 hs l c Hs2 Hl. unfold after_handleExternalCSS. cbv zeta.
    destruct (truthy (read (store w2) config "css")); simpl; by rewrite Hs2. }
  rewrite Hcss. unfold after_handleVr. cbv zeta. rewrite Hsb.
  fold plugins. fold vr. fold toggleStereo.
  destruct (_ && _) eqn:Hcond.
  - rewrite Hst.
    exists (length h). split; [|split; [done|]].
    + simpl. rewrite omap_app, Hnb. done.
    + eapply Hcs; [reflexivity|]. by apply list_lookup_middle.
  - rewrite <- Hnb. by destruct (read (store w) options "plugins").
Qed.

Lemma trace_after_handleVr plugins w :
  exists evs,
    trace (after_handleVr plugins w) = trace w ++ evs
    /\ omap loaded_css evs = [] /\ omap logged evs = [].
Proof.
  unfold after_handleVr. cbv zeta.
  destruct (_ && _).
  - destruct (manager w); [by eexists [_]|exists []; by rewrite app_nil_r].
  - exists []. rewrite app_nil_r. by destruct plugins.
Qed.

(** ** C2 *)

(** C2 (as amended).  A constructor call with [ui.disable] falsy and an
    [options.plugins] that is not [null] returns, having started the
    load of [config.css] when [config.css] is truthy, once, and no load
    otherwise.  It registers the reaction of that load and logs nothing
    itself: it does not wait.  When the load settles, its reaction logs once,
    at debug level when the load succeeded and at error level when it failed,
    changes nothing else, and the promise it belongs to is fulfilled in both
    cases, so a failed load raises nothing. *)
Theorem external_css_is_fire_and_forget n player options config w :
  ui_config (store w) options config ->
  truthy (read (store w) config "disable") = false ->
  let h := store w in
  read h options "plugins" <> VNull ->
  closedb h = true -> validb h options = true ->
  let css := read h config "css" in
  (exists w1,
     constructor (4 + n) player options w = Ok Proxy w1
     /\ omap loaded_css (trace w1)
        = omap loaded_css (trace w) ++ (if truthy css then [css] else [])
     /\ pending w1
        = pending w
          ++ (if truthy css then [Reaction css_loaded css_failed] else [])
     /\ omap logged (trace w1) = omap logged (trace w))
  /\ forall i w',
       pending w' !! i = Some (Reaction css_loaded css_failed) ->
       settle i Fulfilled w'
       = Some (Fulfilled,
               with_trace
                 (trace w' ++ [ELog Debug "external css was loaded successfully"])
                 (with_pending (delete i (pending w')) w'))
       /\ settle i Rejected w'
          = Some (Fulfilled,
                  with_trace
                    (trace w' ++ [ELog Error "external css failed to load"])
                    (with_pending (delete i (pending w')) w')).
Proof.
  intros Hu Hd h Hnull Hcl Hv css. apply closedb_closed in Hcl. subst css h.
  split; [|intros i w' Hp; unfold settle; by rewrite Hp].
  eexists. split; [by apply constructor_enabled_eval|].
  assert (Hvc : validb (store w) config = true).
  { destruct Hu as (_ & -> & _). by apply read_valid. }
  set (w2 := after_handleVr (read (store w) options "plugins") (built player config w)).
  destruct (trace_after_handleVr (read (store w) options "plugins")
              (built player config w)) as (evs & Ht2 & Hl2 & Hg2).
  destruct (store_after_handleVr (read (store w) options "plugins")
              (built player config w)) as (cells & Hs2).
  pose proof (pending_after_handleVr (read (store w) options "plugins")
                (built player config w)) as Hp2.
  rewrite store_built in Hs2. rewrite pending_built in Hp2.
  destruct (trace_built player config w) as (m & args & Htb & Hm).
  rewrite Htb in Ht2. fold w2 in Ht2, Hs2, Hp2. clearbody w2.
  unfold after_handleExternalCSS. cbv zeta.
  rewrite Hs2, read_app by done.
  assert (Hl : omap loaded_css (trace w2) = omap loaded_css (trace w)).
  { rewrite Ht2, !omap_app, Hl2. simpl. by rewrite !app_nil_r. }
  assert (Hg : omap logged (trace w2) = omap logged (trace w)).
  { rewrite Ht2, !omap_app, Hg2. simpl. by rewrite !app_nil_r. }
  destruct (truthy (read (store w) config "css")); simpl.
  - rewrite !omap_app, Hl, Hg, Hp2. simpl. by rewrite app_nil_r.
  - by rewrite Hl, Hg, Hp2, !app_nil_r.
Qed.

(** ** The merge of [setSeekbarConfig] *)

Lemma lookup_last (hh : heap) c : (hh ++ [c]) !! length hh = Some c.
Proof. by apply list_lookup_middle. Qed.

Lemma write_last hh ps k v :
  write (hh ++ [Cell Plain ps]) (VLoc (length hh)) k v
  = hh ++ [Cell Plain (assign_prop k v ps)].
Proof.
  unfold write. rewrite lookup_last. cbn [kind_of props].
  rewrite insert_app_r_alt by lia.
  by replace (length hh - length hh) with 0 by lia.
Qed.

Lemma merge_key_assign rec hh ps src key v :
  read (hh ++ [Cell Plain ps]) src key = v ->
  isObject (hh ++ [Cell Plain ps]) v = false -> key <> "__proto__" ->
  merge_key rec (VLoc (length hh)) src (hh ++ [Cell Plain ps]) key
  = Done (hh ++ [Cell Plain (assign_prop key v ps)]).
Proof.
  intros Hr Ho Hk. unfold merge_key. rewrite Hr, Ho.
  rewrite Object_assign_own by done. by rewrite write_last.
Qed.

(** The defaults, all primitive, are assigned to the new object. *)
Lemma merge_source_defaults rec h mediaConfig seekbarConfig :
  let pp := preview_props h mediaConfig seekbarConfig in
  let hp := h ++ [Cell Plain pp] in
  merge_source rec (VLoc (length hp)) (VLoc (length h)) (hp ++ [Cell Plain []])
  = Done (hp ++ [Cell Plain pp]).
Proof.
  intros pp hp.
  assert (Hsrc : forall ps, (hp ++ [Cell Plain ps]) !! length h = Some (Cell Plain pp)).
  { intros ps. rewrite lookup_app_l by (unfold hp; rewrite length_app; simpl; lia).
    apply lookup_last. }
  unfold merge_source.
  assert (isObject (hp ++ [Cell Plain []]) (VLoc (length hp)) = true) as ->
    by (unfold isObject; by rewrite lookup_last).
  assert (isObject (hp ++ [Cell Plain []]) (VLoc (length h)) = true) as ->
    by (unfold isObject; by rewrite Hsrc).
  unfold own_keys. rewrite Hsrc.
  cbn [andb props pp preview_props fmap list_fmap fst for_in].
  rewrite (merge_key_assign rec hp [] _ "thumbsSprite"
             (VStr (getThumbSlicesUrl h mediaConfig seekbarConfig)));
    [|unfold read; by rewrite Hsrc|done|done].
  cbn [assign_prop].
  rewrite (merge_key_assign rec hp _ _ "thumbsWidth" (VNum DEFAULT_THUMBS_WIDTH));
    [|unfold read; by rewrite Hsrc|done|done].
  cbn [assign_prop String.eqb Ascii.eqb Bool.eqb].
  rewrite (merge_key_assign rec hp _ _ "thumbsSlices" (VNum DEFAULT_THUMBS_SLICES));
    [|unfold read; by rewrite Hsrc|done|done].
  done.
Qed.

Lemma preview_props_data h mediaConfig seekbarConfig :
  data_object (Cell Plain (preview_props h mediaConfig seekbarConfig)) = true.
Proof. reflexivity. Qed.

Lemma preview_value_no_object h mediaConfig seekbarConfig h' k :
  k <> "__proto__" ->
  isObject h' (preview_value h mediaConfig seekbarConfig k) = false
  /\ is_host (preview_value h mediaConfig seekbarConfig k) = false.
Proof.
  intros Hk. unfold preview_value, preview_props. cbn [own_prop].
  repeat (destruct (_ =? k); [done|]). cbn [default].
  destruct (inherited_no_object h' k Hk) as [H1 H2]. by rewrite H1, H2.
Qed.

Lemma extends_of_merge_inv h0 h : merge_inv h0 h -> extends h0 h.
Proof. intros Hi. split; apply Hi. Qed.

Lemma copied_base h hs h' lo tv sv :
  closed h -> validb h sv = true ->
  copied (h ++ hs) h' lo tv sv -> copied h h' lo tv sv.
Proof.
  intros Hc Hv Hcp. revert Hv.
  induction Hcp as [lo t sv Hlo Ho Hout Hval Hinh Hsub IH]. intros Hv.
  assert (Hk : own_keys (h ++ hs) sv = own_keys h sv) by (by apply own_keys_app).
  assert (Hr : forall k, read (h ++ hs) sv k = read h sv k)
    by (intros k; by apply read_app).
  assert (Hb : forall k, by_value (h ++ hs) (read h sv k) = by_value h (read h sv k))
    by (intros k; apply by_value_app; [done|by apply read_valid]).
  constructor; try done.
  - intros k Hin. apply Hout. by rewrite Hk.
  - intros k Hin Hbv. rewrite <- Hr. apply Hval; [by rewrite Hk|].
    by rewrite Hr, Hb.
  - intros k Hin Hbv. apply Hinh; [by rewrite Hk|]. by rewrite Hr, Hb.
  - intros k Hin Hbv Ht. rewrite <- Hr. apply IH; try done.
    + by rewrite Hk.
    + by rewrite Hr, Hb.
    + rewrite Hr. by apply read_valid.
Qed.

(** [mergeDeep({}, previewThumbnailConfig, seekbarConfig)], from the store
    [h] of the call, with [n] stack frames. *)
Lemma seekbar_merge n h mediaConfig seekbarConfig :
  closed h -> data_objects h = true ->
  validb h seekbarConfig = true -> is_host seekbarConfig = false ->
  let pp := preview_props h mediaConfig seekbarConfig in
  let hp := h ++ [Cell Plain pp] in
  let hd := hp ++ [Cell Plain pp] in
  let keys := own_keys h seekbarConfig in
  match mergeDeep n (VLoc (S (length h))) [VLoc (length h); seekbarConfig]
          (hp ++ [Cell Plain []]) with
  | Done h' =>
      merged_frame hp hd h' (S (length h)) keys
      /\ (if isObject h seekbarConfig
          then merged_values hp hd h' (S (length h)) seekbarConfig keys
          else h' = hd)
  | Raised e h' => e = RangeError /\ extends h h'
  | Exits _ _ => False
  end
  /\ forall d, depth_leb d h seekbarConfig = true -> d + 3 <= n ->
       exists h', mergeDeep n (VLoc (S (length h)))
                    [VLoc (length h); seekbarConfig] (hp ++ [Cell Plain []])
                  = Done h'.
Proof.
  intros Hc Hdata Hv Hnh pp hp hd keys.
  assert (Hlp : length hp = S (length h))
    by (unfold hp; rewrite length_app; simpl; lia).
  assert (Hcp : closed hp).
  { apply closed_app; [done|]. intros kv Hkv. cbn [props] in Hkv.
    unfold pp, preview_props in Hkv. rewrite !elem_of_cons in Hkv.
    destruct Hkv as [->|[->|[->|Hkv]]]; try done. by apply elem_of_nil in Hkv. }
  assert (Hdp : data_objects hp = true)
    by (apply data_objects_app; [done|apply preview_props_data]).
  assert (Hcd : closed hd).
  { apply closed_app; [done|]. intros kv Hkv. cbn [props] in Hkv.
    unfold pp, preview_props in Hkv. rewrite !elem_of_cons in Hkv.
    destruct Hkv as [->|[->|[->|Hkv]]]; try done. by apply elem_of_nil in Hkv. }
  assert (Hid : merge_inv hp hd).
  { split; [unfold hd; rewrite length_app; lia| |done].
    intros l Hl. unfold hd. by rewrite lookup_app_l. }
  assert (Hehd : extends h hd).
  { unfold hd, hp. rewrite <- app_assoc. apply extends_app. }
  assert (Hex : forall cells, extends h (hp ++ cells)).
  { intros cells. unfold hp. rewrite <- app_assoc. apply extends_app. }
  assert (Hvp : validb hp seekbarConfig = true)
    by (eapply validb_mono; [|done]; lia).
  assert (Hkp : own_keys hp seekbarConfig = keys) by (by apply own_keys_app).
  assert (Hop : isObject hp seekbarConfig = isObject h seekbarConfig)
    by (by apply isObject_app).
  assert (Hobj : isObject hd (VLoc (S (length h))) = true).
  { unfold isObject, hd. by rewrite <- Hlp, lookup_last. }
  assert (Hfree : isObject hp seekbarConfig = true ->
                  target_free hp hd (S (length h)) seekbarConfig
                    (own_keys hp seekbarConfig)).
  { intros Hso k Hk _. cbv zeta.
    assert (read hd (VLoc (S (length h))) k
            = preview_value h mediaConfig seekbarConfig k) as ->.
    { unfold read, hd. by rewrite <- Hlp, lookup_last. }
    intros _. apply preview_value_no_object. intros ->.
    by apply (own_keys_data hp Hdp seekbarConfig Hso). }
  destruct n as [|n].
  { split; [|intros; lia]. simpl. split; [done|]. apply Hex. }
  cbn [mergeDeep]. rewrite <- Hlp.
  rewrite (merge_source_defaults _ h mediaConfig seekbarConfig).
  fold pp. fold hp. fold hd. rewrite Hlp.
  destruct n as [|n].
  { split; [|intros; lia]. simpl. done. }
  destruct (mergeDeep_single hp Hcp Hdp n (S (length h)) seekbarConfig hd)
    as [Hr Hterm]; try done; [lia|].
  rewrite Hkp, Hop in Hr.
  split.
  - destruct (mergeDeep (S n) (VLoc (S (length h))) [seekbarConfig] hd)
      as [h'|e h'|x h']; [done| |done].
    destruct Hr as [-> (Hi' & _)]. split; [done|].
    eapply extends_trans; [apply (extends_app h [Cell Plain pp])|].
    by apply extends_of_merge_inv.
  - intros d Hd HN. apply (Hterm d); [|lia].
    unfold hp. by rewrite depth_leb_app.
Qed.

Lemma getPreviewThumbnailConfig_eq mediaConfig seekbarConfig w :
  getPreviewThumbnailConfig mediaConfig seekbarConfig w
  = Ok (VLoc (length (store w)))
      (with_store
         (store w ++ [Cell Plain (preview_props (store w) mediaConfig seekbarConfig)])
         w).
Proof. done. Qed.

(** The call, on an enabled wrapper, in terms of its merge. *)
Lemma setSeekbarConfig_eval F mediaConfig uiConfig st w :
  enabled w -> manager w = Some st ->
  let h := store w in
  let seekbarConfig := getPropertyPath h uiConfig "components.seekbar" in
  let hp := h ++ [Cell Plain (preview_props h mediaConfig seekbarConfig)] in
  invoke (S F) Proxy "setSeekbarConfig" [mediaConfig; uiConfig] w
  = match mergeDeep F (VLoc (S (length h))) [VLoc (length h); seekbarConfig]
            (hp ++ [Cell Plain []]) with
    | Done h' =>
        match F with
        | O => Throw RangeError (with_store h' w)
        | S _ =>
            Ok VUndef
              (served um_setConfig [VLoc (S (length h)); VStr "seekbar"] st
                 (with_store h' w))
        end
    | Raised e h' => Throw e (with_store h' w)
    | Exits x h' => Leaves x (with_store h' w)
    end.
Proof.
  intros He Hs h seekbarConfig hp.
  assert (Hlp : length hp = S (length h))
    by (unfold hp; rewrite length_app; simpl; lia).
  unfold invoke, bind at 1. rewrite get_Proxy_enabled by apply He.
  change (member (uiw w) "setSeekbarConfig") with (VMethod m_setSeekbarConfig).
  rewrite call_method. cbn [method_body arg nth].
  unfold setSeekbarConfig.
  unfold bind at 1. unfold Utils_Object_getPropertyPath.
  fold h. fold seekbarConfig.
  unfold bind at 1. rewrite getPreviewThumbnailConfig_eq.
  fold h. fold hp.
  unfold bind at 1.
  rewrite (get_method Proxy "setConfig" m_setConfig)
    by (try done; by apply enabled_with_store).
  unfold bind at 1. rewrite new_object_eq. cbn [store with_store]. rewrite Hlp.
  unfold bind at 1. unfold Utils_Object_mergeDeep. cbn [store with_store].
  destruct (mergeDeep F _ _ _) as [h'|e h'|x h']; [|done|done].
  destruct F as [|F]; [done|].
  unfold bind at 1. rewrite call_method. cbn [method_body arg nth].
  rewrite (setConfig_enabled _ _ _ st); [done| |done].
  repeat apply enabled_with_store. done.
Qed.

Lemma setSeekbarConfig_invoke F mediaConfig uiConfig st h' w :
  enabled w -> manager w = Some st ->
  let h := store w in
  let seekbarConfig := getPropertyPath h uiConfig "components.seekbar" in
  let hp := h ++ [Cell Plain (preview_props h mediaConfig seekbarConfig)] in
  mergeDeep (S F) (VLoc (S (length h))) [VLoc (length h); seekbarConfig]
    (hp ++ [Cell Plain []]) = Done h' ->
  invoke (S (S F)) Proxy "setSeekbarConfig" [mediaConfig; uiConfig] w
  = Ok VUndef
      (served um_setConfig [VLoc (S (length h)); VStr "seekbar"] st
         (with_store h' w)).
Proof.
  intros He Hs h seekbarConfig hp Hm.
  rewrite (setSeekbarConfig_eval _ _ _ st) by done.
  fold h seekbarConfig hp. by rewrite Hm.
Qed.

(** ** C8 *)

(** C8 (as amended).  On an enabled wrapper, with a seekbar configuration
    [uiConfig.components.seekbar] that is absent or a value of a store of
    data objects, nested [d] objects deep, and [d + 4] stack frames,
    [setSeekbarConfig(mediaConfig, uiConfig)] makes one call,
    [setConfig(merged, 'seekbar')], where [merged] is an object that did not
    exist before.  A property of the seekbar configuration that holds
    anything but an object to copy (a primitive, an array, a function, a class
    instance) is in [merged] with the seekbar configuration's value.  One
    that holds a plain object leaves a truthy default (or inherited method)
    of the same name in place, and is otherwise in [merged] as a new copy of
    that object.  Every other property of [merged] has its computed default
    ([thumbsSprite] from [getThumbSlicesUrl], [thumbsWidth =
    DEFAULT_THUMBS_WIDTH], [thumbsSlices = DEFAULT_THUMBS_SLICES]) or is not
    its own.  No object that existed before the call is changed, so neither
    [mediaConfig] nor [uiConfig] is. *)
Theorem seekbar_config_overrides_defaults d n mediaConfig uiConfig w :
  wrapper_at false w ->
  let h := store w in
  closedb h = true -> data_objects h = true -> validb h uiConfig = true ->
  let seekbarConfig := getPropertyPath h uiConfig "components.seekbar" in
  is_host seekbarConfig = false ->
  depth_leb d h seekbarConfig = true ->
  exists st h' merged,
    manager w = Some st
    /\ invoke (d + 4 + n) Proxy "setSeekbarConfig" [mediaConfig; uiConfig] w
       = Ok VUndef
           (served um_setConfig [VLoc merged; VStr "seekbar"] st
              (with_store h' w))
    /\ length h <= merged /\ isObject h' (VLoc merged) = true
    /\ (forall l, l < length h -> h' !! l = h !! l)
    /\ forall k,
         let dflt := preview_value h mediaConfig seekbarConfig k in
         let sv := read h seekbarConfig k in
         if isObject h seekbarConfig
            && bool_decide (k ∈ own_keys h seekbarConfig)
         then
           if by_value h sv then
             if truthy dflt then read h' (VLoc merged) k = dflt
             else exists l',
                    read h' (VLoc merged) k = VLoc l' /\ length h <= l'
                    /\ copied h h' l' (VLoc l') sv
           else read h' (VLoc merged) k = sv
         else read h' (VLoc merged) k = dflt.
Proof.
  intros Hw h Hcl Hdata Hv seekbarConfig Hnh Hd.
  apply wrapper_at_enabled in Hw. pose proof Hw as (_ & _ & [st Hst]).
  apply closedb_closed in Hcl.
  assert (Hvs : validb h seekbarConfig = true)
    by (by apply getPropertyPath_valid).
  set (pp := preview_props h mediaConfig seekbarConfig).
  set (hp := h ++ [Cell Plain pp]).
  set (hd := hp ++ [Cell Plain pp]).
  assert (Hlp : length hp = S (length h))
    by (unfold hp; rewrite length_app; simpl; lia).
  destruct (seekbar_merge (d + 3 + n) h mediaConfig seekbarConfig Hcl Hdata Hvs Hnh)
    as [Hr Hterm].
  destruct (Hterm d Hd) as [h' Hm]; [lia|].
  fold pp hp in Hm, Hr. rewrite Hm in Hr. fold hd in Hr.
  destruct Hr as [(Hi' & Hl' & Ho' & Hsame & Hout) Hval].
  assert (Hrd : forall k, read hd (VLoc (S (length h))) k
                          = preview_value h mediaConfig seekbarConfig k).
  { intros k. unfold read, hd. by rewrite <- Hlp, lookup_last. }
  exists st, h', (S (length h)). split_and!; try done.
  - replace (d + 4 + n) with (S (S (d + 2 + n))) by lia.
    apply (setSeekbarConfig_invoke _ mediaConfig uiConfig st h' w Hw Hst).
    fold h seekbarConfig pp hp.
    by replace (S (d + 2 + n)) with (d + 3 + n) by lia.
  - lia.
  - intros l Hl. rewrite (inv_old _ _ Hi') by lia. unfold hp.
    by rewrite lookup_app_l.
  - intros k. cbv zeta.
    destruct (isObject h seekbarConfig) eqn:Hso; cbn [andb].
    + case_bool_decide as Hin.
      * specialize (Hval k Hin). cbv zeta in Hval.
        unfold hp in Hval. rewrite read_app in Hval by done.
        rewrite by_value_app in Hval by (try done; by apply read_valid).
        fold hp in Hval. rewrite Hrd in Hval.
        destruct (by_value h (read h seekbarConfig k)); [|done].
        destruct (truthy (preview_value h mediaConfig seekbarConfig k)); [done|].
        destruct Hval as (l' & Hr' & Hge & Hcp). exists l'.
        split; [done|]. split.
        -- unfold hd in Hge. rewrite length_app in Hge. lia.
        -- apply (copied_base h [Cell Plain pp]); try done.
           by apply read_valid.
      * by rewrite Hout, Hrd.
    + subst h'. apply Hrd.
Qed.

(** ** Examples *)

Example split_dot_seekbar :
  split_dot "components.seekbar" = ["components"; "seekbar"].
Proof. reflexivity. Qed.

Example mergeDeep_later_source_wins :
  let h := [Cell Plain []; Cell Plain [("a", VNum 1); ("b", VNum 2)];
            Cell Plain [("b", VNum 3)]] in
  mergeDeep 3 (VLoc 0) [VLoc 1; VLoc 2] h
  = Done [Cell Plain [("a", VNum 1); ("b", VNum 3)];
          Cell Plain [("a", VNum 1); ("b", VNum 2)];
          Cell Plain [("b", VNum 3)]].
Proof. reflexivity. Qed.

(** A nested plain object is copied into a new object, not shared. *)
Example mergeDeep_copies_nested :
  let h := [Cell Plain []; Cell Plain [("a", VLoc 2)];
            Cell Plain [("b", VNum 3)]] in
  mergeDeep 4 (VLoc 0) [VLoc 1] h
  = Done [Cell Plain [("a", VLoc 3)]; Cell Plain [("a", VLoc 2)];
          Cell Plain [("b", VNum 3)]; Cell Plain [("b", VNum 3)]].
Proof. reflexivity. Qed.

(** An array and a class instance are assigned, and so shared. *)
Example mergeDeep_shares_array_and_instance :
  let h := [Cell Plain []; Cell Plain [("marks", VLoc 2); ("view", VLoc 3)];
            Cell Array [("0", VNum 7)];
            Cell Plain [("constructor", VNative "View")]] in
  mergeDeep 4 (VLoc 0) [VLoc 1] h
  = Done [Cell Plain [("marks", VLoc 2); ("view", VLoc 3)];
          Cell Plain [("marks", VLoc 2); ("view", VLoc 3)];
          Cell Array [("0", VNum 7)];
          Cell Plain [("constructor", VNative "View")]].
Proof. reflexivity. Qed.

(** A plain object does not replace a truthy primitive already in the
    target. *)
Example mergeDeep_object_over_primitive :
  let h := [Cell Plain []; Cell Plain [("thumbsWidth", VNum 164)];
            Cell Plain [("thumbsWidth", VLoc 3)]; Cell Plain []] in
  exists h', mergeDeep 4 (VLoc 0) [VLoc 1; VLoc 2] h = Done h'
             /\ read h' (VLoc 0) "thumbsWidth" = VNum 164.
Proof. eexists. split; reflexivity. Qed.

(** Nor a method the target inherits from [Object.prototype]. *)
Example mergeDeep_object_over_inherited_method :
  let h := [Cell Plain []; Cell Plain [("toString", VLoc 2)];
            Cell Plain [("a", VNum 1)]] in
  mergeDeep 4 (VLoc 0) [VLoc 1] h = Done h.
Proof. reflexivity. Qed.

(** An own property [__proto__] of the source: a primitive is dropped by the
    setter of [Object.prototype.__proto__]; a plain object is merged into
    [Object.prototype]; [null] would become the prototype of the target. *)
Example mergeDeep_proto_primitive :
  let h := [Cell Plain []; Cell Plain [("__proto__", VNum 5); ("a", VNum 1)]] in
  mergeDeep 3 (VLoc 0) [VLoc 1] h
  = Done [Cell Plain [("a", VNum 1)];
          Cell Plain [("__proto__", VNum 5); ("a", VNum 1)]].
Proof. reflexivity. Qed.

Example mergeDeep_proto_object :
  let h := [Cell Plain []; Cell Plain [("__proto__", VLoc 2)];
            Cell Plain [("polluted", VBool true)]] in
  mergeDeep 4 (VLoc 0) [VLoc 1] h
  = Exits (WritesObjectPrototype "polluted" (VBool true)) h.
Proof. reflexivity. Qed.

Example mergeDeep_proto_null :
  let h := [Cell Plain []; Cell Plain [("__proto__", VNull)]] in
  mergeDeep 3 (VLoc 0) [VLoc 1] h = Exits (SetsPrototype (VLoc 0) VNull) h.
Proof. reflexivity. Qed.

(** A cyclic source exhausts the stack, here one of 200 frames; the objects
    created on the way stay. *)
Example mergeDeep_cyclic_source :
  exists h',
    mergeDeep 200 (VLoc 0) [VLoc 1] [Cell Plain []; Cell Plain [("a", VLoc 1)]]
    = Raised RangeError h'
    /\ length h' = 202.
Proof. eexists. split; vm_compute; reflexivity. Qed.

(** * Further properties of the wrapper *)

(** ** [destroy] *)

Lemma run_snoc ops o w : run (ops ++ [o]) w = step (run ops w) o.
Proof. unfold run. by rewrite fold_left_app. Qed.

Lemma wrapper_at_step d w o : wrapper_at d w -> wrapper_at d (step w o).
Proof.
  intros (fuel & player & options & w0 & w1 & ops & Hc & Hd & ->).
  exists fuel, player, options, w0, w1, (ops ++ [o]).
  split; [done|]. split; [done|]. by rewrite run_snoc.
Qed.

(** X1.  On an enabled wrapper [destroy()] makes one call, the UI manager's
    [destroy()], and returns [undefined].  The wrapper keeps no record of it:
    the state it leaves is again that of an enabled wrapper, so later calls
    are still forwarded to the destroyed manager. *)
Theorem destroy_is_forwarded w :
  wrapper_at false w ->
  exists st,
    manager w = Some st
    /\ forall n args,
         invoke (S n) Proxy "destroy" args w
         = Ok VUndef (served um_destroy [] st w)
         /\ wrapper_at false (served um_destroy [] st w).
Proof.
  intros Hw. pose proof (wrapper_at_enabled _ Hw) as He.
  pose proof He as (Hd & Hm & [st Hs]). exists st. split; [done|].
  intros n args.
  assert (Hi : invoke (S n) Proxy "destroy" args w
               = Ok VUndef (served um_destroy [] st w)).
  { unfold invoke, bind. rewrite get_Proxy_enabled by done. simpl.
    unfold destroy, bind. rewrite get_uiManager by done.
    by rewrite (um_invoke_manager _ _ st). }
  split; [done|].
  apply (wrapper_at_step false w (Invoke (S n) Proxy "destroy" args)) in Hw.
  simpl in Hw. by rewrite Hi in Hw.
Qed.

(** ** The constructor on malformed options *)

(** X2.  When [options] or [options.ui] is [undefined] or [null] the
    constructor throws a [TypeError] before it does anything: no UI manager
    is constructed, nothing is appended, loaded or logged, and the instance
    is in its initial state. *)
Theorem constructor_without_ui_throws fuel player options w :
  nullish options = true \/ nullish (read (store w) options "ui") = true ->
  constructor fuel player options w
  = Throw TypeError (with_uiw fresh_instance w).
Proof.
  intros H. unfold constructor, bind. simpl.
  destruct (nullish options) eqn:Ho.
  { by destruct options. }
  destruct H as [H|H]; [done|].
  rewrite get_prop_ok by done. simpl.
  by destruct (read (store w) options "ui").
Qed.

(** X3.  The default [config = {}] of [_handleVr] applies to [undefined]
    only.  A constructor call with [ui.disable] falsy and [options.plugins]
    equal to [null] throws a [TypeError] in [_handleVr]: the UI manager has
    been constructed and asked to build the UI, and the style sheet load is
    never started. *)
Theorem constructor_with_null_plugins_throws n player options config w :
  ui_config (store w) options config ->
  truthy (read (store w) config "disable") = false ->
  read (store w) options "plugins" = VNull ->
  constructor (S n) player options w
  = Throw TypeError (built player config w).
Proof.
  intros Hu Hd Hp.
  rewrite (constructor_enabled _ _ _ _ _ Hu Hd), Hp.
  unfold bind at 1. by rewrite call_method.
Qed.

(** ** What no history does *)

Lemma frame_history_step w o :
  document (step w o) = document w
  /\ exists evs, trace (step w o) = trace w ++ evs
                 /\ forallb history_event evs = true.
Proof.
  destruct o as [fuel this prop args|i o]; simpl.
  - destruct (frames_invoke fuel this prop args w) as (_ & Hd & _ & evs & Ht & He).
    split; [done|]. exists evs. split; [done|].
    rewrite forallb_forall in *. intros e Hin. unfold history_event.
    by rewrite (He e Hin).
  - unfold settle. destruct (pending w !! i) as [r|]; simpl.
    + destruct o, r as [[] []]; simpl; (split; [done|]); by eexists [_].
    + split; [done|]. exists []. by rewrite app_nil_r.
Qed.

(** X4.  Once a wrapper exists, no history of calls (any property, any
    arguments, on the Proxy or on the instance, returning or throwing) and
    settled promises constructs a UI manager, calls [buildCustomUI] or
    [buildDefaultUI], or appends to the document.  The document stays as it
    was; what a history adds to the outside calls are UI manager calls other
    than the builders, style sheet loads, and the log lines of the style
    sheet callbacks. *)
Theorem histories_never_build_or_append ops w :
  document (run ops w) = document w
  /\ exists evs,
       trace (run ops w) = trace w ++ evs
       /\ forallb history_event evs = true.
Proof.
  induction ops as [|o ops IH] using rev_ind.
  - split; [done|]. exists []. by rewrite app_nil_r.
  - rewrite run_snoc. destruct IH as (Hd & evs & Ht & He).
    destruct (frame_history_step (run ops w) o) as (Hd' & evs' & Ht' & He').
    split; [congruence|]. exists (evs ++ evs'). split.
    + by rewrite Ht', Ht, app_assoc.
    + by rewrite forallb_app, He, He'.
Qed.

(** ** The Proxy on an enabled wrapper *)

Lemma same_refl {A} (c : JS A) : same_when_enabled c c.
Proof. by intros w _. Qed.

Lemma same_bind {A B} (c1 c2 : JS A) (k1 k2 : A -> JS B) :
  same_when_enabled c1 c2 -> frames c1 ->
  (forall a, same_when_enabled (k1 a) (k2 a)) ->
  same_when_enabled (bind c1 k1) (bind c2 k2).
Proof.
  intros Hc Hf Hk w Hd. unfold bind. rewrite <- (Hc w Hd).
  destruct (Hf w) as (Hu & _). destruct (c1 w) as [a w'|e w'|x w']; [|done|done].
  apply Hk. simpl in Hu. by rewrite Hu.
Qed.

Lemma same_get prop : same_when_enabled (get Proxy prop) (get Target prop).
Proof. intros w Hd. by apply get_Proxy_enabled. Qed.

Ltac same_step :=
  first
    [ apply same_get
    | match goal with
      | H : forall f args, same_when_enabled _ _ |- _ => apply H
      end
    | apply same_refl
    | apply same_bind; [|solve [repeat frames_step]|intros ?]
    | match goal with
      | |- same_when_enabled (if ?b then _ else _) _ => destruct b
      | |- same_when_enabled (match ?x with _ => _ end) _ => destruct x
      end ].

Lemma same_method_body fuel (call' : value -> receiver -> list value -> JS value) :
  (forall f this args, frames (call' f this args)) ->
  (forall f args, same_when_enabled (call' f Proxy args) (call' f Target args)) ->
  forall m args,
    same_when_enabled (method_body fuel call' m Proxy args)
      (method_body fuel call' m Target args).
Proof.
  intros Hframes Hcall m args.
  destruct m; cbv [method_body destroy reset setConfig addComponent
    registerManager getManager hasManager _resetErrorState setSeekbarConfig
    setLoadingSpinnerState _handleExternalCSS _setStereoConfig _handleVr];
    repeat same_step.
Qed.

Lemma same_call fuel : forall f args,
  same_when_enabled (call fuel f Proxy args) (call fuel f Target args).
Proof.
  induction fuel as [|n IH]; intros f args; [apply same_refl|].
  destruct f; simpl; try apply same_refl.
  apply same_method_body; [intros; apply frames_call|done].
Qed.

(** X5.  On a wrapper whose [_disabled] is [false] the Proxy is transparent:
    reading a property through it gives what the instance has, and calling a
    property through it does exactly what the call on the instance does, for
    every property, every argument list and every stack depth, the calls the
    method makes on [this] included. *)
Theorem proxy_is_transparent_when_enabled fuel prop args w :
  _disabled (uiw w) = false ->
  get Proxy prop w = Ok (member (uiw w) prop) w
  /\ invoke fuel Proxy prop args w = invoke fuel Target prop args w.
Proof.
  intros Hd. split; [by apply get_Proxy_enabled|].
  revert w Hd. change (same_when_enabled (invoke fuel Proxy prop args)
                         (invoke fuel Target prop args)).
  apply same_bind; [apply same_get|apply frames_get|].
  intros f. apply same_call.
Qed.

(** ** The instance behind a disabled wrapper *)

Lemma wrapper_at_disabled_fields w :
  wrapper_at true w -> uiw w = {| _uiManager := VUndef; _disabled := true |}.
Proof.
  intros (fuel & player & options & w0 & w1 & ops & Hc & Hd & ->).
  rewrite uiw_run. rewrite constructor_disabled in Hc by done.
  destruct (player_view player) as [view|]; [|done].
  unfold appendPlayerViewToTargetContainer in Hc.
  destruct (getElementById _ _); by injection Hc as <-.
Qed.

(** X6.  Behind a disabled wrapper there is no UI manager: the same calls
    made on the bare instance, which the Proxy never lets through, throw a
    [TypeError] for [destroy], [setConfig], [addComponent], [registerManager],
    [getManager] and [hasManager], and change nothing. *)
Theorem bare_disabled_instance_throws w :
  wrapper_at true w ->
  forall n args prop,
    prop ∈ ["destroy"; "setConfig"; "addComponent"; "registerManager";
            "getManager"; "hasManager"] ->
    invoke (S n) Target prop args w = Throw TypeError w.
Proof.
  intros Hw n args prop Hin. apply wrapper_at_disabled_fields in Hw.
  unfold invoke, bind. simpl get. rewrite Hw.
  rewrite !elem_of_cons in Hin.
  destruct Hin as [->|[->|[->|[->|[->|[->|Hin]]]]]];
    [..|by apply elem_of_nil in Hin];
    simpl; cbv [destroy setConfig addComponent registerManager getManager
                hasManager bind get member]; simpl; by rewrite Hw.
Qed.

(** ** The order of the constructor's outside calls *)

(** X7.  A constructor call with [ui.disable] falsy and a plugins
    configuration that is an object or absent makes its outside calls in this
    order and makes no other: [new UIManager(player, config)], one of the two
    build calls, then [setConfig(_, 'vrStereo')] when stereo mode is
    configured, then the load of [config.css] when it is truthy. *)
Theorem constructor_outside_calls_in_order n player options config w :
  ui_config (store w) options config ->
  truthy (read (store w) config "disable") = false ->
  let h := store w in
  let plugins := read h options "plugins" in
  plugins <> VNull ->
  closedb h = true -> validb h options = true ->
  let customPreset := read h config "customPreset" in
  let vr := read h plugins "vr" in
  let toggleStereo := read h vr "toggleStereo" in
  let css := read h config "css" in
  exists w1,
    constructor (4 + n) player options w = Ok Proxy w1
    /\ trace w1
       = trace w
         ++ [ENewUIManager player config;
             if truthy customPreset
             then EUIManager um_buildCustomUI [customPreset]
             else EUIManager um_buildDefaultUI []]
         ++ (if truthy vr && negb (truthy (read h vr "disable"))
                && (truthy toggleStereo
                    || ((Env_isMobile || Env_isTablet)
                        && negb (strict_eq toggleStereo (VBool false))))
             then [EUIManager um_setConfig [VLoc (length h); VStr "vrStereo"]]
             else [])
         ++ (if truthy css then [ELoadStyleSheetAsync css] else []).
Proof.
  intros Hu Hd h plugins Hnull Hcl Hv customPreset vr toggleStereo css.
  apply closedb_closed in Hcl. subst css toggleStereo vr customPreset plugins h.
  eexists. split; [by apply constructor_enabled_eval|].
  assert (Hvc : validb (store w) config = true).
  { destruct Hu as (_ & -> & _). by apply read_valid. }
  set (wb := built player config w).
  assert (Htb : trace wb
                = trace w
                  ++ [ENewUIManager player config;
                      if truthy (read (store w) config "customPreset")
                      then EUIManager um_buildCustomUI [read (store w) config "customPreset"]
                      else EUIManager um_buildDefaultUI []]).
  { unfold wb, built, build_call.
    destruct (truthy (read (store w) config "customPreset")); simpl;
      by rewrite <- app_assoc. }
  assert (Hsb : store wb = store w) by apply store_built.
  destruct (enabled_built player config w) as (_ & _ & [st Hst]).
  fold wb in Hst.
  destruct (store_after_handleVr (read (store w) options "plugins") wb)
    as (cells & Hs2).
  rewrite Hsb in Hs2.
  unfold after_handleExternalCSS. cbv zeta. rewrite Hs2, read_app by done.
  assert (Hvt : trace (after_handleVr (read (store w) options "plugins") wb)
                = trace wb
                  ++ (if truthy (read (store w) (read (store w) options "plugins") "vr")
                         && negb (truthy (read (store w)
                                            (read (store w) (read (store w) options "plugins") "vr")
                                            "disable"))
                         && (truthy (read (store w)
                                       (read (store w) (read (store w) options "plugins") "vr")
                                       "toggleStereo")
                             || ((Env_isMobile || Env_isTablet)
                                 && negb (strict_eq
                                            (read (store w)
                                               (read (store w) (read (store w) options "plugins") "vr")
                                               "toggleStereo")
                                            (VBool false))))
                      then [EUIManager um_setConfig [VLoc (length (store w)); VStr "vrStereo"]]
                      else [])).
  { unfold after_handleVr. cbv zeta. rewrite Hsb, Hst.
    destruct (_ && _); [done|].
    rewrite app_nil_r. by destruct (read (store w) options "plugins"). }
  clearbody wb.
  destruct (truthy (read (store w) config "css")); simpl.
  - by rewrite Hvt, Htb, <- !app_assoc.
  - by rewrite Hvt, Htb, app_nil_r, <- !app_assoc.
Qed.

(** ** Existing objects are never written *)

Lemma grows_ret {A} (a : A) : grows (ret a).
Proof. intros w. split; [apply extends_refl|done]. Qed.

Lemma grows_throw {A} e : grows (throw (A:=A) e).
Proof. intros w. split; [apply extends_refl|done]. Qed.

Lemma grows_same_store {A} (c : JS A) :
  (forall w, store (world_of (c w)) = store w /\ stays (c w)) -> grows c.
Proof. intros H w. destruct (H w) as [-> ?]. split; [apply extends_refl|done]. Qed.

Lemma grows_bind {A B} (c : JS A) (k : A -> JS B) :
  grows c -> (forall a, grows (k a)) -> grows (bind c k).
Proof.
  intros Hc Hk w. unfold bind. destruct (Hc w) as [He Hs].
  destruct (c w) as [a w'|e w'|x w']; simpl in *; [|done|done].
  destruct (Hk a w') as [He' Hs']. split; [|done].
  by eapply extends_trans.
Qed.

(** What [this[prop]] can be: the no-op function or a member of the
    instance. *)
Lemma grows_bind_get {B} this prop (k : value -> JS B) :
  grows (k VNoop) -> (forall o, grows (k (member o prop))) ->
  grows (bind (get this prop) k).
Proof.
  intros Hn Hm w. unfold bind.
  destruct this; simpl; [apply Hm|].
  unfold proxy_get. destruct (_disabled (uiw w)); [apply Hn|apply Hm].
Qed.

Lemma grows_get this prop : grows (get this prop).
Proof.
  apply grows_same_store. intros w. destruct this; simpl; [done|].
  unfold proxy_get. by destruct (_disabled (uiw w)).
Qed.

Lemma grows_get_prop o k : grows (get_prop o k).
Proof. apply grows_same_store. intros w. by destruct o. Qed.

Lemma grows_new_object ps : grows (new_object ps).
Proof. intros w. split; [apply extends_app|done]. Qed.

Lemma grows_um_invoke um m args : grows (um_invoke um m args).
Proof.
  apply grows_same_store. intros w. unfold um_invoke. destruct um; try done.
  destruct (manager w) as [st|]; [|done].
  by destruct (um_call m args (store w) st).
Qed.

Lemma grows_getPropertyPath o path : grows (Utils_Object_getPropertyPath o path).
Proof. by apply grows_same_store. Qed.

Lemma grows_getPreviewThumbnailConfig m s : grows (getPreviewThumbnailConfig m s).
Proof. intros w. split; [apply extends_app|done]. Qed.

Lemma grows_loadStyleSheetAsync_then url f g :
  grows (loadStyleSheetAsync_then url f g).
Proof. by apply grows_same_store. Qed.

Lemma grows_player_getView player : grows (player_getView player).
Proof.
  apply grows_same_store. intros w. rewrite player_getView_eq.
  by destruct (player_view player).
Qed.

Lemma grows_appendPlayerViewToTargetContainer targetId view :
  grows (appendPlayerViewToTargetContainer targetId view).
Proof.
  apply grows_same_store. intros w. unfold appendPlayerViewToTargetContainer.
  by destruct (getElementById _ _).
Qed.

Lemma grows_at {A} (c : JS A) w r :
  c w = r -> extends (store w) (store (world_of r)) -> stays r ->
  extends (store w) (store (world_of (c w))) /\ stays (c w).
Proof. by intros ->. Qed.

(** The merge of [_setStereoConfig]: its target and its source are both new,
    and the source holds a boolean. *)
Lemma grows_stereo_merge {B} fuel vrConfig (k : value -> JS B) :
  (forall a, grows (k a)) ->
  grows (target <- new_object [];;
         startInStereo <- get_prop vrConfig "startInStereo";;
         source <- new_object [("vrStereoMode", VBool (truthy startInStereo))];;
         merged <- Utils_Object_mergeDeep fuel target [source];;
         k merged).
Proof.
  intros Hk w.
  destruct (nullish vrConfig) eqn:Hn.
  { destruct vrConfig; try done;
      (eapply grows_at; [reflexivity|apply extends_app|done]). }
  assert (Hstep : forall (k' : value -> JS B),
    (target <- new_object [];;
     startInStereo <- get_prop vrConfig "startInStereo";;
     source <- new_object [("vrStereoMode", VBool (truthy startInStereo))];;
     merged <- Utils_Object_mergeDeep fuel target [source];;
     k' merged) w
    = let b := truthy (read (store w ++ [Cell Plain []]) vrConfig "startInStereo") in
      let w' := with_store (store w ++ [Cell Plain []; Cell Plain [("vrStereoMode", VBool b)]])
                  (with_store (store w ++ [Cell Plain []]) w) in
      match mergeDeep fuel (VLoc (length (store w))) [VLoc (S (length (store w)))]
              (store w ++ [Cell Plain []; Cell Plain [("vrStereoMode", VBool b)]]) with
      | Done h => k' (VLoc (length (store w))) (with_store h w')
      | Raised e h => Throw e (with_store h w')
      | Exits x h => Leaves x (with_store h w')
      end).
  { intros k'. unfold bind at 1. rewrite new_object_eq.
    unfold bind at 1. rewrite get_prop_ok by done. cbn [store with_store].
    unfold bind at 1. rewrite new_object_eq. cbn [store with_store].
    unfold bind at 1. unfold Utils_Object_mergeDeep. cbn [store with_store].
    rewrite length_app. cbn [length]. rewrite Nat.add_1_r.
    rewrite <- app_assoc. cbn [app]. cbv zeta.
    by destruct (mergeDeep _ _ _ _). }
  rewrite Hstep. cbv zeta.
  destruct fuel as [|[|n]].
  - simpl. split; [apply (extends_app _ [_; _])|done].
  - cbn [mergeDeep]. rewrite merge_source_stereo. simpl.
    split; [apply (extends_app _ [_; _])|done].
  - rewrite mergeDeep_stereo.
    match goal with
    | |- context [k ?a ?w'] => destruct (Hk a w') as [He Hs]
    end.
    split; [|done]. eapply extends_trans; [|exact He].
    simpl. apply (extends_app _ [_; _]).
Qed.

Create HintDb grows.
#[local] Hint Resolve grows_ret grows_throw grows_get grows_get_prop
  grows_new_object grows_um_invoke grows_getPropertyPath
  grows_getPreviewThumbnailConfig grows_loadStyleSheetAsync_then : grows.

Ltac grows_step :=
  first
    [ solve [auto with grows]
    | match goal with
      | H : forall f this args, _ -> grows _ |- grows (bind (_ _ _ _) _) =>
          apply grows_bind; [apply H; by cbv|intros ?]
      end
    | apply grows_stereo_merge; intros ?
    | apply grows_bind_get; [|intros ?]
    | apply grows_bind; [|intros ?]
    | match goal with
      | |- grows (if ?b then _ else _) => destruct b
      | |- grows (match ?x with _ => _ end) => destruct x
      end ].

Lemma grows_method_body fuel (call' : value -> receiver -> list value -> JS value) :
  (forall f this args, f <> VMethod m_setSeekbarConfig ->
     grows (call' f this args)) ->
  forall m this args,
    m <> m_setSeekbarConfig -> grows (method_body fuel call' m this args).
Proof.
  intros Hcall m this args Hm.
  destruct m; try done;
    cbv [method_body destroy reset setConfig addComponent
      registerManager getManager hasManager _resetErrorState
      setLoadingSpinnerState _handleExternalCSS _setStereoConfig _handleVr];
    repeat grows_step.
Qed.

Lemma grows_call fuel : forall f this args,
  f <> VMethod m_setSeekbarConfig -> grows (call fuel f this args).
Proof.
  induction fuel as [|n IH]; intros f this args Hf; [apply grows_throw|].
  destruct f; simpl; auto with grows.
  apply grows_method_body; [done|congruence].
Qed.

Lemma member_setConfig o : member o "setConfig" = VMethod m_setConfig.
Proof. done. Qed.

Lemma grows_setSeekbarConfig fuel this mediaConfig uiConfig w :
  closed (store w) -> data_objects (store w) = true ->
  validb (store w) uiConfig = true ->
  is_host (getPropertyPath (store w) uiConfig "components.seekbar") = false ->
  let r := setSeekbarConfig fuel (call fuel) this mediaConfig uiConfig w in
  extends (store w) (store (world_of r)) /\ stays r.
Proof.
  intros Hc Hdata Hv Hnh. set (h := store w).
  set (seekbarConfig := getPropertyPath h uiConfig "components.seekbar").
  set (pp := preview_props h mediaConfig seekbarConfig).
  set (hp := h ++ [Cell Plain pp]).
  assert (Hvs : validb h seekbarConfig = true)
    by (by apply getPropertyPath_valid).
  assert (Hlp : length hp = S (length h))
    by (unfold hp; rewrite length_app; simpl; lia).
  set (wp := with_store hp w).
  assert (Hrest : forall f,
            f <> VMethod m_setSeekbarConfig ->
            exists r,
              (target <- new_object [];;
               merged <- Utils_Object_mergeDeep fuel target
                           [VLoc (length h); seekbarConfig];;
               call fuel f this [merged; VStr "seekbar"];;;
               ret VUndef) wp = r
              /\ extends h (store (world_of r)) /\ stays r).
  { intros f Hf.
    destruct (seekbar_merge fuel h mediaConfig seekbarConfig Hc Hdata Hvs Hnh)
      as [Hr _].
    fold pp hp in Hr.
    destruct (mergeDeep fuel (VLoc (S (length h))) [VLoc (length h); seekbarConfig]
                (hp ++ [Cell Plain []])) as [h'|e h'|x h'] eqn:Hm; [| |done].
    - destruct Hr as [(Hi' & _) _].
      assert (He : extends h h').
      { eapply extends_trans; [apply (extends_app h [Cell Plain pp])|].
        by apply extends_of_merge_inv. }
      assert (Hg : grows (call fuel f this [VLoc (S (length h)); VStr "seekbar"];;;
                          ret VUndef)).
      { apply grows_bind; [by apply grows_call|]. intros _. apply grows_ret. }
      destruct (Hg (with_store h' (with_store (hp ++ [Cell Plain []]) wp)))
        as [He' Hs'].
      eexists. split; [|split].
      + unfold bind at 1. rewrite new_object_eq. cbn [wp store with_store].
        rewrite Hlp.
        unfold bind at 1. unfold Utils_Object_mergeDeep. cbn [store with_store].
        rewrite Hm. reflexivity.
      + eapply extends_trans; [exact He|exact He'].
      + exact Hs'.
    - destruct Hr as [_ He].
      eexists. split; [|split].
      + unfold bind at 1. rewrite new_object_eq. cbn [wp store with_store].
        rewrite Hlp.
        unfold bind at 1. unfold Utils_Object_mergeDeep. cbn [store with_store].
        rewrite Hm. reflexivity.
      + exact He.
      + done. }
  assert (Hget : exists f, f <> VMethod m_setSeekbarConfig
                           /\ get this "setConfig" wp = Ok f wp).
  { destruct this; simpl get.
    - exists (VMethod m_setConfig). by rewrite member_setConfig.
    - unfold proxy_get. cbn [wp uiw with_store].
      destruct (_disabled (uiw w)); [by exists VNoop|].
      exists (VMethod m_setConfig). by rewrite member_setConfig. }
  destruct Hget as (f & Hf & Hg). destruct (Hrest f Hf) as (r & Er & He & Hs).
  cbv zeta. apply (grows_at _ _ r); [|exact He|exact Hs].
  unfold setSeekbarConfig.
  unfold bind at 1. unfold Utils_Object_getPropertyPath.
  fold h. fold seekbarConfig.
  unfold bind at 1. rewrite getPreviewThumbnailConfig_eq.
  fold h. fold pp. fold hp. fold wp.
  unfold bind at 1. rewrite Hg. exact Er.
Qed.

(** X8.  Whatever the options, the constructor writes to no object that
    existed before the call: it only reads [options], and the objects it
    creates (the default [{}] of [_handleVr], the stereo configuration) are
    new.  This holds whether it returns or throws. *)
Theorem constructor_writes_no_existing_object fuel player options w :
  extends (store w) (store (world_of (constructor fuel player options w))).
Proof.
  revert w.
  assert (Hg : grows (constructor fuel player options)); [|intros w; apply Hg].
  unfold constructor.
  apply grows_bind; [by apply grows_same_store|]. intros _.
  apply grows_bind; [apply grows_get_prop|]. intros config.
  apply grows_bind; [apply grows_get_prop|]. intros disable.
  apply grows_bind; [|intros _; apply grows_ret].
  destruct (truthy disable).
  - apply grows_bind; [by apply grows_same_store|]. intros _.
    apply grows_bind; [apply grows_get_prop|]. intros targetId.
    apply grows_bind; [apply grows_player_getView|]. intros view.
    apply grows_appendPlayerViewToTargetContainer.
  - apply grows_bind; [by apply grows_same_store|]. intros um.
    apply grows_bind; [by apply grows_same_store|]. intros _.
    apply grows_bind; [apply grows_get_prop|]. intros customPreset.
    apply grows_bind.
    { destruct (truthy customPreset);
        (apply grows_bind; [apply grows_get|intros ?; apply grows_um_invoke]). }
    intros _.
    apply grows_bind_get; [|intros o];
      (apply grows_bind; [apply grows_get_prop|]; intros plugins;
       apply grows_bind; [by apply grows_call|]; intros _;
       apply grows_bind_get; [|intros o'];
       by apply grows_call).
Qed.

(** X9.  On a store of data objects without dangling references, a call of
    any property of the wrapper, on the Proxy or on the instance, with any
    arguments that are values of that store (the seekbar configuration, when
    the second argument has one, not being a host value), writes to no object
    that existed before the call, and neither writes [Object.prototype] nor
    changes a prototype: configuration objects handed to [setConfig],
    [setSeekbarConfig] or any other method are only read, and what the
    wrapper passes on to the UI manager under its own aliases are new
    objects.  This holds whether the call returns or throws. *)
Theorem calls_write_no_existing_object fuel this prop args w :
  closedb (store w) = true -> data_objects (store w) = true ->
  Forall (fun a => validb (store w) a = true) args ->
  is_host (getPropertyPath (store w) (arg 1 args) "components.seekbar") = false ->
  let r := invoke fuel this prop args w in
  extends (store w) (store (world_of r)) /\ stays r.
Proof.
  intros Hc Hdata Hv Hnh. apply closedb_closed in Hc.
  assert (Hcall : forall f,
            let r := call fuel f this args w in
            extends (store w) (store (world_of r)) /\ stays r).
  { intros f. destruct (decide (f = VMethod m_setSeekbarConfig)) as [->|Hf];
      [|by apply grows_call].
    destruct fuel as [|n]; [split; [apply extends_refl|done]|].
    cbv zeta. rewrite call_method. cbn [method_body].
    assert (Hv1 : validb (store w) (arg 1 args) = true).
    { unfold arg. destruct args as [|a0 [|a1 rest]]; try done.
      inversion Hv as [|? ? _ Hv']; subst. by inversion Hv'. }
    (* the method's own calls are made one frame down *)
    exact (grows_setSeekbarConfig n this (arg 0 args) (arg 1 args) w Hc Hdata
             Hv1 Hnh). }
  cbv zeta. unfold invoke, bind. destruct this; simpl get; [apply Hcall|].
  unfold proxy_get. destruct (_disabled (uiw w)); apply Hcall.
Qed.

(** ** [setSeekbarConfig] when the stack runs out *)

(** X10.  On an enabled wrapper and a store of data objects,
    [setSeekbarConfig] is all or nothing towards the UI manager, whatever the
    stack depth and however deep, or cyclic, the seekbar configuration is:
    either it returns [undefined] after exactly one [setConfig(merged,
    'seekbar')], or it throws a [RangeError] (the stack ran out, in the merge
    or before it) without any call to the UI manager; the merge is evaluated
    before [setConfig] is called.  In both cases only new objects were
    created or written. *)
Theorem seekbar_config_all_or_nothing fuel mediaConfig uiConfig w :
  wrapper_at false w ->
  let h := store w in
  closedb h = true -> data_objects h = true -> validb h uiConfig = true ->
  is_host (getPropertyPath h uiConfig "components.seekbar") = false ->
  exists st,
    manager w = Some st
    /\ match invoke fuel Proxy "setSeekbarConfig" [mediaConfig; uiConfig] w with
       | Ok v w' =>
           v = VUndef
           /\ exists h' merged,
                w' = served um_setConfig [VLoc merged; VStr "seekbar"] st
                       (with_store h' w)
                /\ extends h h'
       | Throw e w' =>
           e = RangeError /\ exists h', w' = with_store h' w /\ extends h h'
       | Leaves _ _ => False
       end.
Proof.
  intros Hw h Hcl Hdata Hv Hnh.
  apply wrapper_at_enabled in Hw. pose proof Hw as (Hd & _ & [st Hst]).
  apply closedb_closed in Hcl.
  exists st. split; [done|].
  destruct fuel as [|F].
  { unfold invoke, bind. rewrite get_Proxy_enabled by done. simpl.
    split; [done|]. exists h. split; [by destruct w|apply extends_refl]. }
  rewrite (setSeekbarConfig_eval _ _ _ st) by done. fold h.
  set (seekbarConfig := getPropertyPath h uiConfig "components.seekbar") in *.
  assert (Hvs : validb h seekbarConfig = true)
    by (by apply getPropertyPath_valid).
  destruct (seekbar_merge F h mediaConfig seekbarConfig Hcl Hdata Hvs Hnh)
    as [Hr _].
  destruct (mergeDeep F _ _ _) as [h'|e h'|x h']; [| |done].
  - destruct Hr as [(Hi' & _) _].
    assert (He : extends h h').
    { eapply extends_trans;
        [apply (extends_app h [Cell Plain (preview_props h mediaConfig seekbarConfig)])|].
      by apply extends_of_merge_inv. }
    destruct F as [|F]; [split; [done|]; by exists h'|].
    split; [done|]. by exists h', (S (length h)).
  - destruct Hr as [-> He]. split; [done|]. by exists h'.
Qed.

End Properties.

(** ** The properties on the concrete host *)

Lemma demo_disabled_wrapper : wrapper_at true demo_disabled.
Proof.
  exists 5, demo_player, (VLoc 6), demo_world, demo_disabled, [].
  split; [vm_compute; reflexivity|]. split; vm_compute; reflexivity.
Defined.

Lemma demo_enabled_wrapper : wrapper_at false demo_enabled.
Proof.
  exists 5, demo_player, (VLoc 0), demo_world, demo_enabled, [].
  split; [vm_compute; reflexivity|]. split; vm_compute; reflexivity.
Defined.

Lemma demo_ui_config : ui_config demo_store (VLoc 0) (VLoc 1).
Proof. repeat split. Defined.

(** C1 as first stated does not hold: on the disabled wrapper of the
    concrete host, reading a property through the Proxy does not yield
    [undefined]; it yields the function [() => undefined]. *)
Lemma disabled_property_read_is_not_undefined :
  wrapper_at true demo_disabled
  /\ get Proxy "_disabled" demo_disabled = Ok VNoop demo_disabled
  /\ get Proxy "_disabled" demo_disabled <> Ok VUndef demo_disabled.
Proof.
  split; [exact demo_disabled_wrapper|]. split; [reflexivity|].
  vm_compute. discriminate.
Qed.

Lemma disabled_wrapper_is_inert_witness :
  wrapper_at true demo_disabled
  /\ get Proxy "destroy" demo_disabled = Ok VNoop demo_disabled
  /\ invoke 1 Proxy "destroy" [] demo_disabled = Ok VUndef demo_disabled.
Proof.
  split; [exact demo_disabled_wrapper|].
  destruct (disabled_wrapper_is_inert demo_disabled demo_disabled_wrapper "destroy")
    as [Hget Hcall].
  split; [exact Hget|exact (Hcall 0 [])].
Defined.

Lemma configuration_calls_are_forwarded_witness :
  wrapper_at false demo_enabled
  /\ exists st,
       manager demo_enabled = Some st
       /\ invoke 1 Proxy "hasManager" [VStr "timeline"] demo_enabled
          = Ok (answer um_hasManager [VStr "timeline"] st demo_enabled)
               (served um_hasManager [VStr "timeline"] st demo_enabled).
Proof.
  split; [exact demo_enabled_wrapper|].
  destruct (configuration_calls_are_forwarded demo_enabled demo_enabled_wrapper)
    as (st & Hst & Hall).
  exists st. split; [exact Hst|].
  exact (proj2 (proj2 (proj2 (proj2 (Hall 0 [VStr "timeline"]))))).
Defined.

Lemma fields_are_fixed_at_construction_witness :
  constructor 5 demo_player (VLoc 6) demo_world = Ok Proxy demo_disabled
  /\ _disabled (uiw demo_disabled) = true
  /\ forall ops, uiw (run ops demo_disabled) = uiw demo_disabled.
Proof.
  assert (H : constructor 5 demo_player (VLoc 6) demo_world = Ok Proxy demo_disabled)
    by (vm_compute; reflexivity).
  split; [exact H|].
  destruct (fields_are_fixed_at_construction 5 demo_player (VLoc 6)
              demo_world demo_disabled H) as (Hd & _ & _ & Hops).
  split; [exact Hd|exact Hops].
Defined.

(** C9 as first stated does not hold: with a player that is [undefined] the
    constructor throws a [TypeError] at [player.getView()], both when the
    document has the target element (to which nothing is appended) and when it
    has none. *)
Lemma disabled_constructor_throws_without_view :
  (truthy (read demo_store (read demo_store (VLoc 6) "ui") "disable") = true
   /\ @getElementById demo_host (document demo_world) (VStr "player-div")
      = Some (VHost 7)
   /\ constructor 5 VUndef (VLoc 6) demo_world
      = Throw TypeError (marked_disabled demo_world)
   /\ trace (marked_disabled demo_world) = []
   /\ document (marked_disabled demo_world) = document demo_world)
  /\ (truthy (read demo_store_no_target
                (read demo_store_no_target (VLoc 0) "ui") "disable") = true
      /\ @getElementById demo_host (document demo_world_no_target)
           (read demo_store_no_target (VLoc 1) "targetId") = None
      /\ constructor 5 VUndef (VLoc 0) demo_world_no_target
         = Throw TypeError (marked_disabled demo_world_no_target)).
Proof. repeat split; vm_compute; reflexivity. Qed.

Lemma disabled_constructor_appends_view_witness :
  truthy (read demo_store (read demo_store (VLoc 6) "ui") "disable") = true
  /\ @player_view demo_host demo_player = Some (VHost 1)
  /\ constructor 5 demo_player (VLoc 6) demo_world
     = Ok Proxy
         (with_trace [EAppendChild (VHost 7) (VHost 1)]
            (@with_document demo_host [(VHost 7, VHost 1)]
               (marked_disabled demo_world))).
Proof.
  split; [reflexivity|]. split; [reflexivity|].
  exact (disabled_constructor_appends_view 5 demo_player (VLoc 6) demo_world
           eq_refl).
Defined.

Lemma reset_and_spinner_are_setConfig_witness :
  wrapper_at false demo_enabled
  /\ exists st,
       manager demo_enabled = Some st
       /\ invoke 3 Proxy "reset" [] demo_enabled
          = Ok VUndef
              (served um_setConfig [VLoc 11; VStr "engine"] st
                 (with_store
                    (store demo_enabled ++ [Cell Plain [("hasError", VBool false)]])
                    demo_enabled)).
Proof.
  split; [exact demo_enabled_wrapper|].
  destruct (reset_and_spinner_are_setConfig demo_enabled demo_enabled_wrapper)
    as (st & Hst & Hall).
  exists st. split; [exact Hst|].
  exact (proj1 (proj2 (Hall 0 []))).
Defined.

Lemma ui_construction_is_delegated_witness :
  ui_config demo_store (VLoc 0) (VLoc 1)
  /\ truthy (read demo_store (VLoc 1) "disable") = false
  /\ exists evs,
       trace demo_enabled
       = [ENewUIManager demo_player (VLoc 1); EUIManager um_buildDefaultUI []]
         ++ evs
       /\ forallb method_event evs = true
       /\ document demo_enabled = [].
Proof.
  split; [exact demo_ui_config|]. split; [reflexivity|].
  exact (ui_construction_is_delegated 5 demo_player (VLoc 0) (VLoc 1) demo_world
           demo_ui_config eq_refl).
Defined.

(** C6 as first stated does not hold: on the concrete host
    [appendPlayerViewToTargetContainer] changes the document, and touches no
    configuration object. *)
Lemma appendPlayerView_changes_the_document :
  let w' := world_of (appendPlayerViewToTargetContainer (VStr "player-div")
                        (VHost 1) demo_world) in
  document w' <> document demo_world
  /\ trace w' = [EAppendChild (VHost 7) (VHost 1)]
  /\ store w' = store demo_world.
Proof. split; [discriminate|]. split; reflexivity. Qed.

Lemma vr_stereo_configuration_witness :
  ui_config demo_store (VLoc 0) (VLoc 1)
  /\ truthy (read demo_store (VLoc 1) "disable") = false
  /\ read demo_store (VLoc 0) "plugins" <> VNull
  /\ closedb demo_store = true
  /\ validb demo_store (VLoc 0) = true
  /\ exists w1 c,
       constructor 4 demo_player (VLoc 0) demo_world = Ok Proxy w1
       /\ omap vrStereo_config (trace w1) = [VLoc c]
       /\ store w1 !! c = Some (Cell Plain [("vrStereoMode", VBool true)]).
Proof.
  assert (Hn : read demo_store (VLoc 0) "plugins" <> VNull) by discriminate.
  split; [exact demo_ui_config|]. split; [reflexivity|]. split; [exact Hn|].
  split; [reflexivity|]. split; [reflexivity|].
  destruct (vr_stereo_configuration 0 demo_player (VLoc 0) (VLoc 1) demo_world
              demo_ui_config eq_refl Hn eq_refl eq_refl)
    as (w1 & Hc & c & Ht & _ & Hs).
  exists w1, c. split; [exact Hc|]. split; [exact Ht|exact Hs].
Defined.

(** C2 as first stated does not hold: with [options.plugins] equal to
    [null] and [config.css] set, the constructor throws in [_handleVr], and
    no style sheet load is started. *)
Lemma css_set_but_null_plugins_loads_nothing :
  ui_config demo_store_null_plugins (VLoc 0) (VLoc 1)
  /\ truthy (read demo_store_null_plugins (VLoc 1) "disable") = false
  /\ truthy (read demo_store_null_plugins (VLoc 1) "css") = true
  /\ exists w1,
       constructor 5 demo_player (VLoc 0) demo_world_null_plugins
       = Throw TypeError w1
       /\ omap loaded_css (trace w1) = []
       /\ pending w1 = [].
Proof.
  split; [repeat split|]. split; [reflexivity|]. split; [reflexivity|].
  eexists. split; [vm_compute; reflexivity|].
  split; vm_compute; reflexivity.
Qed.

Lemma external_css_is_fire_and_forget_witness :
  ui_config demo_store (VLoc 0) (VLoc 1)
  /\ truthy (read demo_store (VLoc 1) "disable") = false
  /\ read demo_store (VLoc 0) "plugins" <> VNull
  /\ closedb demo_store = true
  /\ validb demo_store (VLoc 0) = true
  /\ exists w1,
       constructor 4 demo_player (VLoc 0) demo_world = Ok Proxy w1
       /\ omap loaded_css (trace w1) = [VStr "skin.css"]
       /\ pending w1 = [Reaction css_loaded css_failed]
       /\ omap logged (trace w1) = [].
Proof.
  assert (Hn : read demo_store (VLoc 0) "plugins" <> VNull) by discriminate.
  split; [exact demo_ui_config|]. split; [reflexivity|]. split; [exact Hn|].
  split; [reflexivity|]. split; [reflexivity|].
  destruct (external_css_is_fire_and_forget 0 demo_player (VLoc 0) (VLoc 1)
              demo_world demo_ui_config eq_refl Hn eq_refl eq_refl)
    as [(w1 & Hc & Hl & Hp & Hg) _].
  exists w1. split; [exact Hc|]. split; [exact Hl|]. split; [exact Hp|exact Hg].
Defined.

Lemma demo_enabled_nested_wrapper : wrapper_at false demo_enabled_nested.
Proof.
  exists 5, demo_player, (VLoc 0),
    (@Build_World demo_host demo_store_nested fresh_instance None [] [] []),
    demo_enabled_nested, [].
  split; [vm_compute; reflexivity|]. split; vm_compute; reflexivity.
Defined.

Lemma demo_enabled_object_width_wrapper :
  wrapper_at false demo_enabled_object_width.
Proof.
  exists 5, demo_player, (VLoc 0),
    (@Build_World demo_host demo_store_object_width fresh_instance None [] [] []),
    demo_enabled_object_width, [].
  split; [vm_compute; reflexivity|]. split; vm_compute; reflexivity.
Defined.

(** C8 as first stated does not hold: with a seekbar configuration that
    holds a plain object under [thumbsWidth] and has an own property
    [__proto__], neither takes precedence.  [merged.thumbsWidth] is the
    default, and [merged] has no own property [__proto__]: what it has under
    that name is [Object.prototype]. *)
Lemma seekbar_property_does_not_take_precedence :
  wrapper_at false demo_enabled_object_width
  /\ getPropertyPath (store demo_enabled_object_width) (VLoc 1)
       "components.seekbar" = VLoc 3
  /\ read (store demo_enabled_object_width) (VLoc 3) "thumbsWidth" = VLoc 4
  /\ read (store demo_enabled_object_width) (VLoc 3) "__proto__" = VNum 5
  /\ exists w',
       invoke 6 Proxy "setSeekbarConfig" [VUndef; VLoc 1]
         demo_enabled_object_width = Ok VUndef w'
       /\ trace w'
          = trace demo_enabled_object_width
            ++ [EUIManager um_setConfig [VLoc 7; VStr "seekbar"]]
       /\ read (store w') (VLoc 7) "thumbsWidth" = VNum 164
       /\ has_own (store w') (VLoc 7) "__proto__" = false
       /\ read (store w') (VLoc 7) "__proto__" = VObjectPrototype.
Proof.
  split; [exact demo_enabled_object_width_wrapper|].
  split; [vm_compute; reflexivity|]. split; [vm_compute; reflexivity|].
  split; [vm_compute; reflexivity|].
  eexists. split; [vm_compute; reflexivity|].
  repeat split; vm_compute; reflexivity.
Qed.

Lemma seekbar_config_overrides_defaults_witness :
  let h := store demo_enabled_nested in
  let seekbarConfig := getPropertyPath h (VLoc 1) "components.seekbar" in
  wrapper_at false demo_enabled_nested
  /\ closedb h = true /\ data_objects h = true /\ validb h (VLoc 1) = true
  /\ is_host seekbarConfig = false
  /\ depth_leb 2 h seekbarConfig = true
  /\ exists st h' merged,
       invoke 6 Proxy "setSeekbarConfig" [VUndef; VLoc 1] demo_enabled_nested
       = Ok VUndef
           (served um_setConfig [VLoc merged; VStr "seekbar"] st
              (with_store h' demo_enabled_nested))
       /\ read h' (VLoc merged) "thumbsSlices" = VNum 50
       /\ read h' (VLoc merged) "thumbsWidth" = VNum 164
       /\ exists l',
            read h' (VLoc merged) "marks" = VLoc l' /\ length h <= l'
            /\ copied h h' l' (VLoc l') (VLoc 4).
Proof.
  intros h seekbarConfig.
  assert (Hc : closedb h = true) by (vm_compute; reflexivity).
  assert (Hd : data_objects h = true) by (vm_compute; reflexivity).
  assert (Hv : validb h (VLoc 1) = true) by (vm_compute; reflexivity).
  assert (Hn : is_host seekbarConfig = false) by (vm_compute; reflexivity).
  assert (Hl : depth_leb 2 h seekbarConfig = true) by (vm_compute; reflexivity).
  split; [exact demo_enabled_nested_wrapper|]. split; [exact Hc|].
  split; [exact Hd|]. split; [exact Hv|]. split; [exact Hn|]. split; [exact Hl|].
  destruct (seekbar_config_overrides_defaults 2 0 VUndef (VLoc 1)
              demo_enabled_nested demo_enabled_nested_wrapper Hc Hd Hv Hn Hl)
    as (st & h' & merged & _ & Hinv & _ & _ & _ & Hk).
  exists st, h', merged. split; [exact Hinv|].
  assert (Ekey : forall k,
            k ∈ ["thumbsSlices"; "marks"] ->
            isObject h seekbarConfig
            && bool_decide (k ∈ own_keys h seekbarConfig) = true).
  { intros k Hin. apply andb_true_iff. split; [vm_compute; reflexivity|].
    apply bool_decide_eq_true.
    change (own_keys h seekbarConfig) with ["thumbsSlices"; "marks"].
    exact Hin. }
  assert (Enokey : isObject h seekbarConfig
                   && bool_decide ("thumbsWidth" ∈ own_keys h seekbarConfig)
                   = false) by (vm_compute; reflexivity).
  pose proof (Hk "thumbsSlices") as H1.
  pose proof (Hk "thumbsWidth") as H2.
  pose proof (Hk "marks") as H3.
  cbv zeta in H1, H2, H3. fold h in H1, H2, H3. fold seekbarConfig in H1, H2, H3.
  rewrite Ekey in H1 by (apply elem_of_cons; by left).
  rewrite Ekey in H3 by (apply elem_of_cons; right; apply elem_of_cons; by left).
  rewrite Enokey in H2.
  assert (E1 : by_value h (read h seekbarConfig "thumbsSlices") = false)
    by (vm_compute; reflexivity).
  assert (E1' : read h seekbarConfig "thumbsSlices" = VNum 50)
    by (vm_compute; reflexivity).
  assert (E2 : @preview_value demo_host h VUndef seekbarConfig "thumbsWidth" = VNum 164)
    by (vm_compute; reflexivity).
  assert (E3 : by_value h (read h seekbarConfig "marks") = true)
    by (vm_compute; reflexivity).
  assert (E3' : truthy (@preview_value demo_host h VUndef seekbarConfig "marks") = false)
    by (vm_compute; reflexivity).
  assert (E3'' : read h seekbarConfig "marks" = VLoc 4)
    by (vm_compute; reflexivity).
  rewrite E1, E1' in H1. rewrite E2 in H2. rewrite E3, E3', E3'' in H3.
  split; [exact H1|]. split; [exact H2|exact H3].
Defined.

(** ** The further properties on the concrete host *)

Lemma destroy_is_forwarded_witness :
  wrapper_at false demo_enabled
  /\ exists st,
       manager demo_enabled = Some st
       /\ invoke 1 Proxy "destroy" [] demo_enabled
          = Ok VUndef (served um_destroy [] st demo_enabled).
Proof.
  split; [exact demo_enabled_wrapper|].
  destruct (destroy_is_forwarded demo_enabled demo_enabled_wrapper)
    as (st & Hst & Hall).
  exists st. split; [exact Hst|exact (proj1 (Hall 0 []))].
Defined.

Lemma constructor_without_ui_throws_witness :
  (nullish VUndef = true
   \/ nullish (read (store demo_world) VUndef "ui") = true)
  /\ constructor 5 demo_player VUndef demo_world
     = Throw TypeError (with_uiw fresh_instance demo_world).
Proof.
  assert (H : nullish VUndef = true
              \/ nullish (read (store demo_world) VUndef "ui") = true)
    by (left; reflexivity).
  split; [exact H|].
  exact (constructor_without_ui_throws 5 demo_player VUndef demo_world H).
Defined.

Lemma constructor_with_null_plugins_throws_witness :
  ui_config demo_store_null_plugins (VLoc 0) (VLoc 1)
  /\ truthy (read demo_store_null_plugins (VLoc 1) "disable") = false
  /\ read demo_store_null_plugins (VLoc 0) "plugins" = VNull
  /\ constructor 5 demo_player (VLoc 0) demo_world_null_plugins
     = Throw TypeError (built demo_player (VLoc 1) demo_world_null_plugins).
Proof.
  assert (Hu : ui_config demo_store_null_plugins (VLoc 0) (VLoc 1))
    by (repeat split).
  split; [exact Hu|]. split; [reflexivity|]. split; [reflexivity|].
  exact (constructor_with_null_plugins_throws 4 demo_player (VLoc 0) (VLoc 1)
           demo_world_null_plugins Hu eq_refl eq_refl).
Defined.

Lemma proxy_is_transparent_when_enabled_witness :
  _disabled (uiw demo_enabled) = false
  /\ invoke 3 Proxy "reset" [] demo_enabled
     = invoke 3 Target "reset" [] demo_enabled.
Proof.
  assert (H : _disabled (uiw demo_enabled) = false) by (vm_compute; reflexivity).
  split; [exact H|].
  exact (proj2 (proxy_is_transparent_when_enabled 3 "reset" [] demo_enabled H)).
Defined.

Lemma bare_disabled_instance_throws_witness :
  wrapper_at true demo_disabled
  /\ "setConfig" ∈ ["destroy"; "setConfig"; "addComponent"; "registerManager";
                     "getManager"; "hasManager"]
  /\ invoke 1 Target "setConfig" [VLoc 1] demo_disabled
     = Throw TypeError demo_disabled.
Proof.
  assert (Hin : "setConfig" ∈ ["destroy"; "setConfig"; "addComponent";
                               "registerManager"; "getManager"; "hasManager"])
    by (apply elem_of_cons; right; apply elem_of_cons; by left).
  split; [exact demo_disabled_wrapper|]. split; [exact Hin|].
  exact (bare_disabled_instance_throws demo_disabled demo_disabled_wrapper
           0 [VLoc 1] "setConfig" Hin).
Defined.

Lemma constructor_outside_calls_in_order_witness :
  ui_config demo_store (VLoc 0) (VLoc 1)
  /\ truthy (read demo_store (VLoc 1) "disable") = false
  /\ read demo_store (VLoc 0) "plugins" <> VNull
  /\ closedb demo_store = true
  /\ validb demo_store (VLoc 0) = true
  /\ exists w1,
       constructor 4 demo_player (VLoc 0) demo_world = Ok Proxy w1
       /\ trace w1
          = [ENewUIManager demo_player (VLoc 1);
             EUIManager um_buildDefaultUI [];
             EUIManager um_setConfig [VLoc 9; VStr "vrStereo"];
             ELoadStyleSheetAsync (VStr "skin.css")].
Proof.
  assert (Hn : read demo_store (VLoc 0) "plugins" <> VNull) by discriminate.
  split; [exact demo_ui_config|]. split; [reflexivity|]. split; [exact Hn|].
  split; [reflexivity|]. split; [reflexivity|].
  destruct (constructor_outside_calls_in_order 0 demo_player (VLoc 0) (VLoc 1)
              demo_world demo_ui_config eq_refl Hn eq_refl eq_refl)
    as (w1 & Hc & Ht).
  exists w1. split; [exact Hc|exact Ht].
Defined.

Lemma calls_write_no_existing_object_witness :
  let w := demo_enabled_nested in
  let args := [VUndef; VLoc 1] in
  closedb (store w) = true
  /\ data_objects (store w) = true
  /\ Forall (fun a => validb (store w) a = true) args
  /\ is_host (getPropertyPath (store w) (arg 1 args) "components.seekbar")
     = false
  /\ extends (store w)
       (store (world_of (invoke 6 Proxy "setSeekbarConfig" args w)))
  /\ stays (invoke 6 Proxy "setSeekbarConfig" args w).
Proof.
  intros w args.
  assert (Hc : closedb (store w) = true) by (vm_compute; reflexivity).
  assert (Hd : data_objects (store w) = true) by (vm_compute; reflexivity).
  assert (Hv : Forall (fun a => validb (store w) a = true) args).
  { apply Forall_cons; [vm_compute; reflexivity|].
    apply Forall_cons; [vm_compute; reflexivity|]. apply Forall_nil. }
  assert (Hn : is_host (getPropertyPath (store w) (arg 1 args)
                          "components.seekbar") = false)
    by (vm_compute; reflexivity).
  split; [exact Hc|]. split; [exact Hd|]. split; [exact Hv|]. split; [exact Hn|].
  exact (calls_write_no_existing_object 6 Proxy "setSeekbarConfig" args w
           Hc Hd Hv Hn).
Defined.

Lemma demo_enabled_cyclic_wrapper : wrapper_at false demo_enabled_cyclic.
Proof.
  exists 5, demo_player, (VLoc 0),
    (@Build_World demo_host demo_store_cyclic fresh_instance None [] [] []),
    demo_enabled_cyclic, [].
  split; [vm_compute; reflexivity|]. split; vm_compute; reflexivity.
Defined.

Lemma seekbar_config_all_or_nothing_witness :
  let w := demo_enabled_cyclic in
  wrapper_at false w
  /\ closedb (store w) = true /\ data_objects (store w) = true
  /\ validb (store w) (VLoc 1) = true
  /\ is_host (getPropertyPath (store w) (VLoc 1) "components.seekbar") = false
  /\ exists w',
       invoke 12 Proxy "setSeekbarConfig" [VUndef; VLoc 1] w
       = Throw RangeError w'
       /\ trace w' = trace w /\ manager w' = manager w
       /\ extends (store w) (store w').
Proof.
  intros w.
  assert (Hc : closedb (store w) = true) by (vm_compute; reflexivity).
  assert (Hd : data_objects (store w) = true) by (vm_compute; reflexivity).
  assert (Hv : validb (store w) (VLoc 1) = true) by (vm_compute; reflexivity).
  assert (Hn : is_host (getPropertyPath (store w) (VLoc 1) "components.seekbar")
               = false) by (vm_compute; reflexivity).
  split; [exact demo_enabled_cyclic_wrapper|]. split; [exact Hc|].
  split; [exact Hd|]. split; [exact Hv|]. split; [exact Hn|].
  destruct (seekbar_config_all_or_nothing 12 VUndef (VLoc 1) w
              demo_enabled_cyclic_wrapper Hc Hd Hv Hn) as (st & _ & Hr).
  destruct (invoke 12 Proxy "setSeekbarConfig" [VUndef; VLoc 1] w)
    as [v w'|e w'|x w'] eqn:E.
  - exfalso. vm_compute in E. discriminate E.
  - destruct Hr as (-> & h' & -> & He). exists (with_store h' w).
    split; [reflexivity|]. split; [reflexivity|]. split; [reflexivity|exact He].
  - destruct Hr.
Defined.
